(** * PyDataProvider2: sample pool, cache strategies and field scanners

    A shallow embedding of [paddle/gserver/dataproviders/PyDataProvider2.cpp].

    - machine integers are [Z] with the wrap-around of their C++ type
      written out ([size_t] is 64 bits wide, [int] 32 bits);
    - a [std::deque<PyObjectPtr>] is a list of handles, a handle being
      [None] when it is [nullptr];
    - [CHECK] and [LOG(FATAL)] abort the process: operations that can reach
      one return an [outcome], as do those that would index a container
      out of range;
    - the loading thread and the consumer interleave at the granularity of
      their critical sections: one [action] of the scheduler per section. *)

From Stdlib Require Import ZArith List Lia Bool Permutation.
Import ListNotations.
Local Open Scope Z_scope.

(** ** Machine integers *)

Definition SIZE_MOD : Z := 2 ^ 64.

(** Conversion of an integer to [size_t]. *)
Definition to_size_t (z : Z) : Z := z mod SIZE_MOD.

(** [a + b] and [a - b] on [size_t]. *)
Definition size_add (a b : Z) : Z := (a + b) mod SIZE_MOD.
Definition size_sub (a b : Z) : Z := (a - b) mod SIZE_MOD.

(** Conversion of a [size_t] to [int64_t] (the return type of
    [getNextBatchInternal]). *)
Definition to_int64 (z : Z) : Z := (z + 2 ^ 63) mod SIZE_MOD - 2 ^ 63.

(** Conversion to [int] and [int] addition, two's complement on 32 bits. *)
Definition to_int (z : Z) : Z := (z + 2 ^ 31) mod 2 ^ 32 - 2 ^ 31.
Definition int_add (a b : Z) : Z := to_int (a + b).

(** [-1UL], the pool size when the provider sets none. *)
Definition SIZE_MAX : Z := SIZE_MOD - 1.

(** ** Outcomes of operations that may abort *)

Inductive outcome (A : Type) : Type :=
| Ok (a : A)        (* normal return *)
| Fatal             (* a CHECK failed or LOG(FATAL) was reached *)
| OutOfRange        (* a container was indexed outside its bounds *)
| OutOfFuel.        (* the model's loop bound was hit (never, see below) *)
Arguments Ok {A} a.
Arguments Fatal {A}.
Arguments OutOfRange {A}.
Arguments OutOfFuel {A}.

Definition bind {A B : Type} (m : outcome A) (f : A -> outcome B) : outcome B :=
  match m with
  | Ok a => f a
  | Fatal => Fatal
  | OutOfRange => OutOfRange
  | OutOfFuel => OutOfFuel
  end.

Notation "x <- m ;; k" := (bind m (fun x => k))
  (at level 61, m at next level, right associativity).
Notation "' p <- m ;; k" := (bind m (fun x => match x with p => k end))
  (at level 61, p pattern, m at next level, right associativity).

(** Two computations that return the same value whenever one of them
    returns. *)
Definition same_ok {A : Type} (m1 m2 : outcome A) : Prop :=
  forall a : A, m1 = Ok a <-> m2 = Ok a.

(** ** Containers *)

(** [v[i] = x]; nothing is written when [i] is out of range, callers check
    the range first. *)
Fixpoint list_set {A : Type} (l : list A) (i : nat) (x : A) : list A :=
  match l, i with
  | [], _ => []
  | _ :: t, O => x :: t
  | h :: t, S j => h :: list_set t j x
  end.

(** Checked write [v[i] = x]. *)
Definition write_at {A : Type} (l : list A) (i : Z) (x : A) : outcome (list A) :=
  if (0 <=? i) && (i <? Z.of_nat (length l))
  then Ok (list_set l (Z.to_nat i) x)
  else OutOfRange.

(** Checked read [v[i]]. *)
Definition read_at {A : Type} (l : list A) (i : Z) : outcome A :=
  if 0 <=? i then
    match nth_error l (Z.to_nat i) with
    | Some x => Ok x
    | None => OutOfRange
    end
  else OutOfRange.

(** ** Cache strategies *)

Section Cache.

Context {Sample : Type}.

(** [PyObjectPtr]: an owning handle, [None] for [nullptr]. *)
Definition PyObjectPtr : Type := option Sample.

Definition deque : Type := list PyObjectPtr.

(** enum CacheType *)
Inductive CacheType : Type := NO_CACHE | CACHE_PASS_IN_MEM.

(** The two implementations of [IPyDataProviderCache] with their fields. *)
Inductive IPyDataProviderCache : Type :=
| NoCacheStrategy
| CacheOnePassInMemory (objPool_ droppedPool_ : deque).

(** [IPyDataProviderCache::create] *)
Definition IPyDataProviderCache_create (ct : CacheType) : IPyDataProviderCache :=
  match ct with
  | NO_CACHE => NoCacheStrategy
  | CACHE_PASS_IN_MEM => CacheOnePassInMemory [] []
  end.

Definition empty (d : deque) : bool :=
  match d with [] => true | _ => false end.

(** [CacheOnePassInMemory::reset] *)
Definition CacheOnePassInMemory_reset (objPool_ droppedPool_ : deque)
  : outcome (bool * IPyDataProviderCache) :=
  if empty objPool_ && empty droppedPool_ then
    Ok (true, CacheOnePassInMemory objPool_ droppedPool_)
  else if empty objPool_ then
    (* std::swap(objPool_, droppedPool_) *)
    Ok (false, CacheOnePassInMemory droppedPool_ objPool_)
  else
    Fatal. (* LOG(FATAL) << "Unexpected branch" *)

(** [IPyDataProviderCache::reset], by dynamic dispatch. *)
Definition cache_reset (c : IPyDataProviderCache)
  : outcome (bool * IPyDataProviderCache) :=
  match c with
  | NoCacheStrategy => Ok (true, NoCacheStrategy)
  | CacheOnePassInMemory o d => CacheOnePassInMemory_reset o d
  end.

(** The loop of [CacheOnePassInMemory::drop]:
    the handles [droppedPool_[orgSize + i]] and [data[i]] are swapped, for
    [n] consecutive values of [i]. *)
Fixpoint drop_swaps (n : nat) (i : nat) (orgSize : nat) (dropped data : deque)
  : deque * deque :=
  match n with
  | O => (dropped, data)
  | S n' =>
      let a := nth (orgSize + i) dropped None in
      let b := nth i data None in
      drop_swaps n' (S i) orgSize
        (list_set dropped (orgSize + i) b) (list_set data i a)
  end.

(** [CacheOnePassInMemory::drop]; [data] is cleared on return. *)
Definition CacheOnePassInMemory_drop (objPool_ droppedPool_ : deque) (data : deque)
  : IPyDataProviderCache :=
  let orgSize := length droppedPool_ in
  (* droppedPool_->resize(orgSize + data->size()) *)
  let resized := droppedPool_ ++ repeat None (length data) in
  let '(dropped, _) := drop_swaps (length data) 0 orgSize resized data in
  CacheOnePassInMemory objPool_ dropped.

(** [IPyDataProviderCache::drop] *)
Definition cache_drop (c : IPyDataProviderCache) (data : deque)
  : IPyDataProviderCache :=
  match c with
  | NoCacheStrategy => NoCacheStrategy (* data->clear() *)
  | CacheOnePassInMemory o d => CacheOnePassInMemory_drop o d data
  end.

(** [IPyDataProviderCache::load]: [None] is the [nullptr] of
    [NoCacheStrategy], otherwise the deque the returned pointer refers to. *)
Definition cache_load (c : IPyDataProviderCache) : option deque :=
  match c with
  | NoCacheStrategy => None
  | CacheOnePassInMemory o _ => Some o
  end.

(** Writing through the pointer returned by [load]. *)
Definition cache_store (c : IPyDataProviderCache) (pool : deque)
  : IPyDataProviderCache :=
  match c with
  | NoCacheStrategy => NoCacheStrategy
  | CacheOnePassInMemory _ d => CacheOnePassInMemory pool d
  end.

End Cache.

Arguments PyObjectPtr Sample : clear implicits.
Arguments deque Sample : clear implicits.
Arguments IPyDataProviderCache Sample : clear implicits.

(** ** The provider: pool, loading thread and batch drawing *)

Section Provider.

Context {Sample : Type}.

(** The fields of [PyDataProvider2] read once by [readPyFields].  The
    weigher [calc_batch_size] is taken as a function that gives an integer
    for every sample, so that [CHECK(ok)] after each of its calls (l.350,
    l.523) passes. *)
Record Config : Type := {
  skipShuffle_ : bool;                     (* !should_shuffle *)
  poolSize_ : Z;                           (* pool_size, or -1UL *)
  canOverBatchSize_ : bool;                (* can_over_batch_size *)
  calcBatchSize_ : option (Sample -> Z);   (* calc_batch_size, when callable *)
}.

(** The fields of [PyDataProvider2] that change while it runs.  A calling
    context is a generator, given by the samples it has yet to yield.
    [loading] is the local variable [data] of [loadThread] between the
    section that reads it and the section that pushes it. *)
Record PyDataProvider2 : Type := {
  loadThread_ : bool;
  callingContexts_ : list (list Sample);
  dataPool_ : deque Sample;
  poolActualSize_ : Z;
  cache_ : IPyDataProviderCache Sample;
  loading : option Sample;
}.

Variable cfg : Config.

(** The weight of one sample: [py::castInt<size_t>] of what
    [calc_batch_size] returns, 1 without it. *)
Definition batchSizeOf (s : Sample) : Z :=
  match calcBatchSize_ cfg with
  | Some calcBatchSize => to_size_t (calcBatchSize s)
  | None => 1
  end.

(** [PositionRandom::operator()]; [dist] is the value drawn from
    [uniform_int_distribution<size_t>(0, len - 1)]. *)
Definition PositionRandom (skipRand : bool) (dist : Z) (len : Z) : Z :=
  if negb skipRand then dist else 0.

(** *** loadThread *)

(** The predicate of [pushCV_.wait]. *)
Definition pushReady (poolActualSize additionalBatchSize : Z) : bool :=
  if canOverBatchSize_ cfg then
    poolActualSize <? poolSize_ cfg
  else
    size_add poolActualSize additionalBatchSize <? poolSize_ cfg.

(** The condition under which a push proceeds as the specification words
    it, to be compared with [pushReady]: [actualWeight + weight <= capacity]
    in strict mode, [actualWeight < capacity] in lenient mode. *)
Definition pushReady_spec (actualWeight weight : Z) : bool :=
  if canOverBatchSize_ cfg then
    actualWeight <? poolSize_ cfg
  else
    actualWeight + weight <=? poolSize_ cfg.

(** [callingContexts_.erase(callingContexts_.begin() + cid)] *)
Fixpoint erase {A : Type} (l : list A) (cid : nat) : list A :=
  match l, cid with
  | [], _ => []
  | _ :: t, O => t
  | h :: t, S j => h :: erase t j
  end.

(** The "Read data" section of one iteration of [loadThread]: the
    generator [cid] either yields its next sample or is at its end and is
    erased. *)
Definition loadThread_read (dist : Z) (st : PyDataProvider2)
  : outcome PyDataProvider2 :=
  let len := Z.of_nat (length (callingContexts_ st)) in
  let cid := PositionRandom (skipShuffle_ cfg) dist len in
  ctx <- read_at (callingContexts_ st) cid ;;
  match ctx with
  | [] =>
      Ok {| loadThread_ := loadThread_ st;
            callingContexts_ := erase (callingContexts_ st) (Z.to_nat cid);
            dataPool_ := dataPool_ st;
            poolActualSize_ := poolActualSize_ st;
            cache_ := cache_ st;
            loading := None |}
  | data :: rest =>
      Ok {| loadThread_ := loadThread_ st;
            callingContexts_ := list_set (callingContexts_ st) (Z.to_nat cid) rest;
            dataPool_ := dataPool_ st;
            poolActualSize_ := poolActualSize_ st;
            cache_ := cache_ st;
            loading := Some data |}
  end.

(** The section of [loadThread] that follows the wait:
    [poolActualSize_ += additionalBatchSize; dataPool_.emplace_back(data)]. *)
Definition loadThread_push (data : Sample) (st : PyDataProvider2)
  : PyDataProvider2 :=
  {| loadThread_ := loadThread_ st;
     callingContexts_ := callingContexts_ st;
     dataPool_ := dataPool_ st ++ [Some data];
     poolActualSize_ := size_add (poolActualSize_ st) (batchSizeOf data);
     cache_ := cache_ st;
     loading := None |}.

(** *** resetImpl *)

(** [resetImpl(startNewThread)]; [generators] is what the generators of
    the new pass will yield, one list per file, should a thread start. *)
Definition resetImpl (startNewThread : bool) (generators : list (list Sample))
  (st : PyDataProvider2) : outcome PyDataProvider2 :=
  (* the thread is joined, then everything is cleared *)
  if startNewThread then
    '(reload, cache) <- cache_reset (cache_ st) ;;
    if (reload : bool) then
      Ok {| loadThread_ := true;
            callingContexts_ := generators;
            dataPool_ := [];
            poolActualSize_ := 0;
            cache_ := cache;
            loading := None |}
    else
      Ok {| loadThread_ := false;
            callingContexts_ := [];
            dataPool_ := [];
            poolActualSize_ := 0;
            cache_ := cache;
            loading := None |}
  else
    Ok {| loadThread_ := false;
          callingContexts_ := [];
          dataPool_ := [];
          poolActualSize_ := 0;
          cache_ := cache_ st;
          loading := None |}.

(** The object as the constructor leaves it; [poolActualSize_] is not
    initialised there, [uninit] is whatever it holds. *)
Definition PyDataProvider2_ctor (ct : CacheType) (uninit : Z) : PyDataProvider2 :=
  {| loadThread_ := false;
     callingContexts_ := [];
     dataPool_ := [];
     poolActualSize_ := uninit;
     cache_ := IPyDataProviderCache_create ct;
     loading := None |}.

(** *** getNextBatchInternal *)

(** The predicate of [pullCV_.wait]. *)
Definition pullReady (size : Z) (st : PyDataProvider2) : bool :=
  (size <=? poolActualSize_ st)
  || match callingContexts_ st with [] => true | _ => false end.

(** The section "move data from pool to data" of the drawing loop, for the
    value [r] of [ThreadLocalRand::rand()]: the handle moved to the back of
    [data] and the pool left.  The modulo of an empty pool's size is
    undefined. *)
Definition draw (r : Z) (pool : deque Sample)
  : outcome (PyObjectPtr Sample * deque Sample) :=
  if skipShuffle_ cfg then
    h <- read_at pool 0 ;;
    match h with
    | None => Fatal (* CHECK(pool[i] != nullptr) *)
    | Some _ => Ok (h, tl pool) (* pop_front *)
    end
  else
    let n := Z.of_nat (length pool) in
    if n =? 0 then OutOfRange else
    let i := to_size_t r mod n in
    h <- read_at pool i ;;
    match h with
    | None => Fatal (* CHECK(pool[i] != nullptr) *)
    | Some _ =>
        pool1 <- (if negb (i =? n - 1) then
                    (* std::swap(pool[i], pool.back()) *)
                    back <- read_at pool (n - 1) ;;
                    p <- write_at pool i back ;;
                    write_at p (n - 1) h
                  else Ok pool) ;;
        back <- read_at pool1 (n - 1) ;;
        Ok (back, removelast pool1) (* pop_back *)
    end.

(** The weight added to [bsize] for the handle at the back of [data];
    [calc_batch_size] cannot be called on a null handle. *)
Definition drawnSize (h : PyObjectPtr Sample) : outcome Z :=
  match calcBatchSize_ cfg, h with
  | None, _ => Ok 1
  | Some _, Some s => Ok (batchSizeOf s)
  | Some _, None => Fatal
  end.

(** What the drawing loop leaves behind. *)
Record Drawn : Type := {
  drawn_data : deque Sample;
  drawn_pool : deque Sample;
  drawn_bsize : Z;
}.

(** [while (bsize < size && !pool.empty())]: [rand k] is the value of the
    [k]-th call of [ThreadLocalRand::rand()].  Every iteration shortens the
    pool, so its length bounds the number of iterations. *)
Fixpoint draw_loop (rand : nat -> Z) (fuel : nat) (k : nat) (size : Z)
  (data pool : deque Sample) (bsize : Z) : outcome Drawn :=
  if (bsize <? size) && negb (empty pool) then
    match fuel with
    | O => OutOfFuel
    | S fuel' =>
        '(h, pool') <- draw (rand k) pool ;;
        w <- drawnSize h ;;
        draw_loop rand fuel' (S k) size (data ++ [h]) pool' (size_add bsize w)
    end
  else
    Ok {| drawn_data := data; drawn_pool := pool; drawn_bsize := bsize |}.

(** The deque [poolPtr] points to: the data pool when a thread loads, what
    the cache's [load] returns otherwise. *)
Definition poolOf (st : PyDataProvider2) : option (deque Sample) :=
  if loadThread_ st then Some (dataPool_ st) else cache_load (cache_ st).

(** The part of [getNextBatchInternal(size_, batch)] that works on the
    pool and the cache, once [pullCV_.wait] has returned (l.473, 484-540
    and 594-598): the value returned, the handles drawn for the batch, and
    the provider.  The whole call, with its wait and with the encoding of
    the samples drawn into the arguments of the batch, is
    [getNextBatchInternal] below. *)
Definition getNextBatchInternal_pool (rand : nat -> Z) (size_ : Z)
  (st : PyDataProvider2) : outcome (Z * deque Sample * PyDataProvider2) :=
  if size_ <? 0 then Fatal (* CHECK_GE(size_, 0) *) else
  let size := to_size_t size_ in
  match poolOf st with
  | None => Fatal (* CHECK(poolPtr != nullptr) *)
  | Some pool =>
      d <- draw_loop rand (length pool) 0 size [] pool 0 ;;
      let bsize := drawn_bsize d in
      let st1 :=
        if loadThread_ st then
          {| loadThread_ := true;
             callingContexts_ := callingContexts_ st;
             dataPool_ := drawn_pool d;
             poolActualSize_ := size_sub (poolActualSize_ st) bsize;
             cache_ := cache_ st;
             loading := loading st |}
        else
          {| loadThread_ := false;
             callingContexts_ := callingContexts_ st;
             dataPool_ := dataPool_ st;
             poolActualSize_ := poolActualSize_ st;
             cache_ := cache_store (cache_ st) (drawn_pool d);
             loading := loading st |} in
      if bsize =? 0 then
        Ok (0, [], st1) (* end of pass; the drawn handles are released *)
      else
        Ok (to_int64 bsize, drawn_data d,
            {| loadThread_ := loadThread_ st1;
               callingContexts_ := callingContexts_ st1;
               dataPool_ := dataPool_ st1;
               poolActualSize_ := poolActualSize_ st1;
               cache_ := cache_drop (cache_ st1) (drawn_data d);
               loading := loading st1 |})
  end.

(** *** The schedule *)

(** One critical section of the loading thread, or one call of the
    consumer. *)
Inductive action : Type :=
| LoadRead (dist : Z)
| LoadPush
| GetNextBatch (size_ : Z) (rand : nat -> Z)
| Reset (generators : list (list Sample)).

(** What an action lets the outside see. *)
Inductive event : Type :=
| Pulled (data : Sample)
| Exhausted
| Pushed (data : Sample)
| Batch (size_ : Z) (result : Z) (samples : deque Sample)
| Restarted (threadStarted : bool).

Definition outcome_to_option {A : Type} (o : outcome A) : option A :=
  match o with Ok a => Some a | _ => None end.

(** [step st a] is [None] when [a] cannot happen in [st]: the thread that
    would do it does not exist or waits on its condition variable, or the
    process aborts.  A call of the consumer is followed through the pool
    and the cache, and its batch is given by the samples drawn. *)
Definition step (st : PyDataProvider2) (a : action)
  : option (PyDataProvider2 * event) :=
  match a with
  | LoadRead dist =>
      let len := Z.of_nat (length (callingContexts_ st)) in
      match loading st with
      | None =>
          if loadThread_ st && negb (len =? 0)
             && (skipShuffle_ cfg || ((0 <=? dist) && (dist <=? len - 1)))
          then
            match outcome_to_option (loadThread_read dist st) with
            | Some st' =>
                Some (st', match loading st' with
                           | Some data => Pulled data
                           | None => Exhausted
                           end)
            | None => None
            end
          else None
      | Some _ => None
      end
  | LoadPush =>
      match loading st with
      | Some data =>
          if loadThread_ st
             && pushReady (poolActualSize_ st) (batchSizeOf data)
          then Some (loadThread_push data st, Pushed data)
          else None
      | None => None
      end
  | GetNextBatch size_ rand =>
      if negb (loadThread_ st) || pullReady (to_size_t size_) st then
        match outcome_to_option (getNextBatchInternal_pool rand size_ st) with
        | Some (result, samples, st') => Some (st', Batch size_ result samples)
        | None => None
        end
      else None
  | Reset generators =>
      (* join returns only if the thread is not stuck in pushCV_.wait *)
      let joinable :=
        match loading st with
        | Some data => pushReady (poolActualSize_ st) (batchSizeOf data)
        | None => true
        end in
      if negb (loadThread_ st) || joinable then
        match outcome_to_option (resetImpl true generators st) with
        | Some st' => Some (st', Restarted (loadThread_ st'))
        | None => None
        end
      else None
  end.

(** A schedule run from [st], with the events in order. *)
Fixpoint run (st : PyDataProvider2) (sched : list action)
  : option (PyDataProvider2 * list event) :=
  match sched with
  | [] => Some (st, [])
  | a :: sched' =>
      match step st a with
      | Some (st', e) =>
          match run st' sched' with
          | Some (st'', es) => Some (st'', e :: es)
          | None => None
          end
      | None => None
      end
  end.

(** *** Reading a list of events *)

(** The weight the drawing loop accumulates over samples, from [bsize]. *)
Definition accumulate (bsize : Z) (l : list Sample) : Z :=
  fold_left (fun b s => size_add b (batchSizeOf s)) l bsize.

(** The sum of the weights, as an integer. *)
Definition totalWeight (l : list Sample) : Z :=
  fold_right (fun s acc => batchSizeOf s + acc) 0 l.

Definition batches (es : list event) : list (deque Sample) :=
  flat_map (fun e => match e with Batch _ _ b => [b] | _ => [] end) es.

Definition requests (es : list event) : list Z :=
  flat_map (fun e => match e with Batch n _ _ => [n] | _ => [] end) es.

Definition pushes (es : list event) : list Sample :=
  flat_map (fun e => match e with Pushed s => [s] | _ => [] end) es.

Definition pulls (es : list event) : list Sample :=
  flat_map (fun e => match e with Pulled s => [s] | _ => [] end) es.

Definition sampleCount (es : list event) : nat :=
  length (concat (batches es)).

(** *** Invariants of the schedule *)

Definition optList (o : option Sample) : list Sample :=
  match o with Some s => [s] | None => [] end.

(** The replay and the collected buffer of the cache. *)
Definition cachePools (c : IPyDataProviderCache Sample)
  : deque Sample * deque Sample :=
  match c with
  | NoCacheStrategy => ([], [])
  | CacheOnePassInMemory o d => (o, d)
  end.

(** The samples still to be delivered in this pass, in the order in which
    an unshuffled provider delivers them. *)
Definition stream (st : PyDataProvider2) (l : list Sample) : list Sample :=
  l ++ optList (loading st) ++ concat (callingContexts_ st).

(** What holds of the provider between two actions: every handle it holds
    is non-null, [poolActualSize_] is the weight of the data pool, the
    weights held do not add up to an overflow, the loading thread holds a
    sample only while a generator is left, and the cache's replay buffer is
    empty whenever a thread loads. *)
Definition Inv (st : PyDataProvider2) : Prop :=
  exists l lo ld,
    dataPool_ st = map Some l
    /\ cachePools (cache_ st) = (map Some lo, map Some ld)
    /\ poolActualSize_ st = totalWeight l
    /\ totalWeight (stream st l) + totalWeight lo + totalWeight ld < SIZE_MOD
    /\ (loading st <> None ->
        callingContexts_ st <> [] /\ loadThread_ st = true)
    /\ (loadThread_ st = false -> callingContexts_ st = [] /\ l = [])
    /\ (loadThread_ st = true -> lo = []).

(** No generator of the schedule yields weights that overflow. *)
Definition boundedAction (a : action) : Prop :=
  match a with
  | Reset generators => totalWeight (concat generators) < SIZE_MOD
  | _ => True
  end.

Definition boundedSchedule (sched : list action) : Prop :=
  Forall boundedAction sched.

(** The schedule stays within one pass. *)
Definition noReset (sched : list action) : Prop :=
  Forall (fun a => match a with Reset _ => False | _ => True end) sched.

(** What the drawing loop takes from the front of [l] when shuffling is
    off, what it leaves and the weight it has accumulated. *)
Fixpoint fifo_take (size : Z) (bsize : Z) (l : list Sample)
  : list Sample * list Sample * Z :=
  match l with
  | [] => ([], [], bsize)
  | s :: l' =>
      if bsize <? size then
        let '(taken, rest, b) := fifo_take size (size_add bsize (batchSizeOf s)) l' in
        (s :: taken, rest, b)
      else ([], l, bsize)
  end.

(** The [Batch] events of successive calls of [getNextBatchInternal] with
    the sizes [sizes] when all of [l] sits in the pool from the start and
    shuffling is off. *)
Fixpoint serialEvents (sizes : list Z) (l : list Sample) : list event :=
  match sizes with
  | [] => []
  | size_ :: sizes' =>
      let '(taken, rest, b) := fifo_take (to_size_t size_) 0 l in
      Batch size_ (if b =? 0 then 0 else to_int64 b)
        (if b =? 0 then [] else map Some taken)
      :: serialEvents sizes' rest
  end.

(** What is left of [l] after these calls. *)
Fixpoint serialRest (sizes : list Z) (l : list Sample) : list Sample :=
  match sizes with
  | [] => l
  | size_ :: sizes' =>
      let '(_, rest, _) := fifo_take (to_size_t size_) 0 l in
      serialRest sizes' rest
  end.

Definition batchEvents (es : list event) : list event :=
  filter (fun e => match e with Batch _ _ _ => true | _ => false end) es.

(** The weight of the last push of a list of events, [prev] if none. *)
Definition lastPush (prev : option Sample) (es : list event) : option Sample :=
  fold_left (fun p e => match e with Pushed s => Some s | _ => p end) es prev.

End Provider.

Arguments Config Sample : clear implicits.
Arguments PyDataProvider2 Sample : clear implicits.
Arguments Drawn Sample : clear implicits.
Arguments action Sample : clear implicits.
Arguments event Sample : clear implicits.

(** ** Field scanners *)

Section Scanner.

Context {double real : Type}.

(** What [py::castInt<int>] gives for a Python integer that does not fit
    an [int]: PythonUtil.h is not part of the sources, so this value is
    left open. *)
Variable castInt_wide : Z -> Z.

(** The conversions [(real) x] of a double and of a Python integer to a
    double, and what freshly allocated cells hold. *)
Variable to_real : double -> real.
Variable int_to_double : Z -> double.
Variable junk_real : real.
Variable junk_int : Z.

(** A Python object as the scanners look at it. *)
#[warnings="-register-all"]
Inductive PyObject : Type :=
| PyInt (z : Z)
| PyFloat (d : double)
| PySeq (items : list PyObject).

(** Modelled from the spec: [py::SequenceHelper] of paddle/utils/PythonUtil.h,
    which is not part of the sources.  Its constructor checks that the
    object is a sequence; [size()] and [operator[]] are then those of the
    list of items.  A sample element that is not of the expected kind is
    fatal. *)
Definition SequenceHelper (obj : PyObject) : outcome (list PyObject) :=
  match obj with
  | PySeq items => Ok items
  | _ => Fatal
  end.

Definition size (s : list PyObject) : Z := to_size_t (Z.of_nat (length s)).

(** Whether a Python integer fits an [int]. *)
Definition fits_int (z : Z) : bool := (- 2 ^ 31 <=? z) && (z <? 2 ^ 31).

(** Modelled from the spec: the value [py::castInt<int>] returns for the
    Python integer [z]: [z] itself when it fits an [int], and a value that
    the sources do not settle otherwise. *)
Definition castInt_value (z : Z) : Z :=
  if fits_int z then z else castInt_wide z.

(** Modelled from the spec: [py::castInt<int>(obj, &ok)] of PythonUtil.h:
    [ok] tells whether [obj] is integral, the only thing the callers
    check; the value is [castInt_value]. *)
Definition castInt (obj : PyObject) : Z * bool :=
  match obj with
  | PyInt z => (castInt_value z, true)
  | _ => (0, false)
  end.

(** Modelled from the spec: [SequenceHelper::getDouble(i)] of PythonUtil.h:
    item [i] as a double; an item that is not a number is fatal. *)
Definition getDouble (s : list PyObject) (i : Z) : outcome double :=
  item <- read_at s i ;;
  match item with
  | PyFloat d => Ok d
  | PyInt z => Ok (int_to_double z)
  | PySeq _ => Fatal
  end.

(** enum SlotType and enum SeqType; a header holds the integers read from
    the Python object, which need not be one of these. *)
Definition ST_DENSE : Z := 0.
Definition ST_NON_SPARSE_VALUE : Z := 1.
Definition ST_SPARSE_VALUE : Z := 2.
Definition ST_INDEX : Z := 3.

Definition SQT_NONE : Z := 0.
Definition SQT_SEQ : Z := 1.
Definition SQT_SUBSEQ : Z := 2.

Record SlotHeader : Type := {
  dim : Z;
  slotType : Z;
  seqType : Z;
}.

(** Modelled from the spec: the storage the scanners allocate and write,
    declared outside the sources.  A dense matrix is [height * width]
    cells; a sparse one has [height + 1] row offsets, [nnz] column indices
    and, with values, [nnz] values; an integer vector is its cells. *)
Inductive Matrix : Type :=
| CpuMatrix (height width : Z) (data : list real)
| CpuSparseMatrix (height width : Z) (rows cols : list Z)
    (values : option (list real)).

Record Argument : Type := {
  value : option Matrix;
  ids : option (list Z);
  sequenceStartPositions : option (list Z);
  subSequenceStartPositions : option (list Z);
}.

Definition Argument_new : Argument :=
  {| value := None; ids := None;
     sequenceStartPositions := None; subSequenceStartPositions := None |}.

Definition alloc {A : Type} (junk : A) (n : Z) : list A := repeat junk (Z.to_nat n).

(** Modelled from the spec: [Matrix::resizeOrCreate(value, height, width)]. *)
Definition Matrix_resizeOrCreate (height width : Z) : Matrix :=
  CpuMatrix height width (alloc junk_real (height * width)).

(** Modelled from the spec: [Matrix::resizeOrCreateSparseMatrix(value,
    height, width, nnz, valueType)], [withValue] for [FLOAT_VALUE]. *)
Definition Matrix_resizeOrCreateSparseMatrix (height width nnz : Z)
  (withValue : bool) : Matrix :=
  CpuSparseMatrix height width (alloc junk_int (height + 1)) (alloc junk_int nnz)
    (if withValue then Some (alloc junk_real nnz) else None).

(** Modelled from the spec: [IVector::resizeOrCreate] and
    [ICpuGpuVector::resizeOrCreate]. *)
Definition IVector_resizeOrCreate (n : Z) : list Z := alloc junk_int n.

(** The two callbacks [getSeqStartPos] that [create] passes. *)
Inductive SeqStartPos : Type :=
| SequenceStartPositions
| SubSequenceStartPositions.

Definition getSeqStartPos (sel : SeqStartPos) (arg : Argument) : option (list Z) :=
  match sel with
  | SequenceStartPositions => sequenceStartPositions arg
  | SubSequenceStartPositions => subSequenceStartPositions arg
  end.

Definition setSeqStartPos (sel : SeqStartPos) (arg : Argument) (v : list Z)
  : Argument :=
  match sel with
  | SequenceStartPositions =>
      {| value := value arg; ids := ids arg;
         sequenceStartPositions := Some v;
         subSequenceStartPositions := subSequenceStartPositions arg |}
  | SubSequenceStartPositions =>
      {| value := value arg; ids := ids arg;
         sequenceStartPositions := sequenceStartPositions arg;
         subSequenceStartPositions := Some v |}
  end.

Definition setValue (arg : Argument) (m : Matrix) : Argument :=
  {| value := Some m; ids := ids arg;
     sequenceStartPositions := sequenceStartPositions arg;
     subSequenceStartPositions := subSequenceStartPositions arg |}.

Definition setIds (arg : Argument) (v : list Z) : Argument :=
  {| value := value arg; ids := Some v;
     sequenceStartPositions := sequenceStartPositions arg;
     subSequenceStartPositions := subSequenceStartPositions arg |}.

(** The classes that implement [IFieldScanner], each with the members it
    never changes... *)
Inductive IFieldScanner : Type :=
| DenseScanner (headerPtr_ : SlotHeader)
| IndexScanner (headerPtr_ : SlotHeader)
| SparseNonValueScanner (headerPtr_ : SlotHeader)
| SparseValueScanner (headerPtr_ : SlotHeader)
| SequenceScanner (inner_ : IFieldScanner) (getSeqStartPos_ : SeqStartPos).

(** ... and the members it counts with. *)
Inductive Counters : Type :=
| DenseCounters (height_ : Z)
| IndexCounters (cnt_ : Z)
| SparseCounters (nnz_ height_ : Z)
| SequenceCounters (cnt_ : Z) (inner : Counters).

(** The counters as the constructors set them. *)
Fixpoint Counters_new (sc : IFieldScanner) : Counters :=
  match sc with
  | DenseScanner _ => DenseCounters 0
  | IndexScanner _ => IndexCounters 0
  | SparseNonValueScanner _ | SparseValueScanner _ => SparseCounters 0 0
  | SequenceScanner inner_ _ => SequenceCounters 0 (Counters_new inner_)
  end.

(** [IFieldScanner::create] *)
Definition IFieldScanner_create (header : SlotHeader) : outcome IFieldScanner :=
  retv <- (if slotType header =? ST_DENSE then Ok (DenseScanner header)
           else if slotType header =? ST_INDEX then Ok (IndexScanner header)
           else if slotType header =? ST_NON_SPARSE_VALUE
                then Ok (SparseNonValueScanner header)
           else if slotType header =? ST_SPARSE_VALUE
                then Ok (SparseValueScanner header)
           else Fatal) ;;
  if seqType header =? SQT_NONE then Ok retv
  else if seqType header =? SQT_SUBSEQ then
    (* falls through to the case of SQT_SEQ *)
    Ok (SequenceScanner (SequenceScanner retv SubSequenceStartPositions)
          SequenceStartPositions)
  else if seqType header =? SQT_SEQ then
    Ok (SequenceScanner retv SequenceStartPositions)
  else Fatal.

(** A loop over the items of a sequence, threading what the body updates. *)
Fixpoint for_each {A S : Type} (l : list A) (body : S -> A -> outcome S) (s : S)
  : outcome S :=
  match l with
  | [] => Ok s
  | x :: l' => s' <- body s x ;; for_each l' body s'
  end.

(** [startPrepare] *)
Fixpoint startPrepare (sc : IFieldScanner) (c : Counters) (argument : Argument)
  : outcome (Counters * Argument) :=
  match sc, c with
  | SequenceScanner inner_ _, SequenceCounters cnt_ ci =>
      '(ci', argument') <- startPrepare inner_ ci argument ;;
      Ok (SequenceCounters cnt_ ci', argument')
  | _, _ => Ok (c, argument)
  end.

(** [prepare] *)
Fixpoint prepare (sc : IFieldScanner) (c : Counters) (argument : Argument)
  (obj : PyObject) : outcome (Counters * Argument) :=
  match sc, c with
  | DenseScanner _, DenseCounters height_ =>
      Ok (DenseCounters (size_add height_ 1), argument)
  | IndexScanner _, IndexCounters cnt_ =>
      Ok (IndexCounters (size_add cnt_ 1), argument)
  | SparseNonValueScanner _, SparseCounters nnz_ height_
  | SparseValueScanner _, SparseCounters nnz_ height_ =>
      s <- SequenceHelper obj ;;
      Ok (SparseCounters (size_add nnz_ (size s)) (size_add height_ 1), argument)
  | SequenceScanner inner_ _, SequenceCounters cnt_ ci =>
      s <- SequenceHelper obj ;;
      '(ci', argument') <-
        for_each s (fun '(ci, a) item => prepare inner_ ci a item) (ci, argument) ;;
      Ok (SequenceCounters (size_add cnt_ 1) ci', argument')
  | _, _ => Fatal
  end.

(** [finishPrepare] *)
Fixpoint finishPrepare (sc : IFieldScanner) (c : Counters) (argument : Argument)
  : outcome (Counters * Argument) :=
  match sc, c with
  | DenseScanner headerPtr_, DenseCounters height_ =>
      Ok (DenseCounters 0,
          setValue argument (Matrix_resizeOrCreate height_ (dim headerPtr_)))
  | IndexScanner _, IndexCounters cnt_ =>
      Ok (IndexCounters 0, setIds argument (IVector_resizeOrCreate cnt_))
  | SparseNonValueScanner headerPtr_, SparseCounters nnz_ height_ =>
      Ok (c, setValue argument
               (Matrix_resizeOrCreateSparseMatrix height_ (dim headerPtr_) nnz_ false))
  | SparseValueScanner headerPtr_, SparseCounters nnz_ height_ =>
      Ok (c, setValue argument
               (Matrix_resizeOrCreateSparseMatrix height_ (dim headerPtr_) nnz_ true))
  | SequenceScanner inner_ getSeqStartPos_, SequenceCounters cnt_ ci =>
      let argument1 :=
        setSeqStartPos getSeqStartPos_ argument
          (IVector_resizeOrCreate (size_add cnt_ 1)) in
      '(ci', argument2) <- finishPrepare inner_ ci argument1 ;;
      Ok (SequenceCounters cnt_ ci', argument2)
  | _, _ => Fatal
  end.

(** [startFill] *)
Fixpoint startFill (sc : IFieldScanner) (c : Counters) (argument : Argument)
  : outcome (Counters * Argument) :=
  match sc, c with
  | SparseNonValueScanner _, SparseCounters _ _
  | SparseValueScanner _, SparseCounters _ _ =>
      match value argument with
      | Some (CpuSparseMatrix h w rows cols values) =>
          rows' <- write_at rows 0 0 ;;
          Ok (SparseCounters 0 1,
              setValue argument (CpuSparseMatrix h w rows' cols values))
      | _ => Fatal
      end
  | SequenceScanner inner_ getSeqStartPos_, SequenceCounters _ ci =>
      match getSeqStartPos getSeqStartPos_ argument with
      | Some pos =>
          pos' <- write_at pos 0 0 ;;
          '(ci', argument') <-
            startFill inner_ ci (setSeqStartPos getSeqStartPos_ argument pos') ;;
          Ok (SequenceCounters 1 ci', argument')
      | None => Fatal
      end
  | _, _ => Ok (c, argument)
  end.

(** The loop of [DenseScanner::fill]: [dat[i] = (real) s.getDouble(i)] for
    [n] values of [i], [dat] being [base] cells into [data]. *)
Fixpoint DenseScanner_copy (n : nat) (i : Z) (base : Z) (s : list PyObject)
  (data : list real) : outcome (list real) :=
  match n with
  | O => Ok data
  | S n' =>
      d <- getDouble s i ;;
      data' <- write_at data (base + i) (to_real d) ;;
      DenseScanner_copy n' (i + 1) base s data'
  end.

(** [SparseNonValueScanner::setData] and its override in
    [SparseValueScanner], writing at [col + nnz_] and [dat + nnz_]. *)
Definition SparseNonValueScanner_setData (nnz_ : Z) (cols : list Z)
  (obj : PyObject) : outcome (list Z) :=
  let '(v, ok) := castInt obj in
  cols' <- write_at cols nnz_ v ;;
  if (ok : bool) then Ok cols' else Fatal.

Definition setData (withValue : bool) (nnz_ : Z) (cols : list Z)
  (values : option (list real)) (obj : PyObject)
  : outcome (list Z * option (list real)) :=
  if withValue then
    s <- SequenceHelper obj ;;
    item <- read_at s 0 ;;
    cols' <- SparseNonValueScanner_setData nnz_ cols item ;;
    d <- getDouble s 1 ;;
    match values with
    | Some dat => dat' <- write_at dat nnz_ (to_real d) ;; Ok (cols', Some dat')
    | None => OutOfRange
    end
  else
    cols' <- SparseNonValueScanner_setData nnz_ cols obj ;;
    Ok (cols', values).

(** [SparseNonValueScanner::fill], shared by both sparse scanners. *)
Definition SparseNonValueScanner_fill (withValue : bool) (nnz_ height_ : Z)
  (argument : Argument) (obj : PyObject) : outcome (Counters * Argument) :=
  s <- SequenceHelper obj ;;
  let sz := size s in
  match value argument with
  | Some (CpuSparseMatrix h w rows cols values) =>
      prev <- read_at rows (size_sub height_ 1) ;;
      rows' <- write_at rows height_ (int_add prev (to_int sz)) ;;
      '(nnz', cols', values') <-
        for_each s
          (fun '(n, cs, vs) item =>
             '(cs', vs') <- setData withValue n cs vs item ;;
             Ok (size_add n 1, cs', vs'))
          (nnz_, cols, values) ;;
      Ok (SparseCounters nnz' (size_add height_ 1),
          setValue argument (CpuSparseMatrix h w rows' cols' values'))
  | _ => Fatal
  end.

(** [SequenceScanner::getSize]; the dynamic cast succeeds when the inner
    scanner is itself a [SequenceScanner]. *)
Fixpoint getSize (inner_ : IFieldScanner) (obj : PyObject) : outcome Z :=
  s <- SequenceHelper obj ;;
  match inner_ with
  | SequenceScanner inner2 _ =>
      for_each s (fun sum item => n <- getSize inner2 item ;; Ok (size_add sum n)) 0
  | _ => Ok (size s)
  end.

(** [fill] *)
Fixpoint fill (sc : IFieldScanner) (c : Counters) (argument : Argument)
  (obj : PyObject) : outcome (Counters * Argument) :=
  match sc, c with
  | DenseScanner headerPtr_, DenseCounters height_ =>
      match value argument with
      | Some (CpuMatrix h w data) =>
          s <- SequenceHelper obj ;;
          data' <- DenseScanner_copy (Z.to_nat (dim headerPtr_)) 0
                     (to_size_t (height_ * dim headerPtr_)) s data ;;
          Ok (DenseCounters (size_add height_ 1),
              setValue argument (CpuMatrix h w data'))
      | _ => Fatal
      end
  | IndexScanner _, IndexCounters cnt_ =>
      match ids argument with
      | Some v =>
          let '(x, ok) := castInt obj in
          v' <- write_at v cnt_ x ;;
          if (ok : bool)
          then Ok (IndexCounters (size_add cnt_ 1), setIds argument v')
          else Fatal
      | None => Fatal
      end
  | SparseNonValueScanner _, SparseCounters nnz_ height_ =>
      SparseNonValueScanner_fill false nnz_ height_ argument obj
  | SparseValueScanner _, SparseCounters nnz_ height_ =>
      SparseNonValueScanner_fill true nnz_ height_ argument obj
  | SequenceScanner inner_ getSeqStartPos_, SequenceCounters cnt_ ci =>
      match getSeqStartPos getSeqStartPos_ argument with
      | Some pos =>
          prev <- read_at pos (size_sub cnt_ 1) ;;
          n <- getSize inner_ obj ;;
          pos' <- write_at pos cnt_ (int_add prev (to_int n)) ;;
          s <- SequenceHelper obj ;;
          '(ci', argument') <-
            for_each s (fun '(ci, a) item => fill inner_ ci a item)
              (ci, setSeqStartPos getSeqStartPos_ argument pos') ;;
          Ok (SequenceCounters (size_add cnt_ 1) ci', argument')
      | None => Fatal
      end
  | _, _ => Fatal
  end.

(** [finishFill] *)
Fixpoint finishFill (sc : IFieldScanner) (c : Counters) (argument : Argument)
  : outcome (Counters * Argument) :=
  match sc, c with
  | SequenceScanner inner_ _, SequenceCounters cnt_ ci =>
      '(ci', argument') <- finishFill inner_ ci argument ;;
      Ok (SequenceCounters cnt_ ci', argument')
  | _, _ => Ok (c, argument)
  end.

(** What [getNextBatchInternal] does to one slot: the scanner created from
    the slot's header is taken through the prepare phase and then the fill
    phase over [objs], the slot's field of each sample of the batch in
    order.  The scanner and the argument of a slot are touched by no other
    slot's calls. *)
Definition scanSlot (header : SlotHeader) (objs : list PyObject)
  : outcome Argument :=
  sc <- IFieldScanner_create header ;;
  '(c, a) <- startPrepare sc (Counters_new sc) Argument_new ;;
  '(c, a) <- for_each objs (fun '(c, a) obj => prepare sc c a obj) (c, a) ;;
  '(c, a) <- finishPrepare sc c a ;;
  '(c, a) <- startFill sc c a ;;
  '(c, a) <- for_each objs (fun '(c, a) obj => fill sc c a obj) (c, a) ;;
  '(_, a) <- finishFill sc c a ;;
  Ok a.



(** *** Reading samples and arguments *)

(** The number of items of a sample that is a sequence. *)
Definition itemsOf (obj : PyObject) : list PyObject :=
  match obj with PySeq items => items | _ => [] end.

Definition elemCount (obj : PyObject) : Z := Z.of_nat (length (itemsOf obj)).

(** The running sums of [counts], from [start]. *)
Fixpoint offsetsFrom (start : Z) (counts : list Z) : list Z :=
  match counts with
  | [] => []
  | c :: counts' => (start + c) :: offsetsFrom (start + c) counts'
  end.

Fixpoint sumZ (l : list Z) : Z :=
  match l with [] => 0 | x :: l' => x + sumZ l' end.

(** The column index a sparse scanner stores for one item. *)
Definition colOf (withValue : bool) (item : PyObject) : Z :=
  if withValue then
    match item with
    | PySeq (PyInt z :: _) => castInt_value z
    | _ => 0
    end
  else
    match item with
    | PyInt z => castInt_value z
    | _ => 0
    end.

(** The value a sparse scanner with values stores for one item. *)
Definition valOf (item : PyObject) : real :=
  match item with
  | PySeq (_ :: PyFloat d :: _) => to_real d
  | PySeq (_ :: PyInt z :: _) => to_real (int_to_double z)
  | _ => junk_real
  end.

(** An item a sparse scanner accepts: an integer, or with values a pair
    of an integer and a number. *)
Definition sparseItemOk (withValue : bool) (item : PyObject) : bool :=
  if withValue then
    match item with
    | PySeq (PyInt _ :: PyFloat _ :: _) => true
    | PySeq (PyInt _ :: PyInt _ :: _) => true
    | _ => false
    end
  else
    match item with
    | PyInt _ => true
    | _ => false
    end.

(** A sample a sparse scanner accepts: a sequence of such items. *)
Definition sparseSampleOk (withValue : bool) (obj : PyObject) : bool :=
  match obj with
  | PySeq items => forallb (sparseItemOk withValue) items
  | _ => false
  end.

(** The number of inner elements of one sample of a sequence slot: its
    items, or with sub-sequences the items of its items. *)
Fixpoint innerCount (inner_ : IFieldScanner) (obj : PyObject) : Z :=
  match inner_ with
  | SequenceScanner inner2 _ =>
      sumZ (map (innerCount inner2) (itemsOf obj))
  | _ => elemCount obj
  end.

(** The scanner [create] makes for a sparse slot that is not a sequence. *)
Definition sparseScanner (withValue : bool) (header : SlotHeader) : IFieldScanner :=
  if withValue then SparseValueScanner header else SparseNonValueScanner header.

(** All the items of the samples, in order. *)
Definition allItems (objs : list PyObject) : list PyObject :=
  flat_map itemsOf objs.

(** The value array of a sparse matrix, absent without values. *)
Definition sparseValues (withValue : bool) (v : list real) : option (list real) :=
  if withValue then Some v else None.


(** The sequence scanners inside [sc] leave the array [sel] alone. *)
Fixpoint notUses (sel : SeqStartPos) (sc : IFieldScanner) : Prop :=
  match sc with
  | SequenceScanner inner_ sel' => sel' <> sel /\ notUses sel inner_
  | _ => True
  end.

(** *** What a slot is encoded to *)

Definition isNumber (obj : PyObject) : bool :=
  match obj with PySeq _ => false | _ => true end.

(** The cell a dense scanner stores for one item. *)
Definition numberOf (obj : PyObject) : real :=
  match obj with
  | PyFloat d => to_real d
  | PyInt z => to_real (int_to_double z)
  | PySeq _ => junk_real
  end.

(** The row a dense scanner stores for one sample: its first [n] items. *)
Definition denseRow (n : nat) (obj : PyObject) : list real :=
  map numberOf (firstn n (itemsOf obj)).

(** A sample a dense scanner of dimension [n] accepts: a sequence whose
    first [n] items are numbers. *)
Definition denseSampleOk (n : nat) (obj : PyObject) : bool :=
  match obj with
  | PySeq items => (n <=? length items)%nat && forallb isNumber (firstn n items)
  | _ => false
  end.

(** The samples a scanner accepts. *)
Fixpoint wellFormed (sc : IFieldScanner) (obj : PyObject) : Prop :=
  match sc with
  | DenseScanner h => denseSampleOk (Z.to_nat (dim h)) obj = true
  | IndexScanner _ => exists z, obj = PyInt z
  | SparseNonValueScanner _ => sparseSampleOk false obj = true
  | SparseValueScanner _ => sparseSampleOk true obj = true
  | SequenceScanner inner_ _ =>
      exists items, obj = PySeq items /\ Forall (wellFormed inner_) items
  end.

(** The sizes that fit the integers the scanner counts with: [size_t] for
    its counters and the cells of a dense matrix, [int] for offsets. *)
Fixpoint inRange (sc : IFieldScanner) (objs : list PyObject) : Prop :=
  match sc with
  | DenseScanner h =>
      0 <= dim h
      /\ (Z.of_nat (length objs) + 1) * (dim h + 1) < SIZE_MOD
  | IndexScanner _ => Z.of_nat (length objs) + 1 < SIZE_MOD
  | SparseNonValueScanner _ | SparseValueScanner _ =>
      sumZ (map elemCount objs) < 2 ^ 31
      /\ Z.of_nat (length objs) + 1 < SIZE_MOD
  | SequenceScanner inner_ _ =>
      sumZ (map (innerCount inner_) objs) < 2 ^ 31
      /\ Z.of_nat (length objs) + 1 < SIZE_MOD
      /\ inRange inner_ (allItems objs)
  end.

(** No two sequence scanners of [sc] write the same array. *)
Fixpoint wellNested (sc : IFieldScanner) : Prop :=
  match sc with
  | SequenceScanner inner_ sel => notUses sel inner_ /\ wellNested inner_
  | _ => True
  end.

(** The scanner of a slot that is not a sequence. *)
Definition flat (sc : IFieldScanner) : Prop :=
  match sc with SequenceScanner _ _ => False | _ => True end.

Definition sparseMatrixOf (withValue : bool) (h : SlotHeader)
  (p q : list PyObject) : Matrix :=
  CpuSparseMatrix (Z.of_nat (length (p ++ q))) (dim h)
    ((0 :: offsetsFrom 0 (map elemCount p)) ++ repeat junk_int (length q))
    (map (colOf withValue) (allItems p)
       ++ repeat junk_int (Z.to_nat (sumZ (map elemCount q))))
    (sparseValues withValue
       (map valOf (allItems p)
          ++ repeat junk_real (Z.to_nat (sumZ (map elemCount q))))).

(** The counters after the samples [p] have been prepared. *)
Fixpoint cPrep (sc : IFieldScanner) (p : list PyObject) : Counters :=
  match sc with
  | DenseScanner _ => DenseCounters (Z.of_nat (length p))
  | IndexScanner _ => IndexCounters (Z.of_nat (length p))
  | SparseNonValueScanner _ | SparseValueScanner _ =>
      SparseCounters (sumZ (map elemCount p)) (Z.of_nat (length p))
  | SequenceScanner inner_ _ =>
      SequenceCounters (Z.of_nat (length p)) (cPrep inner_ (allItems p))
  end.

(** The counters and the argument after [finishPrepare], the samples
    [objs] having been prepared. *)
Fixpoint cAlloc (sc : IFieldScanner) (objs : list PyObject) : Counters :=
  match sc with
  | DenseScanner _ => DenseCounters 0
  | IndexScanner _ => IndexCounters 0
  | SparseNonValueScanner _ | SparseValueScanner _ =>
      SparseCounters (sumZ (map elemCount objs)) (Z.of_nat (length objs))
  | SequenceScanner inner_ _ =>
      SequenceCounters (Z.of_nat (length objs)) (cAlloc inner_ (allItems objs))
  end.

Fixpoint aAlloc (sc : IFieldScanner) (objs : list PyObject) (a : Argument)
  : Argument :=
  match sc with
  | DenseScanner h =>
      setValue a (Matrix_resizeOrCreate (Z.of_nat (length objs)) (dim h))
  | IndexScanner _ =>
      setIds a (IVector_resizeOrCreate (Z.of_nat (length objs)))
  | SparseNonValueScanner h =>
      setValue a (Matrix_resizeOrCreateSparseMatrix (Z.of_nat (length objs))
                    (dim h) (sumZ (map elemCount objs)) false)
  | SparseValueScanner h =>
      setValue a (Matrix_resizeOrCreateSparseMatrix (Z.of_nat (length objs))
                    (dim h) (sumZ (map elemCount objs)) true)
  | SequenceScanner inner_ sel =>
      aAlloc inner_ (allItems objs)
        (setSeqStartPos sel a
           (IVector_resizeOrCreate (Z.of_nat (length objs) + 1)))
  end.

(** The counters and the argument in the fill phase, the samples [p]
    having been filled in and the samples [q] being still to come. *)
Fixpoint cFill (sc : IFieldScanner) (p : list PyObject) : Counters :=
  match sc with
  | DenseScanner _ => DenseCounters (Z.of_nat (length p))
  | IndexScanner _ => IndexCounters (Z.of_nat (length p))
  | SparseNonValueScanner _ | SparseValueScanner _ =>
      SparseCounters (sumZ (map elemCount p)) (Z.of_nat (length p) + 1)
  | SequenceScanner inner_ _ =>
      SequenceCounters (Z.of_nat (length p) + 1) (cFill inner_ (allItems p))
  end.

Fixpoint aFill (sc : IFieldScanner) (p q : list PyObject) (a : Argument)
  : Argument :=
  match sc with
  | DenseScanner h =>
      setValue a
        (CpuMatrix (Z.of_nat (length (p ++ q))) (dim h)
           (flat_map (denseRow (Z.to_nat (dim h))) p
              ++ repeat junk_real (length q * Z.to_nat (dim h))))
  | IndexScanner _ =>
      setIds a (map (fun obj => fst (castInt obj)) p
                  ++ repeat junk_int (length q))
  | SparseNonValueScanner h => setValue a (sparseMatrixOf false h p q)
  | SparseValueScanner h => setValue a (sparseMatrixOf true h p q)
  | SequenceScanner inner_ sel =>
      aFill inner_ (allItems p) (allItems q)
        (setSeqStartPos sel a
           ((0 :: offsetsFrom 0 (map (innerCount inner_) p))
              ++ repeat junk_int (length q)))
  end.

(** The argument a slot is encoded to. *)
Definition encoded (sc : IFieldScanner) (objs : list PyObject) : Argument :=
  aFill sc objs [] Argument_new.

(** *** Filling the batch *)

(** [scanners[i]] with its counters, and [inArgs[i]]. *)
Definition Slot : Type := (IFieldScanner * Counters * Argument)%type.

(** [for (auto& header : headers_)
       scanners.emplace_back(IFieldScanner::create(&header))] *)
Fixpoint createScanners (headers_ : list SlotHeader)
  : outcome (list IFieldScanner) :=
  match headers_ with
  | [] => Ok []
  | header :: rest =>
      sc <- IFieldScanner_create header ;;
      scanners <- createScanners rest ;;
      Ok (sc :: scanners)
  end.

(** [for (size_t i = 0; i < headers_.size(); ++i)], [body i] being what is
    done with [scanners[i]] and [inArgs[i]]. *)
Fixpoint for_slots
  (body : nat -> IFieldScanner -> Counters -> Argument
          -> outcome (Counters * Argument))
  (i : nat) (slots : list Slot) : outcome (list Slot) :=
  match slots with
  | [] => Ok []
  | (sc, c, a) :: rest =>
      '(c', a') <- body i sc c a ;;
      rest' <- for_slots body (S i) rest ;;
      Ok ((sc, c', a') :: rest')
  end.

(** [for (auto& d : data) { py::SequenceHelper s(d);
       for (i ...) scanners[i]->f(inArgs[i], s[i]); }] *)
Definition for_data
  (f : IFieldScanner -> Counters -> Argument -> PyObject
       -> outcome (Counters * Argument))
  (data : list PyObject) (slots : list Slot) : outcome (list Slot) :=
  for_each data
    (fun slots d =>
       s <- SequenceHelper d ;;
       for_slots (fun i sc c a =>
                    obj <- read_at s (Z.of_nat i) ;; f sc c a obj)
         0 slots)
    slots.

(** The part of [getNextBatchInternal] that fills [cpuBatch] from the
    samples drawn: the arguments [inArgs], one per header. *)
Definition getNextBatchInternal_cpuBatch (headers_ : list SlotHeader)
  (data : list PyObject) : outcome (list Argument) :=
  scanners <- createScanners headers_ ;;
  let inArgs := map (fun sc => (sc, Counters_new sc, Argument_new)) scanners in
  slots <- for_slots (fun _ => startPrepare) 0 inArgs ;;
  slots <- for_data prepare data slots ;;
  slots <- for_slots (fun _ => finishPrepare) 0 slots ;;
  slots <- for_slots (fun _ => startFill) 0 slots ;;
  slots <- for_data fill data slots ;;
  slots <- for_slots (fun _ => finishFill) 0 slots ;;
  Ok (map (fun slot : Slot => snd slot) slots).

(** The field of slot [i] in each sample. *)
Definition fieldOf (i : nat) (data : list PyObject) : list PyObject :=
  map (fun d => nth i (itemsOf d) (PySeq [])) data.

(** The slots from [i] on scanned one after the other, each over its own
    field of the samples. *)
Fixpoint scanSlots (i : nat) (headers_ : list SlotHeader)
  (data : list PyObject) : outcome (list Argument) :=
  match headers_ with
  | [] => Ok []
  | header :: rest =>
      a <- scanSlot header (fieldOf i data) ;;
      args <- scanSlots (S i) rest data ;;
      Ok (a :: args)
  end.

End Scanner.

Arguments PyObject double : clear implicits.
Arguments Matrix real : clear implicits.
Arguments Argument real : clear implicits.

(** ** The call of the consumer *)

Section Call.

Context {double real : Type}.

Variable castInt_wide : Z -> Z.
Variable to_real : double -> real.
Variable int_to_double : Z -> double.
Variable junk_real : real.
Variable junk_int : Z.

(** The fields of [PyDataProvider2] read by the call. *)
Variable cfg : Config (PyObject double).
Variable headers_ : list SlotHeader.
Variable useGpu_ : bool.

(** Modelled from the spec: [DataBatch], declared outside the sources: the
    size that [setSize] sets and the arguments, one for each slot, that
    [getStreams] gives access to. *)
Record DataBatch : Type := {
  batchSize : Z;
  streams : list (Argument real);
}.

(** What has become of a call: it waits on [pullCV_], or it is over, with
    what it returns or with an abort. *)
Inductive Call (A : Type) : Type :=
| Waits
| Done (o : outcome A).

Arguments Waits {A}.
Arguments Done {A} o.

(** [getNextBatchInternal(size_, batch)] on the provider [st], where
    [batch] is what the caller's [DataBatch] holds: the value returned, the
    caller's batch and the provider after the call.  [rand k] is the value
    of the [k]-th call of [ThreadLocalRand::rand()].  The handles of [data]
    have passed [CHECK(pool[i] != nullptr)], so the samples scanned are what
    they point to.  Modelled from the spec: [Argument::resizeAndCopyFrom],
    declared outside the sources, leaves in the argument of the GPU batch
    the contents of the argument of [cpuBatch]. *)
Definition getNextBatchInternal (rand : nat -> Z) (size_ : Z)
  (batch : DataBatch) (st : PyDataProvider2 (PyObject double))
  : Call (Z * DataBatch * PyDataProvider2 (PyObject double)) :=
  if size_ <? 0 then Done Fatal (* CHECK_GE(size_, 0) *) else
  let size := to_size_t size_ in
  if loadThread_ st && negb (pullReady size st) then
    Waits (* pullCV_.wait *)
  else
  Done
    match poolOf st with
    | None => Fatal (* CHECK(poolPtr != nullptr) *)
    | Some pool =>
        d <- draw_loop cfg rand (length pool) 0 size [] pool 0 ;;
        let data := drawn_data d in
        let bsize := drawn_bsize d in
        let st1 :=
          if loadThread_ st then
            {| loadThread_ := true;
               callingContexts_ := callingContexts_ st;
               dataPool_ := drawn_pool d;
               poolActualSize_ := size_sub (poolActualSize_ st) bsize;
               cache_ := cache_ st;
               loading := loading st |}
          else
            {| loadThread_ := false;
               callingContexts_ := callingContexts_ st;
               dataPool_ := dataPool_ st;
               poolActualSize_ := poolActualSize_ st;
               cache_ := cache_store (cache_ st) (drawn_pool d);
               loading := loading st |} in
        if bsize =? 0 then
          Ok (0, batch, st1) (* end of pass; [batch] is not written *)
        else
          inArgs <- getNextBatchInternal_cpuBatch castInt_wide to_real
                      int_to_double junk_real junk_int headers_
                      (flat_map optList data) ;;
          let cpuBatch := {| batchSize := to_int64 bsize;
                             streams := inArgs |} in
          let batch' :=
            if useGpu_ then
              (* gpuBatch.setSize(size); resizeAndCopyFrom *)
              {| batchSize := to_int64 size; streams := inArgs |}
            else cpuBatch in
          Ok (to_int64 bsize, batch',
              {| loadThread_ := loadThread_ st1;
                 callingContexts_ := callingContexts_ st1;
                 dataPool_ := dataPool_ st1;
                 poolActualSize_ := poolActualSize_ st1;
                 cache_ := cache_drop (cache_ st1) data;
                 loading := loading st1 |})
    end.

End Call.

Arguments DataBatch real : clear implicits.
Arguments Waits {A}.
Arguments Done {A} o.

(** * Properties *)

(** ** The outcome monad and containers *)

Lemma bind_Ok_inv {A B} (m : outcome A) (f : A -> outcome B) b :
  bind m f = Ok b -> exists a, m = Ok a /\ f a = Ok b.
Proof. destruct m; simpl; intros H; try discriminate; eauto. Qed.

Lemma length_list_set {A} (l : list A) i x : length (list_set l i x) = length l.
Proof.
  revert i; induction l as [|h t IH]; intros [|j]; simpl; auto.
Qed.

Lemma nth_error_list_set_eq {A} (l : list A) i x :
  (i < length l)%nat -> nth_error (list_set l i x) i = Some x.
Proof.
  revert i; induction l as [|h t IH]; intros [|j] H; simpl in *; try lia; auto.
  apply IH; lia.
Qed.

Lemma nth_error_list_set_ne {A} (l : list A) i j x :
  i <> j -> nth_error (list_set l i x) j = nth_error l j.
Proof.
  revert i j; induction l as [|h t IH]; intros [|i] [|j] H; simpl; auto;
    try congruence.
Qed.

Lemma list_set_app_l {A} (l1 l2 : list A) i x :
  (i < length l1)%nat -> list_set (l1 ++ l2) i x = list_set l1 i x ++ l2.
Proof.
  revert i; induction l1 as [|h t IH]; intros [|j] H; simpl in *; try lia; auto.
  f_equal; apply IH; lia.
Qed.

Lemma list_set_app_r {A} (l1 l2 : list A) i x :
  (length l1 <= i)%nat ->
  list_set (l1 ++ l2) i x = l1 ++ list_set l2 (i - length l1) x.
Proof.
  revert i; induction l1 as [|h t IH]; intros i H; simpl in *.
  - now rewrite Nat.sub_0_r.
  - destruct i as [|j]; [lia|]. simpl. f_equal. apply IH; lia.
Qed.


Lemma read_at_app_mid {A} (l1 l2 : list A) x :
  read_at (l1 ++ x :: l2) (Z.of_nat (length l1)) = Ok x.
Proof.
  unfold read_at.
  destruct (Z.leb_spec 0 (Z.of_nat (length l1))); [|lia].
  rewrite Nat2Z.id, nth_error_app2, Nat.sub_diag by lia. reflexivity.
Qed.

Lemma write_at_app_mid {A} (l1 l2 : list A) x y :
  write_at (l1 ++ x :: l2) (Z.of_nat (length l1)) y = Ok (l1 ++ y :: l2).
Proof.
  unfold write_at. rewrite length_app. cbn [length].
  destruct (Z.leb_spec 0 (Z.of_nat (length l1))); [|lia].
  destruct (Z.ltb_spec (Z.of_nat (length l1))
              (Z.of_nat (length l1 + S (length l2)))); [|lia].
  cbn [andb]. rewrite Nat2Z.id, list_set_app_r, Nat.sub_diag by lia.
  reflexivity.
Qed.

Lemma to_size_t_range z : 0 <= to_size_t z < SIZE_MOD.
Proof. unfold to_size_t, SIZE_MOD. apply Z.mod_pos_bound. lia. Qed.

Lemma to_size_t_small z : 0 <= z < SIZE_MOD -> to_size_t z = z.
Proof. unfold to_size_t. intros. now apply Z.mod_small. Qed.

Lemma size_add_range a b : 0 <= size_add a b < SIZE_MOD.
Proof. unfold size_add, SIZE_MOD. apply Z.mod_pos_bound. lia. Qed.

Lemma size_add_small a b : 0 <= a + b < SIZE_MOD -> size_add a b = a + b.
Proof. unfold size_add. intros. now apply Z.mod_small. Qed.

Lemma size_add_le a b : 0 <= a -> 0 <= b -> size_add a b <= a + b.
Proof.
  unfold size_add, SIZE_MOD. intros. apply Z.mod_le; lia.
Qed.

Lemma size_sub_small a b : 0 <= b <= a -> a < SIZE_MOD -> size_sub a b = a - b.
Proof. unfold size_sub. intros. apply Z.mod_small. lia. Qed.

Lemma to_int64_zero_iff z : 0 <= z < SIZE_MOD -> (to_int64 z = 0 <-> z = 0).
Proof.
  unfold to_int64, SIZE_MOD. intros Hz.
  destruct (Z.ltb_spec z (2 ^ 63)).
  - rewrite Z.mod_small by lia. lia.
  - replace (z + 2 ^ 63) with (z - 2 ^ 63 + 1 * 2 ^ 64) by lia.
    rewrite Z.mod_add by lia. rewrite Z.mod_small by lia. lia.
Qed.

Lemma to_int64_small z : 0 <= z < 2 ^ 63 -> to_int64 z = z.
Proof.
  unfold to_int64, SIZE_MOD. intros. rewrite Z.mod_small by lia. lia.
Qed.

(** ** Cache strategies *)

Section CacheProperties.

Context {Sample : Type}.

(** *** The drop loop appends *)

Lemma drop_swaps_spec (done_d todo : deque Sample) :
  forall (front done_n : deque Sample),
    length done_n = length done_d ->
    drop_swaps (length todo) (length done_d) (length front)
      (front ++ done_d ++ repeat None (length todo))
      (done_n ++ todo)
    = (front ++ done_d ++ todo, done_n ++ repeat None (length todo)).
Proof.
  revert done_d; induction todo as [|x todo IH]; intros done_d front done_n Hlen.
  - reflexivity.
  - cbn [length drop_swaps repeat].
    replace (nth (length front + length done_d)
               (front ++ done_d ++ None :: repeat None (length todo)) None)
      with (@None Sample).
    2:{ rewrite app_assoc, app_nth2 by (rewrite length_app; lia).
        rewrite length_app.
        replace (_ - _)%nat with O by lia. reflexivity. }
    replace (nth (length done_d) (done_n ++ x :: todo) None) with x.
    2:{ rewrite app_nth2 by lia. rewrite Hlen, Nat.sub_diag. reflexivity. }
    rewrite (app_assoc front done_d), list_set_app_r by (rewrite length_app; lia).
    rewrite length_app.
    replace (_ - _)%nat with O by lia.
    rewrite list_set_app_r by lia.
    rewrite Hlen, Nat.sub_diag. cbn [list_set].
    specialize (IH (done_d ++ [x]) front (done_n ++ [None])).
    rewrite !length_app in IH. cbn [length] in IH.
    replace (length done_d + 1)%nat with (S (length done_d)) in IH by lia.
    rewrite <- !app_assoc in IH. cbn [app] in IH.
    rewrite <- app_assoc.
    rewrite IH by lia. reflexivity.
Qed.

Lemma CacheOnePassInMemory_drop_app (o d data : deque Sample) :
  CacheOnePassInMemory_drop o d data = CacheOnePassInMemory o (d ++ data).
Proof.
  unfold CacheOnePassInMemory_drop.
  pose proof (drop_swaps_spec [] data d [] eq_refl) as H.
  cbn [length app] in H. rewrite H. reflexivity.
Qed.

(** *** The three branches of reset *)

Lemma empty_true_iff (d : deque Sample) : empty d = true <-> d = [].
Proof. destruct d; simpl; split; congruence. Qed.

Lemma empty_false_iff (d : deque Sample) : empty d = false <-> d <> [].
Proof. destruct d; simpl; split; congruence. Qed.

(** C2 (as amended): [CacheOnePassInMemory::reset] has three branches.  With
    both buffers empty it returns true and leaves them alone; with the
    replay buffer empty and the collected buffer non-empty it swaps them and
    returns false; it aborts exactly when the replay buffer is non-empty,
    whatever the collected buffer holds. *)
Theorem CacheOnePassInMemory_reset_branches (objPool droppedPool : deque Sample) :
  (objPool = [] -> droppedPool = [] ->
   CacheOnePassInMemory_reset objPool droppedPool
   = Ok (true, CacheOnePassInMemory [] []))
  /\ (objPool = [] -> droppedPool <> [] ->
      CacheOnePassInMemory_reset objPool droppedPool
      = Ok (false, CacheOnePassInMemory droppedPool []))
  /\ (CacheOnePassInMemory_reset objPool droppedPool = Fatal <-> objPool <> []).
Proof.
  unfold CacheOnePassInMemory_reset.
  repeat split.
  - intros -> ->. reflexivity.
  - intros -> Hd. apply empty_false_iff in Hd. simpl. now rewrite Hd.
  - destruct objPool, droppedPool; simpl; congruence.
  - intros Ho. apply empty_false_iff in Ho. now rewrite Ho.
Qed.

End CacheProperties.

(** ** Drawing from the pool *)

Section DrawProperties.

Context {Sample : Type}.
Variable cfg : Config Sample.

Lemma batchSizeOf_range (s : Sample) : 0 <= batchSizeOf cfg s < SIZE_MOD.
Proof.
  unfold batchSizeOf. destruct (calcBatchSize_ cfg).
  - apply to_size_t_range.
  - unfold SIZE_MOD. lia.
Qed.

Lemma drawnSize_Some (s : Sample) : drawnSize cfg (Some s) = Ok (batchSizeOf cfg s).
Proof. unfold drawnSize, batchSizeOf. destruct (calcBatchSize_ cfg); reflexivity. Qed.

Lemma nonnull_map_Some (pool : deque Sample) :
  Forall (fun h => h <> None) pool -> exists l, pool = map Some l.
Proof.
  induction 1 as [|h t Hh _ [l ->]].
  - now exists [].
  - destruct h as [s|]; [|congruence]. now exists (s :: l).
Qed.

Lemma map_Some_nonnull (l : list Sample) :
  Forall (fun h : PyObjectPtr Sample => h <> None) (map Some l).
Proof. induction l; simpl; constructor; auto; discriminate. Qed.

Lemma empty_map_Some (l : list Sample) : empty (map Some l) = match l with [] => true | _ => false end.
Proof. destruct l; reflexivity. Qed.

(** The index drawn when shuffling is inside the pool. *)
Lemma rand_index_range (r : Z) (n : Z) :
  0 < n -> 0 <= to_size_t r mod n < n.
Proof. intros. apply Z.mod_pos_bound. lia. Qed.

Lemma removelast_snoc {A} (l : list A) x : removelast (l ++ [x]) = l.
Proof. apply removelast_last. Qed.

Lemma read_at_mid {A} (l1 l2 : list A) x i :
  i = Z.of_nat (length l1) -> read_at (l1 ++ x :: l2) i = Ok x.
Proof. intros ->. apply read_at_app_mid. Qed.

Lemma write_at_mid {A} (l1 l2 : list A) x y i :
  i = Z.of_nat (length l1) -> write_at (l1 ++ x :: l2) i y = Ok (l1 ++ y :: l2).
Proof. intros ->. apply write_at_app_mid. Qed.

Lemma draw_shuffled_at (r : Z) (l1 l2 : list Sample) (x : Sample) :
  skipShuffle_ cfg = false ->
  to_size_t r mod Z.of_nat (length (l1 ++ x :: l2)) = Z.of_nat (length l1) ->
  exists l',
    draw cfg r (map Some (l1 ++ x :: l2)) = Ok (Some x, map Some l')
    /\ Permutation (x :: l') (l1 ++ x :: l2).
Proof.
  intros Hskip Hidx. unfold draw. rewrite Hskip. cbv zeta.
  rewrite length_map, Hidx.
  assert (Hn : Z.of_nat (length (l1 ++ x :: l2))
               = Z.of_nat (length l1) + 1 + Z.of_nat (length l2)).
  { rewrite length_app. simpl. lia. }
  destruct (Z.eqb_spec (Z.of_nat (length (l1 ++ x :: l2))) 0); [lia|].
  rewrite map_app. cbn [map].
  rewrite (read_at_mid (map Some l1)) by (rewrite length_map; reflexivity).
  cbn [bind].
  destruct (Z.eqb_spec (Z.of_nat (length l1))
              (Z.of_nat (length (l1 ++ x :: l2)) - 1)) as [Hlast|Hnl];
    cbn [negb bind].
  - assert (l2 = []) as ->.
    { destruct l2; [reflexivity|]. simpl in Hn. lia. }
    cbn [map].
    rewrite (read_at_mid (map Some l1)) by (rewrite length_map; lia).
    cbn [bind]. rewrite removelast_snoc.
    exists l1. split; [reflexivity|].
    apply Permutation_cons_append.
  - destruct (exists_last (l:=l2)) as (l2' & y & ->).
    { intros ->. simpl in Hn. lia. }
    rewrite map_app. cbn [map].
    assert (Hn1 : Z.of_nat (length (l1 ++ x :: l2' ++ [y])) - 1
                  = Z.of_nat (length l1) + 1 + Z.of_nat (length l2')).
    { rewrite !length_app. cbn [length]. rewrite length_app. simpl. lia. }
    rewrite Hn1.
    replace (map Some l1 ++ Some x :: map Some l2' ++ [Some y])
      with ((map Some l1 ++ Some x :: map Some l2') ++ [Some y])
      by (rewrite <- app_assoc; reflexivity).
    rewrite (read_at_mid (map Some l1 ++ Some x :: map Some l2')).
    2:{ rewrite length_app. cbn [length]. rewrite !length_map. lia. }
    cbn [bind]. rewrite <- app_assoc. cbn [app].
    rewrite (write_at_mid (map Some l1)) by (rewrite length_map; reflexivity).
    cbn [bind].
    replace (map Some l1 ++ Some y :: map Some l2' ++ [Some y])
      with ((map Some l1 ++ Some y :: map Some l2') ++ [Some y])
      by (rewrite <- app_assoc; reflexivity).
    rewrite (write_at_mid (map Some l1 ++ Some y :: map Some l2')).
    2:{ rewrite length_app. cbn [length]. rewrite !length_map. lia. }
    cbn [bind].
    rewrite (read_at_mid (map Some l1 ++ Some y :: map Some l2')).
    2:{ rewrite length_app. cbn [length]. rewrite !length_map. lia. }
    cbn [bind]. rewrite removelast_snoc.
    exists (l1 ++ y :: l2').
    rewrite map_app. cbn [map].
    split; [reflexivity|].
    rewrite Permutation_middle.
    apply Permutation_app_head.
    apply perm_skip.
    apply Permutation_cons_append.
Qed.

(** One draw from a non-empty pool of non-null handles: it succeeds, hands
    out a non-null handle, and leaves the other samples in the pool. *)
Lemma draw_spec (r : Z) (l : list Sample) :
  l <> [] ->
  exists s l',
    draw cfg r (map Some l) = Ok (Some s, map Some l')
    /\ Permutation (s :: l') l
    /\ (skipShuffle_ cfg = true -> l = s :: l').
Proof.
  intros Hne.
  destruct (skipShuffle_ cfg) eqn:Hskip.
  - destruct l as [|s l']; [congruence|].
    exists s, l'. unfold draw. rewrite Hskip. simpl. repeat split; auto.
  - assert (Hn : 0 < Z.of_nat (length l)).
    { destruct l; [congruence|]. simpl. lia. }
    pose proof (rand_index_range r _ Hn) as Hi.
    destruct (nth_error l (Z.to_nat (to_size_t r mod Z.of_nat (length l))))
      as [x|] eqn:Hx.
    2:{ apply nth_error_None in Hx. lia. }
    apply nth_error_split in Hx. destruct Hx as (l1 & l2 & Hl & Hl1).
    subst l.
    destruct (draw_shuffled_at r l1 l2 x Hskip) as (l' & Hd & Hp); [lia|].
    exists x, l'. repeat split; auto. discriminate.
Qed.

Lemma draw_empty (r : Z) : draw cfg r [] = OutOfRange.
Proof. unfold draw. destruct (skipShuffle_ cfg); reflexivity. Qed.

Lemma accumulate_app (b : Z) (l1 l2 : list Sample) :
  accumulate cfg b (l1 ++ l2) = accumulate cfg (accumulate cfg b l1) l2.
Proof. unfold accumulate. apply fold_left_app. Qed.

Lemma accumulate_range (b : Z) (l : list Sample) :
  0 <= b < SIZE_MOD -> 0 <= accumulate cfg b l < SIZE_MOD.
Proof.
  revert b; induction l as [|s l IH]; intros b Hb; simpl; auto.
  apply IH. apply size_add_range.
Qed.

Lemma totalWeight_nonneg (l : list Sample) : 0 <= totalWeight cfg l.
Proof.
  induction l as [|s l IH]; simpl; [lia|].
  pose proof (batchSizeOf_range s). lia.
Qed.

Lemma totalWeight_app (l1 l2 : list Sample) :
  totalWeight cfg (l1 ++ l2) = totalWeight cfg l1 + totalWeight cfg l2.
Proof. induction l1; simpl; lia. Qed.

Lemma totalWeight_Permutation (l1 l2 : list Sample) :
  Permutation l1 l2 -> totalWeight cfg l1 = totalWeight cfg l2.
Proof. induction 1; simpl; lia. Qed.

(** Without overflow the counter of the loop is the sum of the weights. *)
Lemma accumulate_totalWeight (b : Z) (l : list Sample) :
  0 <= b -> b + totalWeight cfg l < SIZE_MOD ->
  accumulate cfg b l = b + totalWeight cfg l.
Proof.
  revert b; induction l as [|s l IH]; intros b Hb Hlt; simpl in *; [lia|].
  pose proof (batchSizeOf_range s). pose proof (totalWeight_nonneg l).
  rewrite size_add_small by lia. rewrite IH; lia.
Qed.

(** The drawing loop on a pool of non-null handles, with fuel for every
    sample of the pool: it returns; what it took and what it left make up
    the pool, in order when shuffling is off; it stops on an empty pool or
    a reached size; before every draw the size was not reached. *)
Lemma draw_loop_spec (rand : nat -> Z) (size : Z) :
  forall (fuel k : nat) (data : deque Sample) (l : list Sample) (bsize : Z),
    (length l <= fuel)%nat ->
    exists taken rest,
      draw_loop cfg rand fuel k size data (map Some l) bsize
      = Ok {| drawn_data := data ++ map Some taken;
              drawn_pool := map Some rest;
              drawn_bsize := accumulate cfg bsize taken |}
      /\ Permutation (taken ++ rest) l
      /\ (skipShuffle_ cfg = true -> taken ++ rest = l)
      /\ (size <= accumulate cfg bsize taken \/ rest = [])
      /\ (forall front back, taken = front ++ back -> back <> [] ->
          accumulate cfg bsize front < size).
Proof.
  induction fuel as [|fuel IH]; intros k data l bsize Hfuel.
  - destruct l; [|simpl in Hfuel; lia].
    exists [], []. simpl. rewrite andb_false_r, app_nil_r.
    repeat split; auto.
    intros front back H. symmetry in H. apply app_eq_nil in H.
    destruct H; congruence.
  - cbn [draw_loop].
    destruct ((bsize <? size) && negb (empty (map Some l))) eqn:Hcond.
    + apply andb_true_iff in Hcond. destruct Hcond as [Hlt Hne].
      apply Z.ltb_lt in Hlt. rewrite empty_map_Some in Hne.
      assert (Hl : l <> []) by (destruct l; [discriminate|congruence]).
      destruct (draw_spec (rand k) l Hl) as (s & l' & Hd & Hp & Hfifo).
      rewrite Hd. cbn [bind]. rewrite drawnSize_Some. cbn [bind].
      assert (Hlen : (length l' <= fuel)%nat).
      { apply Permutation_length in Hp. simpl in Hp. lia. }
      destruct (IH (S k) (data ++ [Some s]) l'
                  (size_add bsize (batchSizeOf cfg s)) Hlen)
        as (taken & rest & Heq & Hp' & Hfifo' & Hstop & Hpre).
      exists (s :: taken), rest.
      rewrite <- app_assoc in Heq.
      split; [exact Heq|].
      repeat split; auto.
      * simpl. rewrite <- Hp. now apply perm_skip.
      * intros Hs. simpl. rewrite Hfifo' by assumption. symmetry. auto.
      * intros front back Hfb Hback.
        destruct front as [|f front]; [simpl; assumption|].
        simpl in Hfb. injection Hfb as <- Hfb.
        simpl. apply (Hpre front back); assumption.
    + exists [], l. cbn [map]. rewrite app_nil_r. simpl.
      repeat split; auto.
      * apply andb_false_iff in Hcond. destruct Hcond as [Hc|Hc].
        -- left. apply Z.ltb_ge in Hc. assumption.
        -- right. rewrite empty_map_Some in Hc. destruct l; [reflexivity|discriminate].
      * intros front back H. symmetry in H. apply app_eq_nil in H.
        destruct H; congruence.
Qed.

(** With the default weight the counter of the loop counts the samples
    and stops at the size. *)
Lemma accumulate_default (size : Z) (taken : list Sample) :
  calcBatchSize_ cfg = None -> size < SIZE_MOD ->
  (forall front back, taken = front ++ back -> back <> [] ->
   accumulate cfg 0 front < size) ->
  accumulate cfg 0 taken = Z.of_nat (length taken)
  /\ (taken <> [] -> Z.of_nat (length taken) <= size).
Proof.
  intros Hdef Hsize.
  induction taken as [|x taken IH] using rev_ind; intros Hpre.
  - simpl. split; [reflexivity|congruence].
  - destruct IH as [IH _].
    { intros front back -> Hb. apply (Hpre front (back ++ [x])).
      - now rewrite app_assoc.
      - intros H. apply app_eq_nil in H. destruct H; congruence. }
    pose proof (Hpre taken [x] eq_refl ltac:(discriminate)) as Hlt.
    rewrite accumulate_app, IH in *. cbn [accumulate fold_left].
    unfold batchSizeOf. rewrite Hdef.
    rewrite length_app. cbn [length].
    rewrite size_add_small by lia.
    split; [lia|]. intros _. lia.
Qed.

(** [getNextBatchInternal] on a pool of non-null handles. *)
Lemma getNextBatchInternal_pool_spec (rand : nat -> Z) (size_ : Z)
  (st : PyDataProvider2 Sample) (l : list Sample) :
  0 <= size_ ->
  poolOf st = Some (map Some l) ->
  exists taken rest,
    Permutation (taken ++ rest) l
    /\ (skipShuffle_ cfg = true -> taken ++ rest = l)
    /\ (to_size_t size_ <= accumulate cfg 0 taken \/ rest = [])
    /\ (forall front back, taken = front ++ back -> back <> [] ->
        accumulate cfg 0 front < to_size_t size_)
    /\ draw_loop cfg rand (length (map Some l)) 0 (to_size_t size_) []
         (map Some l) 0
       = Ok {| drawn_data := map Some taken;
               drawn_pool := map Some rest;
               drawn_bsize := accumulate cfg 0 taken |}
    /\ getNextBatchInternal_pool cfg rand size_ st
       = let b := accumulate cfg 0 taken in
         let c := if loadThread_ st then cache_ st
                  else cache_store (cache_ st) (map Some rest) in
         Ok (if b =? 0 then 0 else to_int64 b,
             if b =? 0 then [] else map Some taken,
             {| loadThread_ := loadThread_ st;
                callingContexts_ := callingContexts_ st;
                dataPool_ := if loadThread_ st then map Some rest
                             else dataPool_ st;
                poolActualSize_ := if loadThread_ st
                                   then size_sub (poolActualSize_ st) b
                                   else poolActualSize_ st;
                cache_ := if b =? 0 then c else cache_drop c (map Some taken);
                loading := loading st |}).
Proof.
  intros Hsz Hpool.
  destruct (draw_loop_spec rand (to_size_t size_) (length (map Some l)) 0 []
              l 0) as (taken & rest & Heq & Hp & Hfifo & Hstop & Hpre).
  { rewrite length_map. lia. }
  exists taken, rest. cbn [app] in Heq.
  repeat split; auto.
  unfold getNextBatchInternal_pool.
  destruct (Z.ltb_spec size_ 0); [lia|].
  rewrite Hpool. unfold deque, PyObjectPtr in *.
  rewrite Heq. cbn [bind drawn_bsize drawn_pool drawn_data].
  cbv zeta.
  destruct (loadThread_ st); destruct (accumulate cfg 0 taken =? 0); reflexivity.
Qed.

End DrawProperties.

Section BatchDrawing.

Context {Sample : Type}.
Variable cfg : Config Sample.

Lemma totalWeight_default (l : list Sample) :
  calcBatchSize_ cfg = None -> totalWeight cfg l = Z.of_nat (length l).
Proof.
  intros Hdef. induction l as [|s l IH]; [reflexivity|].
  change (totalWeight cfg (s :: l)) with (batchSizeOf cfg s + totalWeight cfg l).
  rewrite IH. unfold batchSizeOf. rewrite Hdef. cbn [length]. lia.
Qed.

(** C1 (as amended): the drawing loop of [getNextBatchInternal], on a pool
    of non-null handles, returns; the samples it took and those it left are
    the samples of the pool; it stops only when the requested weight is
    reached or the pool is empty; the weight accumulated before each draw,
    hence before the last one, is below the requested weight.  With the
    default weight 1 the total weight taken is the number of samples taken
    and is at most the requested weight.  With a weigher, and weights that
    do not overflow, the total stays below the requested weight plus the
    weight of the last sample taken. *)
Theorem draw_loop_weight (rand : nat -> Z) (size : Z) (pool : deque Sample) :
  0 <= size < SIZE_MOD ->
  Forall (fun h => h <> None) pool ->
  exists taken rest,
    draw_loop cfg rand (length pool) 0 size [] pool 0
    = Ok {| drawn_data := map Some taken;
            drawn_pool := map Some rest;
            drawn_bsize := accumulate cfg 0 taken |}
    /\ Permutation (map Some taken ++ map Some rest) pool
    /\ (size <= accumulate cfg 0 taken \/ rest = [])
    /\ (forall front last, taken = front ++ [last] ->
        accumulate cfg 0 front < size)
    /\ (calcBatchSize_ cfg = None ->
        accumulate cfg 0 taken = totalWeight cfg taken
        /\ totalWeight cfg taken = Z.of_nat (length taken)
        /\ totalWeight cfg taken <= size)
    /\ (totalWeight cfg (taken ++ rest) < SIZE_MOD ->
        accumulate cfg 0 taken = totalWeight cfg taken
        /\ forall front last, taken = front ++ [last] ->
           totalWeight cfg taken < size + batchSizeOf cfg last).
Proof.
  intros Hsize Hnn.
  destruct (nonnull_map_Some pool Hnn) as [l ->].
  destruct (draw_loop_spec cfg rand size (length (map Some l)) 0 [] l 0)
    as (taken & rest & Heq & Hp & _ & Hstop & Hpre).
  { rewrite length_map. lia. }
  exists taken, rest. cbn [app] in Heq.
  split; [exact Heq|].
  split; [rewrite <- map_app; now apply Permutation_map|].
  split; [exact Hstop|].
  split; [intros front last ->; apply (Hpre front [last]); [reflexivity|discriminate]|].
  split.
  - intros Hdef.
    destruct (accumulate_default cfg size taken Hdef) as [Hacc Hle];
      [lia|exact Hpre|].
    rewrite (totalWeight_default taken Hdef).
    repeat split; auto.
    destruct taken; [simpl; lia|]. apply Hle. discriminate.
  - intros Hbound. rewrite totalWeight_app in Hbound.
    pose proof (totalWeight_nonneg cfg taken).
    pose proof (totalWeight_nonneg cfg rest).
    split; [rewrite accumulate_totalWeight; lia|].
    intros front last ->.
    pose proof (Hpre front [last] eq_refl ltac:(discriminate)) as Hlt.
    rewrite totalWeight_app in *. cbn [totalWeight fold_right] in *.
    pose proof (totalWeight_nonneg cfg front).
    pose proof (batchSizeOf_range cfg last).
    rewrite accumulate_totalWeight in Hlt; lia.
Qed.

(** C10: in the drawing loop every access to the pool is inside it.  The
    index drawn when shuffling, [rand() % pool.size()], is below the size
    of a non-empty pool; a draw from a non-empty pool of non-null handles,
    shuffling or not, reads and writes inside the pool, passes the CHECK
    and hands out a non-null handle, while a draw from an empty pool would
    be out of range; and the loop, which draws only while the pool is not
    empty, never goes out of range, never fails the CHECK, and moves only
    non-null handles to the batch. *)
Theorem draw_loop_in_bounds (rand : nat -> Z) (size : Z) (pool : deque Sample) :
  Forall (fun h => h <> None) pool ->
  (forall r, pool <> [] ->
     0 <= to_size_t r mod Z.of_nat (length pool) < Z.of_nat (length pool))
  /\ (forall r, pool <> [] ->
      exists s pool', draw cfg r pool = Ok (Some s, pool')
                      /\ Forall (fun h => h <> None) pool'
                      /\ S (length pool') = length pool)
  /\ (forall r, draw cfg r [] = OutOfRange)
  /\ exists d,
       draw_loop cfg rand (length pool) 0 size [] pool 0 = Ok d
       /\ Forall (fun h => h <> None) (drawn_data d)
       /\ Forall (fun h => h <> None) (drawn_pool d).
Proof.
  intros Hnn.
  destruct (nonnull_map_Some pool Hnn) as [l ->].
  split.
  { intros r Hne. apply rand_index_range.
    destruct l; [exfalso; apply Hne; reflexivity|]. simpl. lia. }
  split.
  { intros r Hne.
    destruct (draw_spec cfg r l) as (s & l' & Hd & Hp & _).
    { intros ->. apply Hne. reflexivity. }
    exists s, (map Some l'). split; [exact Hd|].
    split; [apply map_Some_nonnull|].
    apply Permutation_length in Hp. rewrite !length_map. simpl in Hp. lia. }
  split; [apply draw_empty|].
  destruct (draw_loop_spec cfg rand size (length (map Some l)) 0 [] l 0)
    as (taken & rest & Heq & _).
  { rewrite length_map. lia. }
  eexists. split; [exact Heq|].
  cbn [drawn_data drawn_pool app]. split; apply map_Some_nonnull.
Qed.

(** C3 (as amended): the loading thread's push of a sample of weight [w]
    happens exactly when the thread holds a sample it has read and the
    predicate it waits on holds, which is [poolActualSize_ + w < poolSize_]
    (on [size_t]) in strict mode and [poolActualSize_ < poolSize_] when the
    batch size may be exceeded; the push then puts the sample at the back
    of the pool and adds [w] to [poolActualSize_]. *)
Theorem loadThread_push_when_ready (st : PyDataProvider2 Sample) :
  (forall st' e,
     step cfg st LoadPush = Some (st', e) <->
     exists data,
       loading st = Some data
       /\ loadThread_ st = true
       /\ (if canOverBatchSize_ cfg
           then poolActualSize_ st < poolSize_ cfg
           else size_add (poolActualSize_ st) (batchSizeOf cfg data)
                < poolSize_ cfg)
       /\ e = Pushed data
       /\ st' = {| loadThread_ := true;
                   callingContexts_ := callingContexts_ st;
                   dataPool_ := dataPool_ st ++ [Some data];
                   poolActualSize_ :=
                     size_add (poolActualSize_ st) (batchSizeOf cfg data);
                   cache_ := cache_ st;
                   loading := None |}).
Proof.
  intros st' e. unfold step.
  destruct (loading st) as [data|] eqn:Hl.
  2:{ split; [discriminate|]. intros (data & H & _). discriminate. }
  destruct (loadThread_ st) eqn:Ht; cbn [andb].
  2:{ split; [discriminate|]. intros (d & _ & H & _). discriminate. }
  unfold pushReady, loadThread_push. rewrite Ht.
  destruct (canOverBatchSize_ cfg).
  - destruct (Z.ltb_spec (poolActualSize_ st) (poolSize_ cfg)).
    + split.
      * intros H'. injection H' as <- <-. exists data. repeat split; auto.
      * intros (d & Hd & _ & _ & -> & ->). injection Hd as <-. reflexivity.
    + split; [discriminate|]. intros (d & Hd & _ & Hlt & _). lia.
  - destruct (Z.ltb_spec (size_add (poolActualSize_ st) (batchSizeOf cfg data))
                (poolSize_ cfg)).
    + split.
      * intros H'. injection H' as <- <-. exists data. repeat split; auto.
      * intros (d & Hd & _ & _ & -> & ->). injection Hd as <-. reflexivity.
    + split; [discriminate|]. intros (d & Hd & _ & Hlt & _).
      injection Hd as <-. lia.
Qed.

End BatchDrawing.

(** ** The schedule of the loading thread and the consumer *)

Section ScheduleProperties.

Context {Sample : Type}.
Variable cfg : Config Sample.

Lemma erase_app_mid {A} (l1 l2 : list A) x :
  erase (l1 ++ x :: l2) (length l1) = l1 ++ l2.
Proof. induction l1 as [|h t IH]; simpl; [reflexivity|]. now rewrite IH. Qed.

Lemma list_set_app_mid {A} (l1 l2 : list A) x y :
  list_set (l1 ++ x :: l2) (length l1) y = l1 ++ y :: l2.
Proof. rewrite list_set_app_r, Nat.sub_diag by lia. reflexivity. Qed.

Lemma read_at_split {A} (l : list A) (i : Z) (x : A) :
  read_at l i = Ok x ->
  exists l1 l2, l = l1 ++ x :: l2 /\ length l1 = Z.to_nat i /\ 0 <= i.
Proof.
  unfold read_at. destruct (Z.leb_spec 0 i); [|discriminate].
  destruct (nth_error l (Z.to_nat i)) as [y|] eqn:Hn; [|discriminate].
  intros H'. injection H' as ->.
  apply nth_error_split in Hn. destruct Hn as (l1 & l2 & -> & Hl).
  exists l1, l2. auto.
Qed.

Lemma map_Some_inj (l1 l2 : list Sample) :
  map (@Some Sample) l1 = map Some l2 -> l1 = l2.
Proof.
  revert l2; induction l1 as [|a l1 IH]; intros [|b l2] H; simpl in H;
    try discriminate; [reflexivity|].
  injection H as -> H. f_equal. auto.
Qed.

(** *** Drawing without shuffling *)

Lemma fifo_take_spec (size : Z) (l : list Sample) :
  forall b taken rest b',
    fifo_take cfg size b l = (taken, rest, b') ->
    taken ++ rest = l /\ b' = accumulate cfg b taken.
Proof.
  induction l as [|s l IH]; intros b taken rest b' H; simpl in H.
  - injection H as <- <- <-. auto.
  - destruct (b <? size).
    + destruct (fifo_take cfg size (size_add b (batchSizeOf cfg s)) l)
        as [[t r] b1] eqn:Hf.
      injection H as <- <- <-.
      destruct (IH _ _ _ _ Hf) as [<- ->]. auto.
    + injection H as <- <- <-. auto.
Qed.

Lemma draw_fifo_cons (r : Z) (s : Sample) (pool : deque Sample) :
  skipShuffle_ cfg = true -> draw cfg r (Some s :: pool) = Ok (Some s, pool).
Proof. intros H. unfold draw. rewrite H. reflexivity. Qed.

Lemma draw_loop_fifo (rand : nat -> Z) (size : Z) :
  skipShuffle_ cfg = true ->
  forall (l : list Sample) (fuel k : nat) (data : deque Sample) (b : Z),
    (length l <= fuel)%nat ->
    draw_loop cfg rand fuel k size data (map Some l) b
    = let '(taken, rest, b') := fifo_take cfg size b l in
      Ok {| drawn_data := data ++ map Some taken;
            drawn_pool := map Some rest;
            drawn_bsize := b' |}.
Proof.
  intros Hskip. induction l as [|s l IH]; intros fuel k data b Hfuel.
  - destruct fuel; simpl; rewrite andb_false_r, app_nil_r; reflexivity.
  - destruct fuel as [|fuel]; [simpl in Hfuel; lia|].
    cbn [draw_loop fifo_take map empty negb]. rewrite andb_true_r.
    destruct (b <? size).
    + rewrite draw_fifo_cons by assumption. cbn [bind].
      rewrite drawnSize_Some. cbn [bind].
      rewrite IH by (simpl in Hfuel; lia).
      destruct (fifo_take cfg size (size_add b (batchSizeOf cfg s)) l)
        as [[t r] b1].
      rewrite <- app_assoc. reflexivity.
    + rewrite app_nil_r. reflexivity.
Qed.

Lemma fifo_take_app (size : Z) (tail : list Sample) :
  forall (l : list Sample) b taken rest b',
    fifo_take cfg size b l = (taken, rest, b') ->
    size <= b' \/ tail = [] ->
    fifo_take cfg size b (l ++ tail) = (taken, rest ++ tail, b').
Proof.
  induction l as [|s l IH]; intros b taken rest b' H Hstop; simpl in H.
  - injection H as <- <- <-. simpl.
    destruct tail as [|x tail]; [reflexivity|].
    destruct Hstop as [Hs|Hs]; [|discriminate].
    simpl. destruct (Z.ltb_spec b size); [lia|reflexivity].
  - cbn [app fifo_take]. destruct (b <? size).
    + destruct (fifo_take cfg size (size_add b (batchSizeOf cfg s)) l)
        as [[t r] b1] eqn:Hf.
      injection H as <- <- <-.
      rewrite (IH _ _ _ _ Hf Hstop). reflexivity.
    + injection H as <- <- <-. reflexivity.
Qed.

(** *** What each action does *)

Lemma step_LoadRead (st st' : PyDataProvider2 Sample) dist e :
  step cfg st (LoadRead dist) = Some (st', e) ->
  loadThread_ st = true /\ loading st = None
  /\ exists c1 ctx c2,
       callingContexts_ st = c1 ++ ctx :: c2
       /\ (skipShuffle_ cfg = true -> c1 = [])
       /\ match ctx with
          | [] => e = Exhausted
                  /\ st' = {| loadThread_ := true;
                              callingContexts_ := c1 ++ c2;
                              dataPool_ := dataPool_ st;
                              poolActualSize_ := poolActualSize_ st;
                              cache_ := cache_ st;
                              loading := None |}
          | data :: rest =>
              e = Pulled data
              /\ st' = {| loadThread_ := true;
                          callingContexts_ := c1 ++ rest :: c2;
                          dataPool_ := dataPool_ st;
                          poolActualSize_ := poolActualSize_ st;
                          cache_ := cache_ st;
                          loading := Some data |}
          end.
Proof.
  unfold step. destruct (loading st) eqn:Hl; [discriminate|].
  destruct (loadThread_ st) eqn:Ht; cbn [andb]; [|discriminate].
  destruct (negb _ && _) eqn:Hc; [|discriminate].
  unfold loadThread_read.
  destruct (read_at (callingContexts_ st) _) as [ctx| | |] eqn:Hr;
    cbn [bind outcome_to_option]; try discriminate.
  apply read_at_split in Hr. destruct Hr as (c1 & c2 & Hcs & Hlen & Hpos).
  intros H. repeat split; auto.
  exists c1, ctx, c2. split; [assumption|].
  split.
  { intros Hs. unfold PositionRandom in Hlen. rewrite Hs in Hlen.
    simpl in Hlen. destruct c1; [reflexivity|discriminate]. }
  rewrite <- Hlen, Ht in H. rewrite Hcs in H.
  destruct ctx as [|data rest]; cbn [outcome_to_option] in H.
  - rewrite erase_app_mid in H. injection H as <- <-. auto.
  - rewrite list_set_app_mid in H. injection H as <- <-. auto.
Qed.

Lemma step_LoadPush (st st' : PyDataProvider2 Sample) e :
  step cfg st LoadPush = Some (st', e) ->
  exists data,
    loading st = Some data /\ loadThread_ st = true
    /\ pushReady cfg (poolActualSize_ st) (batchSizeOf cfg data) = true
    /\ e = Pushed data
    /\ st' = {| loadThread_ := true;
                callingContexts_ := callingContexts_ st;
                dataPool_ := dataPool_ st ++ [Some data];
                poolActualSize_ :=
                  size_add (poolActualSize_ st) (batchSizeOf cfg data);
                cache_ := cache_ st;
                loading := None |}.
Proof.
  unfold step. destruct (loading st) as [data|] eqn:Hl; [|discriminate].
  destruct (loadThread_ st) eqn:Ht; cbn [andb]; [|discriminate].
  destruct (pushReady _ _ _) eqn:Hp; [|discriminate].
  intros H. injection H as <- <-. exists data.
  unfold loadThread_push. rewrite Ht. auto.
Qed.

Lemma step_GetNextBatch (st st' : PyDataProvider2 Sample) size_ rand e
  (l : list Sample) :
  poolOf st = Some (map Some l) ->
  step cfg st (GetNextBatch size_ rand) = Some (st', e) ->
  0 <= size_
  /\ (loadThread_ st = true -> pullReady (to_size_t size_) st = true)
  /\ exists taken rest,
       Permutation (taken ++ rest) l
       /\ (skipShuffle_ cfg = true ->
           fifo_take cfg (to_size_t size_) 0 l
           = (taken, rest, accumulate cfg 0 taken))
       /\ (to_size_t size_ <= accumulate cfg 0 taken \/ rest = [])
       /\ (forall front back, taken = front ++ back -> back <> [] ->
           accumulate cfg 0 front < to_size_t size_)
       /\ let b := accumulate cfg 0 taken in
          let c := if loadThread_ st then cache_ st
                   else cache_store (cache_ st) (map Some rest) in
          e = Batch size_ (if b =? 0 then 0 else to_int64 b)
                (if b =? 0 then [] else map Some taken)
          /\ st' = {| loadThread_ := loadThread_ st;
                      callingContexts_ := callingContexts_ st;
                      dataPool_ := if loadThread_ st then map Some rest
                                   else dataPool_ st;
                      poolActualSize_ := if loadThread_ st
                                         then size_sub (poolActualSize_ st) b
                                         else poolActualSize_ st;
                      cache_ := if b =? 0 then c
                                else cache_drop c (map Some taken);
                      loading := loading st |}.
Proof.
  intros Hpool. unfold step.
  destruct (negb (loadThread_ st) || pullReady (to_size_t size_) st) eqn:Hready;
    [|discriminate].
  destruct (Z.ltb_spec size_ 0) as [Hneg|Hpos].
  { unfold getNextBatchInternal_pool.
    destruct (Z.ltb_spec size_ 0); [discriminate|lia]. }
  destruct (getNextBatchInternal_pool_spec cfg rand size_ st l Hpos Hpool)
    as (taken & rest & Hp & Hfifo & Hstop & Hpre & Hloop & Heq).
  rewrite Heq. cbv zeta. cbn [outcome_to_option].
  intros H. injection H as <- <-.
  split; [assumption|].
  split.
  { intros Ht. rewrite Ht in Hready. exact Hready. }
  exists taken, rest.
  split; [assumption|].
  split.
  { intros Hskip.
    rewrite (draw_loop_fifo rand (to_size_t size_) Hskip l) in Hloop
      by (rewrite length_map; lia).
    destruct (fifo_take cfg (to_size_t size_) 0 l) as [[t r] b1].
    cbn [app] in Hloop. injection Hloop as Ht Hr Hb.
    apply map_Some_inj in Ht. apply map_Some_inj in Hr. subst. reflexivity. }
  repeat split; auto.
Qed.

Lemma step_Reset (st st' : PyDataProvider2 Sample) generators e :
  step cfg st (Reset generators) = Some (st', e) ->
  exists reload c,
    cache_reset (cache_ st) = Ok (reload, c)
    /\ e = Restarted reload
    /\ st' = {| loadThread_ := reload;
                callingContexts_ := if reload then generators else [];
                dataPool_ := [];
                poolActualSize_ := 0;
                cache_ := c;
                loading := None |}.
Proof.
  unfold step. destruct (negb (loadThread_ st) || _); [|discriminate].
  unfold resetImpl.
  destruct (cache_reset (cache_ st)) as [[reload c]| | |];
    cbn [bind outcome_to_option]; try discriminate.
  destruct reload; cbn [outcome_to_option]; intros H; injection H as <- <-;
    eexists; exists c; auto.
Qed.

(** *** The invariant *)

Ltac tw_nonneg :=
  repeat match goal with
    | |- context [totalWeight cfg ?l] =>
        lazymatch goal with
        | _ : 0 <= totalWeight cfg l |- _ => fail
        | _ => pose proof (totalWeight_nonneg cfg l)
        end
    | _ : context [totalWeight cfg ?l] |- _ =>
        lazymatch goal with
        | _ : 0 <= totalWeight cfg l |- _ => fail
        | _ => pose proof (totalWeight_nonneg cfg l)
        end
    end.

Lemma totalWeight_cons (s : Sample) (l : list Sample) :
  totalWeight cfg (s :: l) = batchSizeOf cfg s + totalWeight cfg l.
Proof. reflexivity. Qed.

Lemma totalWeight_nil : totalWeight cfg [] = 0.
Proof. reflexivity. Qed.

Ltac tw_norm :=
  unfold stream, optList in *; cbn [loading callingContexts_] in *;
  repeat rewrite ?concat_app, ?totalWeight_app, ?totalWeight_cons,
    ?totalWeight_nil, ?concat_cons, ?concat_nil, ?app_nil_r in *;
  cbn [app] in *.

Lemma poolOf_Inv (st : PyDataProvider2 Sample) l lo ld :
  dataPool_ st = map Some l ->
  cachePools (cache_ st) = (map Some lo, map Some ld) ->
  poolOf st = (if loadThread_ st then Some (map Some l)
               else match cache_ st with
                    | NoCacheStrategy => None
                    | CacheOnePassInMemory _ _ => Some (map Some lo)
                    end).
Proof.
  intros Hd Hc. unfold poolOf. rewrite Hd.
  destruct (loadThread_ st); [reflexivity|].
  destruct (cache_ st); simpl in *; [reflexivity|].
  injection Hc as -> ->. reflexivity.
Qed.

Lemma Inv_Reset (st st' : PyDataProvider2 Sample) generators e :
  Inv cfg st ->
  totalWeight cfg (concat generators) < SIZE_MOD ->
  step cfg st (Reset generators) = Some (st', e) ->
  Inv cfg st'.
Proof.
  intros (l & lo & ld & Hd & Hc & Ha & Hb & Hl & Hnt & Ht) Hg Hs.
  apply step_Reset in Hs. destruct Hs as (reload & c & Hr & -> & ->).
  destruct (cache_ st) as [|o d] eqn:Hcache; simpl in Hr, Hc.
  - injection Hr as <- <-.
    exists [], [], []. simpl. tw_norm. repeat split; auto; try congruence; try lia.
  - injection Hc as -> ->. unfold CacheOnePassInMemory_reset in Hr.
    destruct lo as [|x lo]; simpl in Hr.
    + destruct ld as [|y ld]; simpl in Hr; injection Hr as <- <-.
      * exists [], [], []. simpl. tw_norm. repeat split; auto; try congruence; try lia.
      * exists [], (y :: ld), []. simpl. tw_norm. tw_nonneg.
        repeat split; auto; try congruence; try lia.
    + discriminate.
Qed.

Lemma Inv_LoadRead (st st' : PyDataProvider2 Sample) dist e :
  Inv cfg st -> step cfg st (LoadRead dist) = Some (st', e) -> Inv cfg st'.
Proof.
  intros (l & lo & ld & Hd & Hc & Ha & Hb & Hl & Hnt & Ht) Hs.
  apply step_LoadRead in Hs.
  destruct Hs as (Hth & Hload & c1 & ctx & c2 & Hcs & _ & Hctx).
  unfold stream in *. rewrite Hcs, Hload in *.
  exists l, lo, ld.
  destruct ctx as [|data rest]; destruct Hctx as [-> ->];
    cbn [dataPool_ cache_ poolActualSize_ loading callingContexts_ loadThread_];
    tw_norm; repeat split; auto; try congruence; try lia.
  intros Hnil. apply app_eq_nil in Hnil. destruct Hnil; discriminate.
Qed.

Lemma Inv_LoadPush (st st' : PyDataProvider2 Sample) e :
  Inv cfg st -> step cfg st LoadPush = Some (st', e) -> Inv cfg st'.
Proof.
  intros (l & lo & ld & Hd & Hc & Ha & Hb & Hl & Hnt & Ht) Hs.
  apply step_LoadPush in Hs.
  destruct Hs as (data & Hload & Hth & _ & -> & ->).
  unfold stream in *. rewrite Hload in *.
  exists (l ++ [data]), lo, ld.
  cbn [dataPool_ cache_ poolActualSize_ loading callingContexts_ loadThread_].
  tw_norm. tw_nonneg. pose proof (batchSizeOf_range cfg data).
  rewrite map_app, Hd, Ha. cbn [map].
  rewrite size_add_small by lia.
  repeat split; auto; try congruence; try lia.
Qed.

Lemma cachePools_drop (c : IPyDataProviderCache Sample) lo ld taken :
  cachePools c = (map Some lo, map Some ld) ->
  exists ld',
    cachePools (cache_drop c (map Some taken)) = (map Some lo, map Some ld')
    /\ totalWeight cfg ld' <= totalWeight cfg ld + totalWeight cfg taken
    /\ (c <> NoCacheStrategy -> ld' = ld ++ taken).
Proof.
  destruct c as [|o d]; simpl; intros H.
  - exists ld. pose proof (totalWeight_nonneg cfg taken).
    repeat split; auto; try lia. congruence.
  - injection H as -> ->. rewrite CacheOnePassInMemory_drop_app.
    exists (ld ++ taken). simpl. rewrite map_app, totalWeight_app.
    repeat split; auto; lia.
Qed.

Lemma Inv_GetNextBatch (st st' : PyDataProvider2 Sample) size_ rand e :
  Inv cfg st -> step cfg st (GetNextBatch size_ rand) = Some (st', e) ->
  Inv cfg st'.
Proof.
  intros (l & lo & ld & Hd & Hc & Ha & Hb & Hl & Hnt & Ht) Hs.
  pose proof (poolOf_Inv st l lo ld Hd Hc) as Hpool.
  destruct (loadThread_ st) eqn:Hth.
  - specialize (Ht eq_refl). subst lo.
    destruct (step_GetNextBatch st st' size_ rand e l Hpool Hs)
      as (_ & _ & taken & rest & Hp & _ & _ & _ & Hst).
    cbv zeta in Hst. destruct Hst as [-> ->]. clear Hs. rewrite Hth.
    pose proof (totalWeight_Permutation cfg _ _ Hp) as Htw.
    tw_norm. tw_nonneg.
    assert (Hacc : accumulate cfg 0 taken = totalWeight cfg taken)
      by (rewrite accumulate_totalWeight; lia).
    rewrite Hacc, Ha, size_sub_small by lia.
    destruct (cachePools_drop (cache_ st) [] ld taken Hc)
      as (ld' & Hc' & Hle & _).
    destruct (totalWeight cfg taken =? 0).
    + exists rest, [], ld. simpl. tw_norm.
      repeat split; auto; try congruence; try lia; try tauto.
    + exists rest, [], ld'. simpl. tw_norm. tw_nonneg.
      repeat split; auto; try congruence; try lia; try tauto.
  - destruct (Hnt eq_refl) as [Hcs ->].
    destruct (cache_ st) as [|o d] eqn:Hcache.
    { unfold step, getNextBatchInternal_pool in Hs. unfold poolOf in Hs.
      rewrite Hth, Hcache in Hs. simpl in Hs.
      destruct (size_ <? 0); discriminate. }
    destruct (step_GetNextBatch st st' size_ rand e lo Hpool Hs)
      as (_ & _ & taken & rest & Hp & _ & _ & _ & Hst).
    cbv zeta in Hst. destruct Hst as [-> ->]. clear Hs. rewrite Hth.
    pose proof (totalWeight_Permutation cfg _ _ Hp) as Htw.
    simpl in Hc. injection Hc as -> ->.
    unfold stream in *. rewrite Hcs in *. rewrite Hcache.
    assert (Hload : loading st = None).
    { destruct (loading st); [|reflexivity].
      destruct Hl as [Hl _]; congruence. }
    rewrite Hload in *. tw_norm. tw_nonneg.
    cbn [cache_store].
    destruct (accumulate cfg 0 taken =? 0).
    + exists [], rest, ld. simpl. rewrite Hd. tw_norm.
      repeat split; auto; try congruence; try lia; try tauto.
    + exists [], rest, (ld ++ taken). simpl.
      rewrite CacheOnePassInMemory_drop_app, map_app, Hd. tw_norm.
      repeat split; auto; try congruence; try lia; try tauto.
Qed.

Lemma Inv_step (st st' : PyDataProvider2 Sample) a e :
  Inv cfg st -> boundedAction cfg a -> step cfg st a = Some (st', e) ->
  Inv cfg st'.
Proof.
  intros HI Hb Hs. destruct a.
  - eapply Inv_LoadRead; eauto.
  - eapply Inv_LoadPush; eauto.
  - eapply Inv_GetNextBatch; eauto.
  - eapply Inv_Reset; eauto.
Qed.

End ScheduleProperties.

Section CapacityProperties.

Context {Sample : Type}.
Variable cfg : Config Sample.

Lemma Inv_run (sched : list (action Sample)) :
  forall st st' es,
    Inv cfg st -> boundedSchedule cfg sched ->
    run cfg st sched = Some (st', es) -> Inv cfg st'.
Proof.
  induction sched as [|a sched IH]; intros st st' es HI Hb Hr; simpl in Hr.
  - injection Hr as <- <-. assumption.
  - destruct (step cfg st a) as [[st1 e]|] eqn:Hs; [|discriminate].
    destruct (run cfg st1 sched) as [[st2 es2]|] eqn:Hr2; [|discriminate].
    injection Hr as <- <-. inversion Hb; subst.
    apply (IH st1 st2 es2); auto. eapply Inv_step; eauto.
Qed.

Lemma Inv_start (ct : CacheType) (uninit : Z) (generators : list (list Sample))
  (st0 : PyDataProvider2 Sample) :
  totalWeight cfg (concat generators) < SIZE_MOD ->
  resetImpl true generators (PyDataProvider2_ctor ct uninit) = Ok st0 ->
  Inv cfg st0
  /\ st0 = {| loadThread_ := true;
              callingContexts_ := generators;
              dataPool_ := [];
              poolActualSize_ := 0;
              cache_ := IPyDataProviderCache_create ct;
              loading := None |}.
Proof.
  intros Hg Hr.
  assert (st0 = {| loadThread_ := true;
                   callingContexts_ := generators;
                   dataPool_ := [];
                   poolActualSize_ := 0;
                   cache_ := IPyDataProviderCache_create ct;
                   loading := None |}) as ->.
  { destruct ct; simpl in Hr; injection Hr as <-; reflexivity. }
  split; [|reflexivity].
  exists [], [], []. unfold stream. simpl.
  repeat split; auto; try congruence; try lia.
  destruct ct; reflexivity.
Qed.

(** How an action moves [poolActualSize_]. *)
Lemma step_poolActualSize (st st' : PyDataProvider2 Sample) a e :
  Inv cfg st -> step cfg st a = Some (st', e) ->
  0 <= poolActualSize_ st
  /\ match e with
     | Pushed data =>
         pushReady cfg (poolActualSize_ st) (batchSizeOf cfg data) = true
         /\ poolActualSize_ st'
            = size_add (poolActualSize_ st) (batchSizeOf cfg data)
     | Restarted _ => poolActualSize_ st' = 0
     | _ => 0 <= poolActualSize_ st' <= poolActualSize_ st
     end.
Proof.
  intros HI Hs.
  pose proof HI as (l & lo & ld & Hd & Hc & Ha & Hb & Hl & Hnt & Ht).
  pose proof (totalWeight_nonneg cfg l) as Hl0.
  split; [lia|].
  destruct a.
  - apply step_LoadRead in Hs.
    destruct Hs as (_ & _ & c1 & ctx & c2 & _ & _ & Hctx).
    destruct ctx; destruct Hctx as [-> ->]; simpl; lia.
  - apply step_LoadPush in Hs.
    destruct Hs as (data & _ & _ & Hp & -> & ->). simpl. auto.
  - assert (He : exists n r b, e = Batch n r b /\ 0 <= poolActualSize_ st'
                               /\ poolActualSize_ st' <= poolActualSize_ st).
    { pose proof (poolOf_Inv st l lo ld Hd Hc) as Hpool.
      destruct (loadThread_ st) eqn:Hth.
      - destruct (step_GetNextBatch cfg st st' size_ rand e l Hpool Hs)
          as (_ & _ & taken & rest & Hp & _ & _ & _ & Hst).
        cbv zeta in Hst. destruct Hst as [-> ->]. do 3 eexists.
        split; [reflexivity|]. cbn [poolActualSize_]. rewrite Hth.
        pose proof (totalWeight_Permutation cfg _ _ Hp) as Htw.
        unfold stream in Hb.
        rewrite !totalWeight_app in *.
        pose proof (totalWeight_nonneg cfg taken).
        pose proof (totalWeight_nonneg cfg rest).
        pose proof (totalWeight_nonneg cfg (optList (loading st))).
        pose proof (totalWeight_nonneg cfg (concat (callingContexts_ st))).
        pose proof (totalWeight_nonneg cfg lo).
        pose proof (totalWeight_nonneg cfg ld).
        rewrite accumulate_totalWeight, Ha, size_sub_small by lia. lia.
      - destruct (cache_ st) as [|o d] eqn:Hcache.
        { unfold step, getNextBatchInternal_pool in Hs. unfold poolOf in Hs.
          rewrite Hth, Hcache in Hs. simpl in Hs.
          destruct (size_ <? 0); discriminate. }
        destruct (step_GetNextBatch cfg st st' size_ rand e lo Hpool Hs)
          as (_ & _ & taken & rest & Hp & _ & _ & _ & Hst).
        cbv zeta in Hst. destruct Hst as [-> ->]. do 3 eexists.
        split; [reflexivity|]. cbn [poolActualSize_]. rewrite Hth. lia. }
    destruct He as (n & r & b & -> & H1 & H2). lia.
  - apply step_Reset in Hs. destruct Hs as (reload & c & _ & -> & ->).
    reflexivity.
Qed.

Lemma lastPush_cons (prev : option Sample) (e : event Sample) es :
  lastPush prev (e :: es)
  = lastPush (match e with Pushed s => Some s | _ => prev end) es.
Proof. reflexivity. Qed.

(** The bound on [poolActualSize_], carried along a run. *)
Lemma run_capacity (sched : list (action Sample)) :
  0 <= poolSize_ cfg ->
  forall st st' es prev,
    Inv cfg st -> boundedSchedule cfg sched ->
    (canOverBatchSize_ cfg = false -> poolActualSize_ st <= poolSize_ cfg) ->
    (canOverBatchSize_ cfg = true ->
     poolActualSize_ st <= poolSize_ cfg
     \/ exists data, prev = Some data
                     /\ poolActualSize_ st < poolSize_ cfg + batchSizeOf cfg data) ->
    run cfg st sched = Some (st', es) ->
    (canOverBatchSize_ cfg = false -> poolActualSize_ st' <= poolSize_ cfg)
    /\ (canOverBatchSize_ cfg = true ->
        poolActualSize_ st' <= poolSize_ cfg
        \/ exists data, lastPush prev es = Some data
                        /\ poolActualSize_ st'
                           < poolSize_ cfg + batchSizeOf cfg data).
Proof.
  intros Hcap.
  induction sched as [|a sched IH]; intros st st' es prev HI Hb Hstrict Hlen Hr;
    simpl in Hr.
  - injection Hr as <- <-. auto.
  - destruct (step cfg st a) as [[st1 e]|] eqn:Hs; [|discriminate].
    destruct (run cfg st1 sched) as [[st2 es2]|] eqn:Hr2; [|discriminate].
    injection Hr as <- <-. inversion Hb as [|? ? Hba Hbs]; subst.
    rewrite lastPush_cons.
    pose proof (Inv_step cfg st st1 a e HI Hba Hs) as HI1.
    destruct (step_poolActualSize st st1 a e HI Hs) as [H0 He].
    apply (IH st1 st2 es2 _ HI1 Hbs); [| |assumption].
    + intros Hc. specialize (Hstrict Hc).
      destruct e; try lia.
      destruct He as [Hp ->]. unfold pushReady in Hp. rewrite Hc in Hp.
      apply Z.ltb_lt in Hp. lia.
    + intros Hc. specialize (Hlen Hc).
      destruct e as [d| |d|n r b|t].
      * destruct Hlen as [Hle|(x & Hx & Hlt)]; [left; lia|right].
        exists x. split; [assumption|lia].
      * destruct Hlen as [Hle|(x & Hx & Hlt)]; [left; lia|right].
        exists x. split; [assumption|lia].
      * right. exists d. split; [reflexivity|].
        destruct He as [Hp ->]. unfold pushReady in Hp. rewrite Hc in Hp.
        apply Z.ltb_lt in Hp.
        pose proof (batchSizeOf_range cfg d).
        pose proof (size_add_le (poolActualSize_ st) (batchSizeOf cfg d)).
        lia.
      * destruct Hlen as [Hle|(x & Hx & Hlt)]; [left; lia|right].
        exists x. split; [assumption|lia].
      * left. lia.
Qed.

(** C5 (as amended): from the first reset on, whatever the loading thread
    and the consumer do and however often the provider is reset, provided
    the weights of the samples of each pass sum to less than [2 ^ 64], so
    that no sum on [size_t] wraps around: in strict mode [poolActualSize_]
    never exceeds the pool size; when the batch size may be exceeded it
    exceeds the pool size by less than the weight of the last sample
    pushed. *)
Theorem poolActualSize_bounded (ct : CacheType) (uninit : Z)
  (generators : list (list Sample)) (sched : list (action Sample))
  (st0 st : PyDataProvider2 Sample) (es : list (event Sample)) :
  0 <= poolSize_ cfg ->
  totalWeight cfg (concat generators) < SIZE_MOD ->
  boundedSchedule cfg sched ->
  resetImpl true generators (PyDataProvider2_ctor ct uninit) = Ok st0 ->
  run cfg st0 sched = Some (st, es) ->
  (canOverBatchSize_ cfg = false -> poolActualSize_ st <= poolSize_ cfg)
  /\ (canOverBatchSize_ cfg = true ->
      poolActualSize_ st <= poolSize_ cfg
      \/ exists data,
           lastPush None es = Some data
           /\ poolActualSize_ st < poolSize_ cfg + batchSizeOf cfg data).
Proof.
  intros Hcap Hg Hb H0 Hr.
  destruct (Inv_start ct uninit generators st0 Hg H0) as [HI ->].
  apply (run_capacity sched Hcap _ _ _ None HI Hb); [| |assumption];
    cbn [poolActualSize_]; intros _; [lia|left; lia].
Qed.

End CapacityProperties.

(** ** Order of delivery without shuffling *)

Section FifoProperties.

Context {Sample : Type}.
Variable cfg : Config Sample.

Lemma serialEvents_app (r1 r2 : list Z) :
  forall l : list Sample,
    serialEvents cfg (r1 ++ r2) l
    = serialEvents cfg r1 l ++ serialEvents cfg r2 (serialRest cfg r1 l).
Proof.
  induction r1 as [|n r1 IH]; intros l; [reflexivity|].
  cbn [app serialEvents serialRest].
  destruct (fifo_take cfg (to_size_t n) 0 l) as [[t r] b].
  rewrite IH. reflexivity.
Qed.

Lemma serialRest_app (r1 r2 : list Z) :
  forall l : list Sample,
    serialRest cfg (r1 ++ r2) l = serialRest cfg r2 (serialRest cfg r1 l).
Proof.
  induction r1 as [|n r1 IH]; intros l; [reflexivity|].
  cbn [app serialRest].
  destruct (fifo_take cfg (to_size_t n) 0 l) as [[t r] b].
  apply IH.
Qed.

Lemma length_serialEvents (sizes : list Z) :
  forall l : list Sample, length (serialEvents cfg sizes l) = length sizes.
Proof.
  induction sizes as [|n sizes IH]; intros l; [reflexivity|].
  cbn [serialEvents]. destruct (fifo_take cfg (to_size_t n) 0 l) as [[t r] b].
  simpl. now rewrite IH.
Qed.

Lemma batchEvents_app (es1 es2 : list (event Sample)) :
  batchEvents (es1 ++ es2) = batchEvents es1 ++ batchEvents es2.
Proof. apply filter_app. Qed.

Lemma requests_app (es1 es2 : list (event Sample)) :
  requests (es1 ++ es2) = requests es1 ++ requests es2.
Proof. apply flat_map_app. Qed.

Lemma batches_app (es1 es2 : list (event Sample)) :
  batches (es1 ++ es2) = batches es1 ++ batches es2.
Proof. apply flat_map_app. Qed.

Lemma batches_batchEvents (es : list (event Sample)) :
  batches (batchEvents es) = batches es.
Proof.
  induction es as [|e es IH]; [reflexivity|].
  destruct e; simpl; auto. now rewrite <- IH.
Qed.

Lemma requests_batchEvents (es : list (event Sample)) :
  requests (batchEvents es) = requests es.
Proof.
  induction es as [|e es IH]; [reflexivity|].
  destruct e; simpl; auto. now rewrite <- IH.
Qed.

Lemma length_batchEvents (es : list (event Sample)) :
  length (batchEvents es) = length (requests es).
Proof.
  induction es as [|e es IH]; [reflexivity|].
  destruct e; simpl; auto.
Qed.

Lemma batches_nil_batchEvents (es : list (event Sample)) :
  batches es = [] -> batchEvents es = [].
Proof.
  induction es as [|e es IH]; [reflexivity|].
  destruct e; simpl; auto. discriminate.
Qed.

(** One action of a pass without shuffling leaves the samples still to be
    delivered as they are, but for a batch, which is the one a call on the
    whole stream returns. *)
Lemma step_fifo (st st1 : PyDataProvider2 Sample) a e (l : list Sample) :
  skipShuffle_ cfg = true ->
  Inv cfg st -> loadThread_ st = true -> dataPool_ st = map Some l ->
  noReset [a] ->
  step cfg st a = Some (st1, e) ->
  loadThread_ st1 = true
  /\ exists l1,
       dataPool_ st1 = map Some l1
       /\ batchEvents [e] = serialEvents cfg (requests [e]) (stream st l)
       /\ stream st1 l1 = serialRest cfg (requests [e]) (stream st l).
Proof.
  intros Hskip HI Hth Hd Hnr Hs.
  destruct HI as (l0 & lo & ld & Hd0 & Hc & Ha & Hb & Hl & Hnt & Ht).
  rewrite Hd in Hd0. apply map_Some_inj in Hd0. subst l0.
  destruct a.
  - apply step_LoadRead in Hs.
    destruct Hs as (_ & Hload & c1 & ctx & c2 & Hcs & Hc1 & Hctx).
    rewrite (Hc1 Hskip) in *. cbn [app] in *.
    unfold stream. rewrite Hcs, Hload.
    destruct ctx as [|data rest]; destruct Hctx as [-> ->];
      (split; [reflexivity|]); exists l; cbn; auto.
  - apply step_LoadPush in Hs.
    destruct Hs as (data & Hload & _ & _ & -> & ->).
    split; [reflexivity|]. exists (l ++ [data]).
    unfold stream. rewrite Hload. cbn. rewrite Hd, map_app, <- app_assoc.
    auto.
  - assert (Hpool : poolOf st = Some (map Some l)).
    { unfold poolOf. now rewrite Hth, Hd. }
    destruct (step_GetNextBatch cfg st st1 size_ rand e l Hpool Hs)
      as (Hpos & Hready & taken & rest & Hp & Hfifo & Hstop & _ & Hst).
    cbv zeta in Hst. destruct Hst as [-> ->].
    specialize (Hfifo Hskip). specialize (Hready Hth).
    cbn [loadThread_ dataPool_]. rewrite Hth.
    split; [reflexivity|]. exists rest. split; [reflexivity|].
    assert (Htail : to_size_t size_ <= accumulate cfg 0 taken
                    \/ optList (loading st) ++ concat (callingContexts_ st) = []).
    { unfold pullReady in Hready. apply orb_true_iff in Hready.
      destruct Hready as [Hge|Hemp].
      - left. apply Z.leb_le in Hge.
        destruct Hstop as [Hle|Hnil]; [assumption|]. subst rest.
        apply fifo_take_spec in Hfifo. destruct Hfifo as [Happ _].
        rewrite app_nil_r in Happ. subst taken.
        unfold stream in Hb. rewrite !totalWeight_app in Hb.
        pose proof (totalWeight_nonneg cfg l).
        pose proof (totalWeight_nonneg cfg (optList (loading st))).
        pose proof (totalWeight_nonneg cfg (concat (callingContexts_ st))).
        pose proof (totalWeight_nonneg cfg lo).
        pose proof (totalWeight_nonneg cfg ld).
        rewrite accumulate_totalWeight by lia. lia.
      - right. destruct (callingContexts_ st) eqn:Hcs; [|discriminate].
        destruct (loading st) eqn:Hload; [|reflexivity].
        destruct Hl as [Hl _]; congruence. }
    pose proof (fifo_take_app cfg (to_size_t size_) _ l 0 _ _ _ Hfifo Htail)
      as Happ.
    unfold stream. cbn [requests flat_map app serialEvents serialRest
                         batchEvents filter loading callingContexts_].
    rewrite Happ. auto.
  - inversion Hnr as [|? ? Hf _]. destruct Hf.
Qed.

Lemma run_fifo (sched : list (action Sample)) :
  skipShuffle_ cfg = true ->
  forall st st' es l,
    Inv cfg st -> loadThread_ st = true -> dataPool_ st = map Some l ->
    noReset sched ->
    run cfg st sched = Some (st', es) ->
    batchEvents es = serialEvents cfg (requests es) (stream st l).
Proof.
  intros Hskip.
  induction sched as [|a sched IH]; intros st st' es l HI Hth Hd Hnr Hr;
    simpl in Hr.
  - injection Hr as <- <-. reflexivity.
  - destruct (step cfg st a) as [[st1 e]|] eqn:Hs; [|discriminate].
    destruct (run cfg st1 sched) as [[st2 es2]|] eqn:Hr2; [|discriminate].
    injection Hr as <- <-. inversion Hnr as [|? ? Ha Hnr']; subst.
    assert (Hnr1 : noReset [a]) by (constructor; [assumption|constructor]).
    destruct (step_fifo st st1 a e l Hskip HI Hth Hd Hnr1 Hs)
      as (Hth1 & l1 & Hd1 & He & Hrest).
    assert (HI1 : Inv cfg st1).
    { eapply Inv_step; eauto. destruct a; simpl; auto. destruct Ha. }
    specialize (IH st1 st2 es2 l1 HI1 Hth1 Hd1 Hnr' Hr2).
    change (e :: es2) with ([e] ++ es2).
    rewrite batchEvents_app, requests_app, serialEvents_app.
    rewrite He, IH, Hrest. reflexivity.
Qed.

(** With the default weight a call takes the samples it counts. *)
Lemma fifo_take_default (size : Z) :
  calcBatchSize_ cfg = None -> size < SIZE_MOD ->
  forall (l : list Sample) b taken rest b',
    0 <= b ->
    fifo_take cfg size b l = (taken, rest, b') ->
    b' = b + Z.of_nat (length taken).
Proof.
  intros Hdef Hsize.
  induction l as [|s l IH]; intros b taken rest b' Hb H; simpl in H.
  - injection H as <- <- <-. simpl. lia.
  - destruct (Z.ltb_spec b size).
    + destruct (fifo_take cfg size (size_add b (batchSizeOf cfg s)) l)
        as [[t r] b1] eqn:Hf.
      injection H as <- <- <-.
      unfold batchSizeOf in Hf. rewrite Hdef in Hf.
      rewrite size_add_small in Hf by lia.
      apply IH in Hf; [|lia]. cbn [length]. lia.
    + injection H as <- <- <-. simpl. lia.
Qed.

Lemma serial_count (sizes : list Z) :
  calcBatchSize_ cfg = None ->
  forall l : list Sample,
    (sampleCount (serialEvents cfg sizes l) + length (serialRest cfg sizes l)
     = length l)%nat.
Proof.
  intros Hdef. unfold sampleCount.
  induction sizes as [|n sizes IH]; intros l; [reflexivity|].
  cbn [serialEvents serialRest].
  destruct (fifo_take cfg (to_size_t n) 0 l) as [[t r] b] eqn:Hf.
  pose proof (fifo_take_default (to_size_t n) Hdef
                (proj2 (to_size_t_range n)) l 0 t r b ltac:(lia) Hf) as Hb.
  apply fifo_take_spec in Hf. destruct Hf as [<- _].
  cbn [batches flat_map app concat].
  rewrite length_app, length_app.
  specialize (IH r). unfold batches in IH.
  destruct (Z.eqb_spec b 0) as [E|E].
  - assert (t = []) as -> by (destruct t; [reflexivity|simpl in Hb; lia]).
    simpl. lia.
  - rewrite length_map. lia.
Qed.

End FifoProperties.

Section Unshuffled.

Context {Sample : Type}.

Lemma app_eq_length {A} (a b c d : list A) :
  length a = length c -> a ++ b = c ++ d -> a = c /\ b = d.
Proof.
  revert c; induction a as [|x a IH]; intros [|y c] Hlen H; simpl in *;
    try discriminate; auto.
  injection H as -> H. destruct (IH c) as [-> ->]; auto.
Qed.

Lemma batchEvents_split (cfg : Config Sample) (es es1 es2 : list (event Sample))
  (e : event Sample) (l : list Sample) :
  batchEvents es = serialEvents cfg (requests es) l ->
  es = es1 ++ e :: es2 ->
  batchEvents es1 = serialEvents cfg (requests es1) l
  /\ batchEvents (e :: es2)
     = serialEvents cfg (requests (e :: es2)) (serialRest cfg (requests es1) l).
Proof.
  intros Hb ->.
  rewrite batchEvents_app, requests_app, serialEvents_app in Hb.
  apply app_eq_length in Hb; [assumption|].
  rewrite length_serialEvents. apply length_batchEvents.
Qed.

Lemma sampleCount_batchEvents (es : list (event Sample)) :
  sampleCount (batchEvents es) = sampleCount es.
Proof. unfold sampleCount. now rewrite batches_batchEvents. Qed.

(** C9: with shuffling off the index sampler always returns 0 and the pool
    is drained from the front, so the batches of a pass depend on nothing
    but what the generators yield and on the sizes asked for: two runs
    over the same generator outputs whose calls ask for the same sizes
    return the same batches, sample for sample, with the same return
    values, whatever the interleaving with the loading thread, the cache
    strategy and the capacity policy (weights not overflowing [size_t]).
    With a pool size of 4 and two generators of three samples of weight 1
    each, the first call of size 2 returns the first two samples of the
    first generator in order, a call made once six samples have been
    delivered returns the empty batch, and there is a schedule that
    delivers the six samples two by two and then the empty batch. *)
Theorem unshuffled_batches_deterministic :
  (forall dist len : Z, PositionRandom true dist len = 0)
  /\ (forall (cfg : Config Sample) (ct1 ct2 : CacheType) (u1 u2 : Z)
        (generators : list (list Sample)) (sched1 sched2 : list (action Sample))
        (start1 start2 st1 st2 : PyDataProvider2 Sample)
        (es1 es2 : list (event Sample)),
        skipShuffle_ cfg = true ->
        totalWeight cfg (concat generators) < SIZE_MOD ->
        resetImpl true generators (PyDataProvider2_ctor ct1 u1) = Ok start1 ->
        resetImpl true generators (PyDataProvider2_ctor ct2 u2) = Ok start2 ->
        noReset sched1 -> noReset sched2 ->
        run cfg start1 sched1 = Some (st1, es1) ->
        run cfg start2 sched2 = Some (st2, es2) ->
        requests es1 = requests es2 ->
        batchEvents es1 = batchEvents es2 /\ batches es1 = batches es2)
  /\ (forall (a1 a2 a3 b1 b2 b3 : Sample) (canOver : bool) (ct : CacheType)
        (u : Z),
        let cfg := {| skipShuffle_ := true; poolSize_ := 4;
                      canOverBatchSize_ := canOver; calcBatchSize_ := None |} in
        let start := {| loadThread_ := true;
                        callingContexts_ := [[a1; a2; a3]; [b1; b2; b3]];
                        dataPool_ := [];
                        poolActualSize_ := 0;
                        cache_ := IPyDataProviderCache_create ct;
                        loading := None |} in
        resetImpl true [[a1; a2; a3]; [b1; b2; b3]] (PyDataProvider2_ctor ct u)
        = Ok start
        /\ (forall sched st es es1 es2 result samples,
              noReset sched ->
              run cfg start sched = Some (st, es) ->
              es = es1 ++ Batch 2 result samples :: es2 ->
              batches es1 = [] ->
              result = 2 /\ samples = [Some a1; Some a2])
        /\ (forall sched st es es1 es2 size_ result samples,
              noReset sched ->
              run cfg start sched = Some (st, es) ->
              es = es1 ++ Batch size_ result samples :: es2 ->
              sampleCount es1 = 6%nat ->
              result = 0 /\ samples = [])
        /\ (forall rand,
              exists st es,
                run cfg start
                  [LoadRead 0; LoadPush; LoadRead 0; LoadPush;
                   GetNextBatch 2 rand;
                   LoadRead 0; LoadPush; LoadRead 0; LoadRead 0; LoadPush;
                   GetNextBatch 2 rand;
                   LoadRead 0; LoadPush; LoadRead 0; LoadPush; LoadRead 0;
                   GetNextBatch 2 rand;
                   GetNextBatch 2 rand]
                = Some (st, es)
                /\ batches es = [[Some a1; Some a2]; [Some a3; Some b1];
                                 [Some b2; Some b3]; []])).
Proof.
  split; [reflexivity|].
  split.
  { intros cfg ct1 ct2 u1 u2 generators sched1 sched2 start1 start2 st1 st2
      es1 es2 Hskip Hg H1 H2 Hn1 Hn2 Hr1 Hr2 Hreq.
    destruct (Inv_start cfg ct1 u1 generators start1 Hg H1) as [HI1 ->].
    destruct (Inv_start cfg ct2 u2 generators start2 Hg H2) as [HI2 ->].
    pose proof (run_fifo cfg sched1 Hskip _ _ _ [] HI1 eq_refl eq_refl Hn1 Hr1)
      as Hb1.
    pose proof (run_fifo cfg sched2 Hskip _ _ _ [] HI2 eq_refl eq_refl Hn2 Hr2)
      as Hb2.
    unfold stream in Hb1, Hb2. cbn [loading callingContexts_ optList app] in *.
    assert (Hev : batchEvents es1 = batchEvents es2) by congruence.
    split; [assumption|].
    rewrite <- (batches_batchEvents es1), <- (batches_batchEvents es2).
    now rewrite Hev. }
  intros a1 a2 a3 b1 b2 b3 canOver ct u cfg start.
  assert (Hstart : resetImpl true [[a1; a2; a3]; [b1; b2; b3]]
                     (PyDataProvider2_ctor ct u) = Ok start)
    by (destruct ct; reflexivity).
  assert (Hg : totalWeight cfg (concat [[a1; a2; a3]; [b1; b2; b3]]) < SIZE_MOD)
    by reflexivity.
  destruct (Inv_start cfg ct u _ start Hg Hstart) as [HI _].
  assert (Hserial : forall sched st es,
             noReset sched -> run cfg start sched = Some (st, es) ->
             batchEvents es
             = serialEvents cfg (requests es) [a1; a2; a3; b1; b2; b3]).
  { intros sched st es Hn Hr.
    apply (run_fifo cfg sched eq_refl _ _ _ [] HI eq_refl eq_refl Hn Hr). }
  split; [exact Hstart|].
  split.
  { intros sched st es es1 es2 result samples Hn Hr Hes Hnone.
    destruct (batchEvents_split cfg es es1 es2 _ _ (Hserial _ _ _ Hn Hr) Hes)
      as [_ H2].
    apply batches_nil_batchEvents in Hnone.
    pose proof (length_batchEvents es1) as Hlen. rewrite Hnone in Hlen.
    destruct (requests es1); [|discriminate].
    cbn in H2. injection H2 as -> -> _. auto. }
  split.
  { intros sched st es es1 es2 size_ result samples Hn Hr Hes Hcount.
    destruct (batchEvents_split cfg es es1 es2 _ _ (Hserial _ _ _ Hn Hr) Hes)
      as [H1 H2].
    pose proof (serial_count cfg (requests es1) eq_refl
                  [a1; a2; a3; b1; b2; b3]) as Hc.
    rewrite <- H1, sampleCount_batchEvents, Hcount in Hc. simpl in Hc.
    destruct (serialRest cfg (requests es1) [a1; a2; a3; b1; b2; b3]);
      [|simpl in Hc; lia].
    cbn in H2. injection H2 as -> -> _. auto. }
  intros rand.
  destruct ct, canOver; do 2 eexists; (split; [vm_compute; reflexivity|]);
    reflexivity.
Qed.

End Unshuffled.

(** ** Replaying a cached pass *)

Section CachedPass.

Context {Sample : Type}.
Variable cfg : Config Sample.
Hypothesis weights_positive : forall s : Sample, 0 < batchSizeOf cfg s.

Lemma totalWeight_zero (l : list Sample) : totalWeight cfg l = 0 -> l = [].
Proof.
  destruct l as [|s l]; [reflexivity|]. intros H. exfalso.
  rewrite totalWeight_cons in H.
  pose proof (weights_positive s). pose proof (totalWeight_nonneg cfg l). lia.
Qed.

Lemma sampleCount_cons_other (e : event Sample) es :
  (forall n r b, e <> Batch n r b) -> sampleCount (e :: es) = sampleCount es.
Proof.
  intros H. unfold sampleCount. destruct e; simpl; auto.
  exfalso. eapply H. reflexivity.
Qed.

Lemma sampleCount_cons_Batch n r (b : deque Sample) es :
  sampleCount (Batch n r b :: es) = (length b + sampleCount es)%nat.
Proof. unfold sampleCount. simpl. now rewrite length_app. Qed.

(** What a call returns when nothing overflows and no weight is 0: the
    samples it took off the pool, all of them. *)
Lemma batch_is_taken (taken : list Sample) :
  totalWeight cfg taken < SIZE_MOD ->
  (if accumulate cfg 0 taken =? 0 then [] else map (@Some Sample) taken)
  = map Some taken
  /\ accumulate cfg 0 taken = totalWeight cfg taken.
Proof.
  intros Hb. pose proof (totalWeight_nonneg cfg taken).
  rewrite accumulate_totalWeight by lia. split; [|lia].
  destruct (Z.eqb_spec (0 + totalWeight cfg taken) 0) as [E|E]; [|reflexivity].
  rewrite (totalWeight_zero taken) by lia. reflexivity.
Qed.

Lemma length_concat_mid (c1 c2 : list (list Sample)) (x : list Sample) :
  length (concat (c1 ++ x :: c2))
  = (length (concat c1) + length x + length (concat c2))%nat.
Proof. rewrite concat_app, length_app. simpl. rewrite length_app. lia. Qed.

Lemma length_concat_app (c1 c2 : list (list Sample)) :
  length (concat (c1 ++ c2)) = (length (concat c1) + length (concat c2))%nat.
Proof. now rewrite concat_app, length_app. Qed.

(** One action of the first pass: the samples not yet delivered and those
    collected by the cache are, together, as many as before. *)
Lemma step_collect (st st1 : PyDataProvider2 Sample) a e (l ld : list Sample) :
  Inv cfg st -> loadThread_ st = true -> dataPool_ st = map Some l ->
  cache_ st = CacheOnePassInMemory [] (map Some ld) ->
  noReset [a] ->
  step cfg st a = Some (st1, e) ->
  loadThread_ st1 = true
  /\ exists l1 ld1,
       dataPool_ st1 = map Some l1
       /\ cache_ st1 = CacheOnePassInMemory [] (map Some ld1)
       /\ length ld1 = (length ld + sampleCount [e])%nat
       /\ (length (stream st1 l1) + length ld1
           = length (stream st l) + length ld)%nat.
Proof.
  intros HI Hth Hd Hcache Hnr Hs.
  destruct HI as (l0 & lo & ld0 & Hd0 & Hc & Ha & Hb & Hl & Hnt & Ht).
  rewrite Hd in Hd0. apply map_Some_inj in Hd0. subst l0.
  rewrite Hcache in Hc. simpl in Hc. injection Hc as Hlo Hld.
  destruct lo; [|discriminate]. apply map_Some_inj in Hld. subst ld0.
  destruct a.
  - apply step_LoadRead in Hs.
    destruct Hs as (_ & Hload & c1 & ctx & c2 & Hcs & _ & Hctx).
    unfold stream. rewrite Hcs, Hload.
    destruct ctx as [|data rest]; destruct Hctx as [-> ->];
      (split; [reflexivity|]); exists l, ld; cbn [dataPool_ cache_ loading
        callingContexts_ optList];
      rewrite ?length_app, ?length_concat_mid, ?length_concat_app;
      repeat split; auto; simpl; lia.
  - apply step_LoadPush in Hs.
    destruct Hs as (data & Hload & _ & _ & -> & ->).
    split; [reflexivity|]. exists (l ++ [data]), ld.
    unfold stream. rewrite Hload.
    cbn [dataPool_ cache_ loading callingContexts_ optList].
    rewrite Hd, map_app, ?length_app.
    repeat split; auto; simpl; lia.
  - assert (Hpool : poolOf st = Some (map Some l)).
    { unfold poolOf. now rewrite Hth, Hd. }
    destruct (step_GetNextBatch cfg st st1 size_ rand e l Hpool Hs)
      as (_ & _ & taken & rest & Hp & _ & _ & _ & Hst).
    cbv zeta in Hst. destruct Hst as [-> ->].
    pose proof (totalWeight_Permutation cfg _ _ Hp) as Htw.
    unfold stream in Hb. rewrite !totalWeight_app in *.
    pose proof (totalWeight_nonneg cfg taken).
    pose proof (totalWeight_nonneg cfg rest).
    pose proof (totalWeight_nonneg cfg (optList (loading st))).
    pose proof (totalWeight_nonneg cfg (concat (callingContexts_ st))).
    pose proof (totalWeight_nonneg cfg ld).
    destruct (batch_is_taken taken) as [Hbatch Hacc]; [simpl in Hb; lia|].
    unfold deque, PyObjectPtr in *.
    rewrite Hbatch. cbn [loadThread_ dataPool_ cache_]. rewrite Hth, Hcache.
    split; [reflexivity|]. exists rest, (ld ++ taken).
    split; [reflexivity|].
    split.
    { destruct (accumulate cfg 0 taken =? 0) eqn:E.
      - apply Z.eqb_eq in E. rewrite Hacc in E.
        rewrite (totalWeight_zero taken E), app_nil_r. reflexivity.
      - simpl. rewrite CacheOnePassInMemory_drop_app, map_app. reflexivity. }
    rewrite sampleCount_cons_Batch. unfold sampleCount, stream. simpl.
    apply Permutation_length in Hp.
    rewrite ?length_app, ?length_map in *. lia.
  - inversion Hnr as [|? ? Hf _]. destruct Hf.
Qed.

Lemma noReset_bounded (sched : list (action Sample)) :
  noReset sched -> boundedSchedule cfg sched.
Proof.
  induction 1 as [|a sched Ha _ IH]; constructor; auto.
  destruct a; simpl; auto. destruct Ha.
Qed.

Lemma sampleCount_app1 (e : event Sample) es :
  sampleCount (e :: es) = (sampleCount [e] + sampleCount es)%nat.
Proof.
  unfold sampleCount. change (e :: es) with ([e] ++ es).
  now rewrite batches_app, concat_app, length_app.
Qed.

Lemma run_collect (sched : list (action Sample)) :
  forall st st' es l ld,
    Inv cfg st -> loadThread_ st = true -> dataPool_ st = map Some l ->
    cache_ st = CacheOnePassInMemory [] (map Some ld) ->
    noReset sched ->
    run cfg st sched = Some (st', es) ->
    loadThread_ st' = true
    /\ exists l' ld',
         dataPool_ st' = map Some l'
         /\ cache_ st' = CacheOnePassInMemory [] (map Some ld')
         /\ length ld' = (length ld + sampleCount es)%nat
         /\ (length (stream st' l') + length ld'
             = length (stream st l) + length ld)%nat.
Proof.
  induction sched as [|a sched IH]; intros st st' es l ld HI Hth Hd Hc Hnr Hr;
    simpl in Hr.
  - injection Hr as <- <-. split; [assumption|]. exists l, ld.
    unfold sampleCount. simpl. repeat split; auto.
  - destruct (step cfg st a) as [[st1 e]|] eqn:Hs; [|discriminate].
    destruct (run cfg st1 sched) as [[st2 es2]|] eqn:Hr2; [|discriminate].
    injection Hr as <- <-. inversion Hnr as [|? ? Ha Hnr']; subst.
    assert (Hnr1 : noReset [a]) by (constructor; [assumption|constructor]).
    destruct (step_collect st st1 a e l ld HI Hth Hd Hc Hnr1 Hs)
      as (Hth1 & l1 & ld1 & Hd1 & Hc1 & Hlen1 & Hcnt1).
    assert (HI1 : Inv cfg st1).
    { eapply Inv_step; eauto. destruct a; simpl; auto. destruct Ha. }
    destruct (IH st1 st2 es2 l1 ld1 HI1 Hth1 Hd1 Hc1 Hnr' Hr2)
      as (Hth2 & l2 & ld2 & Hd2 & Hc2 & Hlen2 & Hcnt2).
    split; [assumption|]. exists l2, ld2.
    rewrite sampleCount_app1. repeat split; auto; lia.
Qed.

(** One action of a later pass: only the consumer can act; its call moves
    what it takes from the replay buffer to the collected buffer. *)
Lemma step_replay (st st1 : PyDataProvider2 Sample) a e (lo ld : list Sample) :
  Inv cfg st -> loadThread_ st = false ->
  cache_ st = CacheOnePassInMemory (map Some lo) (map Some ld) ->
  noReset [a] ->
  step cfg st a = Some (st1, e) ->
  loadThread_ st1 = false
  /\ exists size_ result taken rest,
       e = Batch size_ result (map Some taken)
       /\ 0 <= size_
       /\ cache_ st1 = CacheOnePassInMemory (map Some rest) (map Some (ld ++ taken))
       /\ Permutation (taken ++ rest) lo
       /\ (to_size_t size_ <= totalWeight cfg taken \/ rest = [])
       /\ (forall front back, taken = front ++ back -> back <> [] ->
           totalWeight cfg front < to_size_t size_).
Proof.
  intros HI Hth Hcache Hnr Hs.
  destruct HI as (l0 & lo0 & ld0 & Hd0 & Hc & Ha & Hb & Hl & Hnt & Ht).
  rewrite Hcache in Hc. simpl in Hc. injection Hc as Hlo Hld.
  apply map_Some_inj in Hlo. apply map_Some_inj in Hld. subst lo0 ld0.
  destruct a.
  - apply step_LoadRead in Hs. destruct Hs as [Hs _]. congruence.
  - apply step_LoadPush in Hs. destruct Hs as (? & _ & Hs & _). congruence.
  - assert (Hpool : poolOf st = Some (map Some lo)).
    { unfold poolOf. now rewrite Hth, Hcache. }
    destruct (step_GetNextBatch cfg st st1 size_ rand e lo Hpool Hs)
      as (Hpos & _ & taken & rest & Hp & _ & Hstop & Hpre & Hst).
    cbv zeta in Hst. destruct Hst as [-> ->].
    pose proof (totalWeight_Permutation cfg _ _ Hp) as Htw.
    rewrite !totalWeight_app in *.
    pose proof (totalWeight_nonneg cfg taken).
    pose proof (totalWeight_nonneg cfg rest).
    pose proof (totalWeight_nonneg cfg (stream st l0)).
    pose proof (totalWeight_nonneg cfg ld).
    destruct (batch_is_taken taken) as [Hbatch Hacc]; [lia|].
    unfold deque, PyObjectPtr in *.
    rewrite Hbatch, Hacc in *. cbn [loadThread_ cache_]. rewrite Hth, Hcache.
    split; [reflexivity|]. exists size_. eexists. exists taken, rest.
    split; [reflexivity|]. split; [assumption|].
    split.
    { cbn [cache_store].
      destruct (totalWeight cfg taken =? 0) eqn:E.
      - apply Z.eqb_eq in E.
        rewrite (totalWeight_zero taken E), app_nil_r. reflexivity.
      - cbn [cache_drop].
        rewrite CacheOnePassInMemory_drop_app, map_app. reflexivity. }
    split; [assumption|]. split; [assumption|].
    intros front back -> Hback.
    specialize (Hpre front back eq_refl Hback).
    rewrite totalWeight_app in *.
    pose proof (totalWeight_nonneg cfg front).
    pose proof (totalWeight_nonneg cfg back).
    rewrite accumulate_totalWeight in Hpre; lia.
  - inversion Hnr as [|? ? Hf _]. destruct Hf.
Qed.

Lemma run_replay (sched : list (action Sample)) :
  forall st st' es lo ld,
    Inv cfg st -> loadThread_ st = false ->
    cache_ st = CacheOnePassInMemory (map Some lo) (map Some ld) ->
    noReset sched ->
    run cfg st sched = Some (st', es) ->
    loadThread_ st' = false
    /\ pulls es = [] /\ pushes es = []
    /\ (sampleCount es <= length lo)%nat
    /\ (forall es0 size_ result es1,
          es = es0 ++ Batch size_ result [] :: es1 ->
          1 <= size_ < 2 ^ 63 ->
          sampleCount es0 = length lo).
Proof.
  induction sched as [|a sched IH]; intros st st' es lo ld HI Hth Hc Hnr Hr;
    simpl in Hr.
  - injection Hr as <- <-. unfold sampleCount. simpl.
    repeat split; auto; try lia.
    intros es0 ? ? ? H. destruct es0; discriminate.
  - destruct (step cfg st a) as [[st1 e]|] eqn:Hs; [|discriminate].
    destruct (run cfg st1 sched) as [[st2 es2]|] eqn:Hr2; [|discriminate].
    injection Hr as <- <-. inversion Hnr as [|? ? Ha Hnr']; subst.
    assert (Hnr1 : noReset [a]) by (constructor; [assumption|constructor]).
    destruct (step_replay st st1 a e lo ld HI Hth Hc Hnr1 Hs)
      as (Hth1 & n & r & taken & rest & -> & Hn & Hc1 & Hp & Hstop & Hpre).
    assert (HI1 : Inv cfg st1).
    { eapply Inv_step; eauto. destruct a; simpl; auto. destruct Ha. }
    destruct (IH st1 st2 es2 rest (ld ++ taken) HI1 Hth1 Hc1 Hnr' Hr2)
      as (Hth2 & Hpull & Hpush & Hle & Hdrain).
    apply Permutation_length in Hp. rewrite length_app in Hp.
    rewrite sampleCount_cons_Batch, length_map.
    split; [assumption|].
    split; [exact Hpull|]. split; [exact Hpush|]. split; [lia|].
    intros es0 size_ result es1 Hes Hsize.
    destruct es0 as [|e0 es0]; cbn [app] in Hes.
    + injection Hes as -> -> Htaken _.
      destruct taken; [|discriminate].
      unfold sampleCount. simpl.
      destruct Hstop as [Hs0| ->]; [|simpl in Hp; lia].
      rewrite to_size_t_small in Hs0 by (unfold SIZE_MOD; lia).
      rewrite totalWeight_nil in Hs0. lia.
    + injection Hes as <- Hes.
      rewrite sampleCount_cons_Batch, length_map.
      rewrite (Hdrain es0 size_ result es1 Hes Hsize). lia.
Qed.

Lemma run_cons (st st1 st' : PyDataProvider2 Sample) a e sched es :
  step cfg st a = Some (st1, e) ->
  run cfg st1 sched = Some (st', es) ->
  run cfg st (a :: sched) = Some (st', e :: es).
Proof. intros Hs Hr. simpl. now rewrite Hs, Hr. Qed.

Lemma step_GetNextBatch_enabled (st : PyDataProvider2 Sample) size_ rand
  (l : list Sample) :
  0 <= size_ -> loadThread_ st = false -> poolOf st = Some (map Some l) ->
  exists st1 result samples,
    step cfg st (GetNextBatch size_ rand)
    = Some (st1, Batch size_ result samples).
Proof.
  intros Hsize Hth Hpool.
  destruct (getNextBatchInternal_pool_spec cfg rand size_ st l Hsize Hpool)
    as (taken & rest & _ & _ & _ & _ & _ & Heq).
  cbv zeta in Heq. unfold step. rewrite Hth. cbn [negb orb]. rewrite Heq.
  cbn [outcome_to_option]. do 3 eexists. reflexivity.
Qed.

(** Calls of size 1, one more than the replay buffer holds samples, take
    them one by one. *)
Lemma replay_drains (rand : nat -> Z) :
  forall (n : nat) (lo ld : list Sample) st,
    n = length lo ->
    Inv cfg st -> loadThread_ st = false ->
    cache_ st = CacheOnePassInMemory (map Some lo) (map Some ld) ->
    exists st' es,
      run cfg st (repeat (GetNextBatch 1 rand) (S n)) = Some (st', es)
      /\ sampleCount es = n.
Proof.
  induction n as [|n IH]; intros lo ld st Hn HI Hth Hc.
  - destruct lo; [|discriminate].
    assert (Hpool : poolOf st = Some (map Some [])).
    { unfold poolOf. now rewrite Hth, Hc. }
    destruct (step_GetNextBatch_enabled st 1 rand [] ltac:(lia) Hth Hpool)
      as (st1 & r & b & Hs).
    assert (Hnr1 : @noReset Sample [GetNextBatch 1 rand])
      by (unfold noReset; constructor; [exact I|constructor]).
    destruct (step_replay st st1 _ _ [] ld HI Hth Hc Hnr1 Hs)
      as (_ & sz & r' & taken & rest & He & _ & _ & Hp & _).
    apply Permutation_sym, Permutation_nil, app_eq_nil in Hp.
    destruct Hp as [-> ->]. injection He as _ _ ->.
    exists st1, [Batch 1 r []]. split; [|reflexivity].
    cbn [repeat]. apply (run_cons st st1 st1 _ _ [] []); [exact Hs|reflexivity].
  - assert (Hpool : poolOf st = Some (map Some lo)).
    { unfold poolOf. now rewrite Hth, Hc. }
    destruct (step_GetNextBatch_enabled st 1 rand lo ltac:(lia) Hth Hpool)
      as (st1 & r & b & Hs).
    assert (Hnr1 : @noReset Sample [GetNextBatch 1 rand])
      by (unfold noReset; constructor; [exact I|constructor]).
    destruct (step_replay st st1 _ _ lo ld HI Hth Hc Hnr1 Hs)
      as (Hth1 & sz & r' & taken & rest & He & _ & Hc1 & Hp & Hstop & Hpre).
    injection He as <- _ ->.
    rewrite to_size_t_small in * by (unfold SIZE_MOD; lia).
    assert (Hone : length taken = 1%nat).
    { destruct taken as [|x taken].
      - exfalso. rewrite totalWeight_nil in Hstop.
        destruct Hstop as [Hle| ->]; [lia|].
        apply Permutation_length in Hp. simpl in Hp. lia.
      - destruct taken as [|y taken]; [reflexivity|]. exfalso.
        specialize (Hpre [x] (y :: taken) eq_refl ltac:(discriminate)).
        rewrite totalWeight_cons, totalWeight_nil in Hpre.
        pose proof (weights_positive x). lia. }
    assert (Hrest : n = length rest).
    { apply Permutation_length in Hp. rewrite length_app in Hp. lia. }
    assert (HI1 : Inv cfg st1) by (eapply Inv_step; eauto; exact I).
    destruct (IH rest (ld ++ taken) st1 Hrest HI1 Hth1 Hc1)
      as (st' & es & Hr & Hcount).
    exists st', (Batch 1 r (map Some taken) :: es).
    split.
    + cbn [repeat]. apply (run_cons st st1 st'); assumption.
    + rewrite sampleCount_cons_Batch, length_map. lia.
Qed.

(** C6 (as amended): under the cache-one-pass-in-memory strategy, with
    weights that are positive and do not overflow, take a first pass that
    is complete (no generator left, the pool empty) and has delivered at
    least one sample.  It has delivered every sample the generators
    yielded.  A reset then starts no loading thread and creates no
    generator; whatever is done afterwards within that pass, the thread
    stays absent, nothing is pulled or pushed, no more samples are
    delivered than in the first pass, and a call of positive size returns
    the empty batch only once as many samples have been delivered as in the
    first pass; and calls of size 1 do deliver that many. *)
Theorem cache_pass_replayed (uninit : Z) (generators : list (list Sample))
  (sched1 : list (action Sample)) (start st1 : PyDataProvider2 Sample)
  (es1 : list (event Sample)) :
  totalWeight cfg (concat generators) < SIZE_MOD ->
  concat generators <> [] ->
  resetImpl true generators (PyDataProvider2_ctor CACHE_PASS_IN_MEM uninit)
  = Ok start ->
  noReset sched1 ->
  run cfg start sched1 = Some (st1, es1) ->
  callingContexts_ st1 = [] ->
  dataPool_ st1 = [] ->
  sampleCount es1 = length (concat generators)
  /\ forall generators',
       exists st2,
         step cfg st1 (Reset generators') = Some (st2, Restarted false)
         /\ loadThread_ st2 = false
         /\ callingContexts_ st2 = []
         /\ (forall sched2 st3 es2,
               noReset sched2 ->
               run cfg st2 sched2 = Some (st3, es2) ->
               loadThread_ st3 = false
               /\ pulls es2 = [] /\ pushes es2 = []
               /\ (sampleCount es2 <= sampleCount es1)%nat
               /\ (forall es0 size_ result es',
                     es2 = es0 ++ Batch size_ result [] :: es' ->
                     1 <= size_ < 2 ^ 63 ->
                     sampleCount es0 = sampleCount es1))
         /\ (forall rand,
               exists st3 es2,
                 run cfg st2 (repeat (GetNextBatch 1 rand) (S (sampleCount es1)))
                 = Some (st3, es2)
                 /\ sampleCount es2 = sampleCount es1).
Proof.
  intros Hg Hne Hstart Hnr Hr Hctx Hpool.
  destruct (Inv_start cfg CACHE_PASS_IN_MEM uninit generators start Hg Hstart)
    as [HI ->].
  destruct (run_collect sched1 _ st1 es1 [] [] HI eq_refl eq_refl eq_refl Hnr Hr)
    as (Hth1 & l1 & ld1 & Hd1 & Hc1 & Hlen & Hcnt).
  pose proof (Inv_run cfg sched1 _ _ _ HI (noReset_bounded sched1 Hnr) Hr) as HI1.
  rewrite Hpool in Hd1. destruct l1; [|discriminate].
  assert (Hload : loading st1 = None).
  { destruct HI1 as (? & ? & ? & _ & _ & _ & _ & Hl & _).
    destruct (loading st1); [|reflexivity].
    destruct Hl as [Hl _]; congruence. }
  unfold stream in Hcnt. rewrite Hctx, Hload in Hcnt.
  cbn [loading callingContexts_ optList app concat length] in Hcnt.
  simpl in Hlen.
  assert (Hcount : sampleCount es1 = length (concat generators)) by lia.
  split; [exact Hcount|].
  intros generators'.
  assert (Hld : ld1 <> []).
  { intros ->. simpl in Hcnt. destruct (concat generators); [congruence|].
    discriminate. }
  set (st2 := {| loadThread_ := false;
                 callingContexts_ := [];
                 dataPool_ := [];
                 poolActualSize_ := 0;
                 cache_ := CacheOnePassInMemory (map Some ld1) [];
                 loading := None |}).
  assert (Hstep : step cfg st1 (Reset generators') = Some (st2, Restarted false)).
  { unfold step. rewrite Hload, orb_true_r. unfold resetImpl.
    rewrite Hc1. cbn [cache_reset]. unfold CacheOnePassInMemory_reset.
    destruct ld1; [congruence|]. reflexivity. }
  assert (HI2 : Inv cfg st2).
  { destruct HI1 as (l & lo & ld & _ & Hc & _ & Hb & _).
    rewrite Hc1 in Hc. simpl in Hc. injection Hc as Hlo Hldd.
    apply map_Some_inj in Hldd. subst ld.
    exists [], ld1, []. unfold stream. simpl.
    pose proof (totalWeight_nonneg cfg (stream st1 l)).
    pose proof (totalWeight_nonneg cfg lo).
    repeat split; auto; try congruence; try lia. }
  exists st2. split; [exact Hstep|]. split; [reflexivity|].
  split; [reflexivity|]. split.
  - intros sched2 st3 es2 Hnr2 Hr2.
    destruct (run_replay sched2 st2 st3 es2 ld1 [] HI2 eq_refl eq_refl Hnr2 Hr2)
      as (Hth3 & Hpull & Hpush & Hle & Hdrain).
    repeat split; auto; try lia.
    intros es0 size_ result es' Hes Hsize.
    rewrite (Hdrain es0 size_ result es' Hes Hsize). lia.
  - intros rand.
    destruct (replay_drains rand (length ld1) ld1 [] st2 eq_refl HI2 eq_refl
                eq_refl) as (st3 & es2 & Hr2 & Hc2).
    exists st3, es2. replace (sampleCount es1) with (length ld1) by lia.
    split; [exact Hr2|lia].
Qed.

End CachedPass.


(** ** Field scanners *)

Section SparseProperties.

Context {double real : Type}.
Variable castInt_wide : Z -> Z.
Variable to_real : double -> real.
Variable int_to_double : Z -> double.
Variable junk_real : real.
Variable junk_int : Z.

Local Abbreviation PyObj := (PyObject double).
Local Abbreviation Arg := (Argument real).

Lemma to_int_small z : - 2 ^ 31 <= z < 2 ^ 31 -> to_int z = z.
Proof. unfold to_int. intros. rewrite Z.mod_small; lia. Qed.

Lemma int_add_small a b :
  - 2 ^ 31 <= a + b < 2 ^ 31 -> int_add a b = a + b.
Proof. unfold int_add. apply to_int_small. Qed.

Lemma sumZ_app (l1 l2 : list Z) : sumZ (l1 ++ l2) = sumZ l1 + sumZ l2.
Proof. induction l1; simpl; lia. Qed.

Lemma elemCount_nonneg (obj : PyObj) : 0 <= elemCount obj.
Proof. unfold elemCount. lia. Qed.

Lemma sumZ_elemCount_nonneg (objs : list PyObj) : 0 <= sumZ (map elemCount objs).
Proof.
  induction objs as [|o objs IH]; simpl; [lia|].
  pose proof (elemCount_nonneg o). lia.
Qed.

(** *** Running sums *)

Lemma length_offsetsFrom (start : Z) (counts : list Z) :
  length (offsetsFrom start counts) = length counts.
Proof. revert start; induction counts; intros; simpl; auto. Qed.



Lemma offsetsFrom_app (c1 c2 : list Z) :
  forall start,
    offsetsFrom start (c1 ++ c2)
    = offsetsFrom start c1 ++ offsetsFrom (start + sumZ c1) c2.
Proof.
  induction c1 as [|c c1 IH]; intros start; simpl.
  - now rewrite Z.add_0_r.
  - rewrite IH. do 3 f_equal. lia.
Qed.

(** *** The prepare phase of a sparse scanner *)

Lemma sparseSampleOk_items (wv : bool) (obj : PyObj) :
  sparseSampleOk wv obj = true ->
  obj = PySeq (itemsOf obj)
  /\ forallb (sparseItemOk wv) (itemsOf obj) = true.
Proof. destruct obj; simpl; try discriminate. auto. Qed.

Lemma size_small (s : list PyObj) :
  Z.of_nat (length s) < SIZE_MOD -> size s = Z.of_nat (length s).
Proof. intros. unfold size. apply to_size_t_small. lia. Qed.


(** *** The fill phase of a sparse scanner *)

Lemma read_at_0 {A} (x : A) (l : list A) : read_at (x :: l) 0 = Ok x.
Proof. reflexivity. Qed.

Lemma read_at_1 {A} (x y : A) (l : list A) : read_at (x :: y :: l) 1 = Ok y.
Proof. reflexivity. Qed.

Lemma sparseItemOk_setData (wv : bool) (item : PyObj) (n : Z)
  (C JC : list Z) (j : Z) (V JV : list real) (jv : real) :
  sparseItemOk wv item = true ->
  Z.of_nat (length C) = n ->
  (wv = true -> length V = length C) ->
  setData castInt_wide to_real int_to_double wv n (C ++ j :: JC)
    (sparseValues wv (V ++ jv :: JV)) item
  = Ok (C ++ colOf castInt_wide wv item :: JC,
        sparseValues wv (V ++ valOf to_real int_to_double junk_real item :: JV)).
Proof.
  intros Hok Hn HV. unfold setData, SparseNonValueScanner_setData.
  destruct wv; cbn [sparseItemOk colOf sparseValues] in *.
  - destruct item as [| |[|[z| |] [|[z'|d|] rest]]]; try discriminate;
      cbn [SequenceHelper bind castInt valOf];
      rewrite read_at_0; cbn [bind castInt];
      (rewrite (write_at_mid C) by lia); cbn [bind];
      unfold getDouble;
      rewrite read_at_1; cbn [bind];
      (rewrite (write_at_mid V) by (rewrite HV by reflexivity; lia));
      reflexivity.
  - destruct item; try discriminate. cbn [castInt].
    rewrite (write_at_mid C) by lia. reflexivity.
Qed.

Lemma repeat_add {A} (x : A) (n m : nat) :
  repeat x (n + m) = repeat x n ++ repeat x m.
Proof. apply repeat_app. Qed.

Lemma setData_loop (wv : bool) :
  forall (items : list PyObj) (C : list Z) (V : list real)
         (tailC : list Z) (tailV : list real) (n : Z),
    forallb (sparseItemOk wv) items = true ->
    Z.of_nat (length C) = n ->
    (wv = true -> length V = length C) ->
    n + Z.of_nat (length items) < SIZE_MOD ->
    for_each items
      (fun '(n, cs, vs) item =>
         '(cs', vs') <- setData castInt_wide to_real int_to_double wv n cs vs item ;;
         Ok (size_add n 1, cs', vs'))
      (n, C ++ repeat junk_int (length items) ++ tailC,
       sparseValues wv (V ++ repeat junk_real (length items) ++ tailV))
    = Ok (n + Z.of_nat (length items),
          (C ++ map (colOf castInt_wide wv) items) ++ tailC,
          sparseValues wv
            ((V ++ map (valOf to_real int_to_double junk_real) items) ++ tailV)).
Proof.
  induction items as [|item items IH]; intros C V tailC tailV n Hok Hn HV Hb.
  - simpl. rewrite !app_nil_r, Z.add_0_r. reflexivity.
  - cbn [forallb] in Hok. apply andb_true_iff in Hok. destruct Hok as [Hitem Hok].
    cbn [length repeat app for_each] in *.
    rewrite (sparseItemOk_setData wv item n C _ junk_int V _ junk_real Hitem Hn HV).
    cbn [bind].
    rewrite size_add_small by lia.
    replace (C ++ colOf castInt_wide wv item :: repeat junk_int (length items) ++ tailC)
      with ((C ++ [colOf castInt_wide wv item]) ++ repeat junk_int (length items) ++ tailC)
      by (rewrite <- app_assoc; reflexivity).
    replace (V ++ valOf to_real int_to_double junk_real item
               :: repeat junk_real (length items) ++ tailV)
      with ((V ++ [valOf to_real int_to_double junk_real item])
              ++ repeat junk_real (length items) ++ tailV)
      by (rewrite <- app_assoc; reflexivity).
    rewrite IH.
    + cbn [map]. rewrite <- !app_assoc. cbn [app].
      do 3 f_equal. lia.
    + assumption.
    + rewrite length_app. simpl. lia.
    + intros Hw. rewrite !length_app, (HV Hw). reflexivity.
    + lia.
Qed.

Lemma snoc_app {A} (l : list A) (x : A) (m : list A) :
  l ++ x :: m = (l ++ [x]) ++ m.
Proof. now rewrite <- app_assoc. Qed.

Lemma allItems_cons (obj : PyObj) (objs : list PyObj) :
  allItems (obj :: objs) = itemsOf obj ++ allItems objs.
Proof. reflexivity. Qed.





Lemma length_allItems (objs : list PyObj) :
  Z.of_nat (length (allItems objs)) = sumZ (map elemCount objs).
Proof.
  induction objs as [|o objs IH]; [reflexivity|].
  rewrite allItems_cons, length_app. cbn [map sumZ]. unfold elemCount at 1. lia.
Qed.


End SparseProperties.

(** ** Encoding a slot of any kind *)

Section EncodeProperties.

Context {double real : Type}.
Variable castInt_wide : Z -> Z.
Variable to_real : double -> real.
Variable int_to_double : Z -> double.
Variable junk_real : real.
Variable junk_int : Z.

Local Abbreviation PyObj := (PyObject double).
Local Abbreviation Arg := (Argument real).
Local Abbreviation aFill' := (aFill castInt_wide to_real int_to_double junk_real junk_int).
Local Abbreviation aAlloc' := (aAlloc junk_real junk_int).
Local Abbreviation fill' := (fill castInt_wide to_real int_to_double).
Local Abbreviation valOf' := (valOf to_real int_to_double junk_real).
Local Abbreviation numberOf' := (numberOf to_real int_to_double junk_real).
Local Abbreviation denseRow' := (denseRow to_real int_to_double junk_real).

(** A loop whose state after the samples [p], with [q] to come, is
    [state p q], goes through a segment of the samples. *)
Lemma for_each_segment {A S : Type} (body : S -> A -> outcome S)
  (state : list A -> list A -> S) (all : list A) :
  (forall p x q, p ++ x :: q = all ->
                 body (state p (x :: q)) x = Ok (state (p ++ [x]) q)) ->
  forall mid p q,
    p ++ mid ++ q = all ->
    for_each mid body (state p (mid ++ q)) = Ok (state (p ++ mid) q).
Proof.
  intros Hstep. induction mid as [|x mid IH]; intros p q Hall.
  - simpl. now rewrite app_nil_r.
  - cbn [for_each app]. rewrite Hstep by exact Hall. cbn [bind].
    rewrite IH.
    + now rewrite <- app_assoc.
    + rewrite <- app_assoc. exact Hall.
Qed.

Lemma startPrepare_id (sc : IFieldScanner) :
  forall (c : Counters) (a : Arg), startPrepare sc c a = Ok (c, a).
Proof.
  induction sc as [| | | |inner IH sel]; intros c a; try reflexivity.
  destruct c; try reflexivity. cbn [startPrepare]. now rewrite IH.
Qed.

Lemma finishFill_id (sc : IFieldScanner) :
  forall (c : Counters) (a : Arg), finishFill sc c a = Ok (c, a).
Proof.
  induction sc as [| | | |inner IH sel]; intros c a; try reflexivity.
  destruct c; try reflexivity. cbn [finishFill]. now rewrite IH.
Qed.

(** *** Arrays of offsets are written by one scanner only *)

Lemma setSeqStartPos_twice (sel : SeqStartPos) (a : Arg) (v w : list Z) :
  setSeqStartPos sel (setSeqStartPos sel a v) w = setSeqStartPos sel a w.
Proof. destruct sel; reflexivity. Qed.

Lemma setSeqStartPos_swap (s1 s2 : SeqStartPos) (a : Arg) (v w : list Z) :
  s1 <> s2 ->
  setSeqStartPos s1 (setSeqStartPos s2 a v) w
  = setSeqStartPos s2 (setSeqStartPos s1 a w) v.
Proof. destruct s1, s2; intros H; try congruence; reflexivity. Qed.

Lemma getSeqStartPos_set (sel : SeqStartPos) (a : Arg) (v : list Z) :
  getSeqStartPos sel (setSeqStartPos sel a v) = Some v.
Proof. destruct sel; reflexivity. Qed.

Lemma getSeqStartPos_set_other (s1 s2 : SeqStartPos) (a : Arg) (v : list Z) :
  s1 <> s2 ->
  getSeqStartPos s1 (setSeqStartPos s2 a v) = getSeqStartPos s1 a.
Proof. destruct s1, s2; intros H; try congruence; reflexivity. Qed.

Lemma aFill_set (sel : SeqStartPos) (sc : IFieldScanner) :
  notUses sel sc ->
  forall p q (a : Arg) v,
    setSeqStartPos sel (aFill' sc p q a) v
    = aFill' sc p q (setSeqStartPos sel a v).
Proof.
  induction sc as [| | | |inner IH sel']; intros Hn p q a v;
    try (destruct sel; reflexivity).
  destruct Hn as [Hne Hn]. cbn [aFill].
  rewrite IH by assumption.
  rewrite setSeqStartPos_swap by congruence. reflexivity.
Qed.

Lemma aFill_get (sel : SeqStartPos) (sc : IFieldScanner) :
  notUses sel sc ->
  forall p q (a : Arg),
    getSeqStartPos sel (aFill' sc p q a) = getSeqStartPos sel a.
Proof.
  induction sc as [| | | |inner IH sel']; intros Hn p q a;
    try (destruct sel; reflexivity).
  destruct Hn as [Hne Hn]. cbn [aFill].
  rewrite IH by assumption.
  apply getSeqStartPos_set_other. congruence.
Qed.

Lemma aAlloc_set (sel : SeqStartPos) (sc : IFieldScanner) :
  notUses sel sc ->
  forall (objs : list PyObj) (a : Arg) v,
    setSeqStartPos sel (aAlloc' sc objs a) v
    = aAlloc' sc objs (setSeqStartPos sel a v).
Proof.
  induction sc as [| | | |inner IH sel']; intros Hn objs a v;
    try (destruct sel; reflexivity).
  destruct Hn as [Hne Hn]. cbn [aAlloc].
  rewrite IH by assumption.
  rewrite setSeqStartPos_swap by congruence. reflexivity.
Qed.

Lemma aAlloc_get (sel : SeqStartPos) (sc : IFieldScanner) :
  notUses sel sc ->
  forall (objs : list PyObj) (a : Arg),
    getSeqStartPos sel (aAlloc' sc objs a) = getSeqStartPos sel a.
Proof.
  induction sc as [| | | |inner IH sel']; intros Hn objs a;
    try (destruct sel; reflexivity).
  destruct Hn as [Hne Hn]. cbn [aAlloc].
  rewrite IH by assumption.
  apply getSeqStartPos_set_other. congruence.
Qed.

(** *** Counting *)

Lemma allItems_app (l1 l2 : list PyObj) :
  allItems (l1 ++ l2) = allItems l1 ++ allItems l2.
Proof. apply flat_map_app. Qed.

Lemma allItems_snoc (l : list PyObj) (items : list PyObj) :
  allItems (l ++ [PySeq items]) = allItems l ++ items.
Proof. rewrite allItems_app. cbn. now rewrite app_nil_r. Qed.

Lemma sumZ_map_app {A} (f : A -> Z) (l1 l2 : list A) :
  sumZ (map f (l1 ++ l2)) = sumZ (map f l1) + sumZ (map f l2).
Proof. now rewrite map_app, sumZ_app. Qed.

Lemma sumZ_map_nonneg {A} (f : A -> Z) (l : list A) :
  (forall x, 0 <= f x) -> 0 <= sumZ (map f l).
Proof.
  intros Hf. induction l as [|x l IH]; simpl; [lia|].
  specialize (Hf x). lia.
Qed.

Lemma innerCount_nonneg (inner : IFieldScanner) :
  forall obj : PyObj, 0 <= innerCount inner obj.
Proof.
  induction inner as [| | | |inner2 IH sel]; intros obj;
    try apply elemCount_nonneg.
  cbn [innerCount]. apply sumZ_map_nonneg. exact IH.
Qed.

Lemma wellFormed_allItems (inner : IFieldScanner) (sel : SeqStartPos)
  (objs : list PyObj) :
  Forall (wellFormed (SequenceScanner inner sel)) objs ->
  Forall (wellFormed inner) (allItems objs).
Proof.
  induction 1 as [|obj objs (items & -> & Hitems) _ IH]; [constructor|].
  rewrite allItems_cons. cbn [itemsOf]. apply Forall_app. auto.
Qed.

(** What the size probe of a sequence scanner returns. *)
Lemma getSize_innerCount (inner : IFieldScanner) :
  forall (obj : PyObj) (items : list PyObj),
    obj = PySeq items ->
    Forall (wellFormed inner) items ->
    innerCount inner obj < SIZE_MOD ->
    getSize inner obj = Ok (innerCount inner obj).
Proof.
  induction inner as [h|h|h|h|inner2 IH sel]; intros obj items -> Hwf Hb;
    try (cbn [getSize SequenceHelper bind innerCount] in *;
         unfold elemCount in *; cbn [itemsOf] in *;
         rewrite size_small by lia; reflexivity).
  cbn [getSize SequenceHelper bind innerCount itemsOf] in *.
  assert (Hgen : forall acc,
             0 <= acc ->
             acc + sumZ (map (innerCount inner2) items) < SIZE_MOD ->
             for_each items
               (fun sum item => n <- getSize inner2 item ;; Ok (size_add sum n))
               acc
             = Ok (acc + sumZ (map (innerCount inner2) items))).
  { clear Hb. induction Hwf as [|item items (sub & -> & Hsub) _ IHl];
      intros acc Hacc Hb.
    - simpl. now rewrite Z.add_0_r.
    - cbn [map sumZ for_each] in *.
      pose proof (innerCount_nonneg inner2 (PySeq sub)).
      pose proof (sumZ_map_nonneg (innerCount inner2) items
                    (innerCount_nonneg inner2)).
      rewrite (IH (PySeq sub) sub eq_refl Hsub) by lia.
      cbn [bind]. rewrite size_add_small by lia.
      rewrite IHl by lia. f_equal. lia. }
  rewrite Hgen by lia. reflexivity.
Qed.

(** *** The prepare phase *)

Lemma inRange_length (sc : IFieldScanner) (objs : list PyObj) :
  inRange sc objs -> Z.of_nat (length objs) + 1 < SIZE_MOD.
Proof.
  destruct sc; cbn [inRange]; intros H; try tauto.
  destruct H as [Hd H]. nia.
Qed.

Lemma prepare_step (sc : IFieldScanner) :
  forall all : list PyObj,
    Forall (wellFormed sc) all -> inRange sc all ->
    forall p obj q (a : Arg),
      p ++ obj :: q = all ->
      prepare sc (cPrep sc p) a obj = Ok (cPrep sc (p ++ [obj]), a).
Proof.
  induction sc as [h|h|h|h|inner IH sel]; intros all Hwf Hr p obj q a Hall;
    pose proof (inRange_length _ _ Hr) as Hlen;
    assert (Hobj : wellFormed _ obj)
      by (rewrite Forall_forall in Hwf; apply Hwf; subst all;
          apply in_elt);
    subst all; rewrite length_app in Hlen; cbn [length] in Hlen;
    cbn [prepare cPrep].
  - rewrite size_add_small, length_app by lia. cbn [length].
    do 3 f_equal. lia.
  - rewrite size_add_small, length_app by lia. cbn [length].
    do 3 f_equal. lia.
  - cbn [wellFormed inRange] in *. destruct Hr as [Hs _].
    destruct obj as [| |items]; try discriminate.
    rewrite !sumZ_map_app in *. cbn [map sumZ] in *.
    pose proof (sumZ_elemCount_nonneg p). pose proof (sumZ_elemCount_nonneg q).
    pose proof (elemCount_nonneg (PySeq items)).
    assert (2 ^ 31 < SIZE_MOD) by (unfold SIZE_MOD; lia).
    cbn [SequenceHelper bind]. unfold elemCount in *. cbn [itemsOf] in *.
    rewrite size_small, !size_add_small, length_app by lia. cbn [length].
    do 3 f_equal; lia.
  - cbn [wellFormed inRange] in *. destruct Hr as [Hs _].
    destruct obj as [| |items]; try discriminate.
    rewrite !sumZ_map_app in *. cbn [map sumZ] in *.
    pose proof (sumZ_elemCount_nonneg p). pose proof (sumZ_elemCount_nonneg q).
    pose proof (elemCount_nonneg (PySeq items)).
    assert (2 ^ 31 < SIZE_MOD) by (unfold SIZE_MOD; lia).
    cbn [SequenceHelper bind]. unfold elemCount in *. cbn [itemsOf] in *.
    rewrite size_small, !size_add_small, length_app by lia. cbn [length].
    do 3 f_equal; lia.
  - destruct Hobj as (items & -> & Hitems).
    cbn [SequenceHelper bind]. destruct Hr as (_ & _ & Hin).
    pose proof (wellFormed_allItems inner sel _ Hwf) as Hwfi.
    pose proof (for_each_segment
                  (fun '(ci, a) item => prepare inner ci a item)
                  (fun P (_ : list PyObj) => (cPrep inner P, a))
                  (allItems (p ++ PySeq items :: q))) as Hseg.
    cbv beta in Hseg.
    rewrite (Hseg (fun P x Q HP => IH _ Hwfi Hin P x Q a HP)
               items (allItems p) (allItems q)).
    + cbn [bind]. rewrite size_add_small, allItems_snoc, length_app by lia.
      cbn [length]. do 3 f_equal. lia.
    + rewrite allItems_app, allItems_cons. reflexivity.
Qed.

Lemma prepare_loop (sc : IFieldScanner) (objs : list PyObj) (a : Arg) :
  Forall (wellFormed sc) objs -> inRange sc objs ->
  for_each objs (fun '(c, a) obj => prepare sc c a obj)
    (cPrep sc (@nil PyObj), a)
  = Ok (cPrep sc objs, a).
Proof.
  intros Hwf Hr.
  pose proof (for_each_segment
                (fun '(c, a) obj => prepare sc c a obj)
                (fun p (_ : list PyObj) => (cPrep sc p, a)) objs) as Hseg.
  cbv beta in Hseg.
  apply (Hseg (fun p x q Hp => prepare_step sc objs Hwf Hr p x q a Hp)
           objs [] []).
  now rewrite app_nil_r.
Qed.

(** *** Between the phases *)

Lemma finishPrepare_alloc (sc : IFieldScanner) :
  forall (objs : list PyObj) (a : Arg),
    inRange sc objs ->
    finishPrepare junk_real junk_int sc (cPrep sc objs) a
    = Ok (cAlloc sc objs, aAlloc' sc objs a).
Proof.
  induction sc as [h|h|h|h|inner IH sel]; intros objs a Hr; try reflexivity.
  cbn [finishPrepare cPrep cAlloc aAlloc].
  destruct Hr as (_ & Hlen & Hin).
  rewrite size_add_small by lia.
  rewrite IH by assumption. reflexivity.
Qed.

Lemma repeat_S_front {A} (x : A) (n : Z) :
  0 <= n -> repeat x (Z.to_nat (n + 1)) = x :: repeat x (Z.to_nat n).
Proof.
  intros Hn. rewrite Z2Nat.inj_add by lia. rewrite Nat.add_comm. reflexivity.
Qed.

Lemma write_at_0 {A} (x y : A) (l : list A) :
  write_at (x :: l) 0 y = Ok (y :: l).
Proof. reflexivity. Qed.

Lemma startFill_alloc (sc : IFieldScanner) :
  wellNested sc ->
  forall (objs : list PyObj) (a : Arg),
    inRange sc objs ->
    startFill sc (cAlloc sc objs) (aAlloc' sc objs a)
    = Ok (cFill sc (@nil PyObj), aFill' sc [] objs a).
Proof.
  induction sc as [h|h|h|h|inner IH sel]; intros Hn objs a Hr.
  - cbn [startFill cAlloc aAlloc cFill aFill length flat_map app].
    unfold Matrix_resizeOrCreate, alloc. destruct Hr as [Hd _].
    rewrite Z2Nat.inj_mul, Nat2Z.id by lia. reflexivity.
  - cbn [startFill cAlloc aAlloc cFill aFill length map app].
    unfold IVector_resizeOrCreate, alloc. rewrite Nat2Z.id. reflexivity.
  - cbn [startFill cAlloc aAlloc cFill aFill value setValue].
    unfold Matrix_resizeOrCreateSparseMatrix, sparseMatrixOf, alloc.
    rewrite repeat_S_front by lia. rewrite Nat2Z.id.
    rewrite read_at_0 || idtac.
    unfold write_at. cbn [length Z.leb Z.ltb andb Z.to_nat list_set bind].
    reflexivity.
  - cbn [startFill cAlloc aAlloc cFill aFill value setValue].
    unfold Matrix_resizeOrCreateSparseMatrix, sparseMatrixOf, alloc.
    rewrite repeat_S_front by lia. rewrite Nat2Z.id.
    unfold write_at. cbn [length Z.leb Z.ltb andb Z.to_nat list_set bind].
    reflexivity.
  - destruct Hn as [Hnu Hn]. destruct Hr as (_ & Hlen & Hin).
    cbn [startFill cAlloc aAlloc cFill aFill].
    rewrite aAlloc_get, getSeqStartPos_set by assumption.
    unfold IVector_resizeOrCreate, alloc.
    rewrite repeat_S_front by lia. rewrite Nat2Z.id.
    rewrite write_at_0. cbn [bind].
    rewrite aAlloc_set, setSeqStartPos_twice by assumption.
    rewrite IH by assumption. reflexivity.
Qed.

(** *** Writing the next offset *)

Lemma offsetsFrom_snoc (cs : list Z) (c : Z) :
  0 :: offsetsFrom 0 (cs ++ [c]) = (0 :: offsetsFrom 0 cs) ++ [sumZ cs + c].
Proof.
  rewrite offsetsFrom_app. cbn [offsetsFrom app]. rewrite Z.add_0_l.
  reflexivity.
Qed.

Lemma offsets_last_form (cs : list Z) :
  exists R, 0 :: offsetsFrom 0 cs = R ++ [sumZ cs] /\ length R = length cs.
Proof.
  induction cs as [|c cs IH] using rev_ind.
  - exists []. auto.
  - exists (0 :: offsetsFrom 0 cs). rewrite offsetsFrom_snoc, sumZ_app.
    cbn [sumZ length]. rewrite Z.add_0_r, length_offsetsFrom, length_app.
    cbn [length]. split; [reflexivity|lia].
Qed.

Lemma offsets_read (cs : list Z) (J : list Z) (i : Z) :
  i = Z.of_nat (length cs) ->
  read_at ((0 :: offsetsFrom 0 cs) ++ J) i = Ok (sumZ cs).
Proof.
  intros ->. destruct (offsets_last_form cs) as (R & -> & <-).
  rewrite <- app_assoc. cbn [app]. apply read_at_app_mid.
Qed.

Lemma offsets_write (cs : list Z) (c junk : Z) (J : list Z) (i : Z) :
  i = Z.of_nat (length cs) + 1 ->
  write_at ((0 :: offsetsFrom 0 cs) ++ junk :: J) i (sumZ cs + c)
  = Ok ((0 :: offsetsFrom 0 (cs ++ [c])) ++ J).
Proof.
  intros ->. rewrite write_at_mid.
  - rewrite offsetsFrom_snoc, <- app_assoc. reflexivity.
  - cbn [length]. rewrite length_offsetsFrom. lia.
Qed.

(** *** The fill phase *)

Lemma skipn_cons_nth {A} (l : list A) (i : nat) (x : A) (rest : list A) :
  skipn i l = x :: rest ->
  exists front, l = front ++ x :: rest /\ length front = i
                /\ skipn (S i) l = rest.
Proof.
  intros Hs. exists (firstn i l).
  assert (Hi : (i < length l)%nat).
  { destruct (Nat.lt_ge_cases i (length l)) as [?|Hge]; [assumption|].
    rewrite skipn_all2 in Hs by assumption. discriminate. }
  split; [rewrite <- Hs; symmetry; apply firstn_skipn|].
  split; [apply firstn_length_le; lia|].
  replace (S i) with (1 + i)%nat by reflexivity.
  rewrite <- skipn_skipn, Hs. reflexivity.
Qed.

Lemma DenseScanner_copy_spec (s : list PyObj) (base : Z) (tail : list real) :
  forall (n i : nat) (D : list real),
    Z.of_nat (length D) = base + Z.of_nat i ->
    (n <= length (skipn i s))%nat ->
    forallb isNumber (firstn n (skipn i s)) = true ->
    DenseScanner_copy to_real int_to_double n (Z.of_nat i) base s
      (D ++ repeat junk_real n ++ tail)
    = Ok (D ++ map numberOf' (firstn n (skipn i s)) ++ tail).
Proof.
  induction n as [|n IH]; intros i D HD Hlen Hnum; [reflexivity|].
  destruct (skipn i s) as [|x rest] eqn:Hs; [simpl in Hlen; lia|].
  destruct (skipn_cons_nth s i x rest Hs) as (front & Hfront & Hfl & Hnext).
  cbn [firstn forallb] in Hnum. apply andb_true_iff in Hnum.
  destruct Hnum as [Hx Hrest].
  cbn [DenseScanner_copy repeat app firstn map].
  unfold getDouble. rewrite Hfront at 1.
  rewrite (read_at_mid front) by lia. cbn [bind].
  assert (Hd : exists d, match x with
                         | PyFloat d => Ok d
                         | PyInt z => Ok (int_to_double z)
                         | PySeq _ => Fatal
                         end = Ok d /\ to_real d = numberOf' x).
  { destruct x; try discriminate; eexists; split; reflexivity. }
  destruct Hd as (d & -> & Hd). cbn [bind].
  rewrite (write_at_mid D) by lia. cbn [bind].
  replace (Z.of_nat i + 1) with (Z.of_nat (S i)) by lia.
  rewrite snoc_app.
  rewrite IH.
  - rewrite Hnext, Hd, <- app_assoc. reflexivity.
  - rewrite length_app. cbn [length]. lia.
  - rewrite Hnext. simpl in Hlen. lia.
  - rewrite Hnext. assumption.
Qed.

Lemma length_denseRows (d : nat) (p : list PyObj) :
  Forall (fun obj => denseSampleOk d obj = true) p ->
  length (flat_map (denseRow' d) p) = (length p * d)%nat.
Proof.
  induction 1 as [|obj p Hobj _ IH]; [reflexivity|].
  cbn [flat_map length]. rewrite length_app, IH.
  unfold denseRow. rewrite length_map.
  destruct obj as [| |items]; try discriminate. cbn [denseSampleOk itemsOf] in *.
  apply andb_true_iff in Hobj. destruct Hobj as [Hle _].
  apply Nat.leb_le in Hle. rewrite firstn_length_le by assumption. lia.
Qed.

Lemma Forall_split_l {A} (P : A -> Prop) (p q : list A) (x : A) :
  Forall P (p ++ x :: q) -> Forall P p /\ P x /\ Forall P q.
Proof.
  intros H. apply Forall_app in H. destruct H as [Hp Hq].
  inversion Hq; subst. auto.
Qed.

Lemma setValue_twice (a : Arg) (m m' : Matrix real) :
  setValue (setValue a m) m' = setValue a m'.
Proof. reflexivity. Qed.

Lemma fill_sparse_step (wv : bool) (h : SlotHeader) (p q : list PyObj)
  (obj : PyObj) (a : Arg) :
  sparseSampleOk wv obj = true ->
  sumZ (map elemCount (p ++ obj :: q)) < 2 ^ 31 ->
  Z.of_nat (length (p ++ obj :: q)) + 1 < SIZE_MOD ->
  SparseNonValueScanner_fill castInt_wide to_real int_to_double wv
    (sumZ (map elemCount p)) (Z.of_nat (length p) + 1)
    (setValue a
       (sparseMatrixOf castInt_wide to_real int_to_double junk_real junk_int wv h p
          (obj :: q)))
    obj
  = Ok (SparseCounters (sumZ (map elemCount (p ++ [obj])))
          (Z.of_nat (length (p ++ [obj])) + 1),
        setValue a
          (sparseMatrixOf castInt_wide to_real int_to_double junk_real junk_int wv h
             (p ++ [obj]) q)).
Proof.
  intros Hobj Hs Hlen.
  destruct (sparseSampleOk_items wv obj Hobj) as [_ Hitems].
  destruct obj as [| |items]; try discriminate. cbn [itemsOf] in Hitems.
  rewrite !sumZ_map_app in *. rewrite !length_app in *.
  cbn [map sumZ length] in *.
  pose proof (sumZ_elemCount_nonneg p). pose proof (sumZ_elemCount_nonneg q).
  assert (H31 : 2 ^ 31 < SIZE_MOD) by (unfold SIZE_MOD; lia).
  unfold elemCount in Hs at 2. cbn [itemsOf] in Hs.
  unfold SparseNonValueScanner_fill, sparseMatrixOf.
  cbn [SequenceHelper bind value setValue length repeat map sumZ].
  rewrite size_small, size_sub_small by lia.
  replace (Z.of_nat (length p) + 1 - 1) with (Z.of_nat (length p)) by lia.
  rewrite (offsets_read (map elemCount p)) by (rewrite length_map; reflexivity).
  cbn [bind].
  rewrite to_int_small, int_add_small by lia.
  rewrite (offsets_write (map elemCount p) (Z.of_nat (length items)))
    by (rewrite length_map; reflexivity).
  cbn [bind].
  unfold elemCount at 2 4. cbn [itemsOf].
  rewrite Z2Nat.inj_add, Nat2Z.id, !repeat_add by lia.
  rewrite (setData_loop castInt_wide to_real int_to_double junk_real junk_int wv items
             (map (colOf castInt_wide wv) (allItems p))
             (map (valOf to_real int_to_double junk_real) (allItems p))).
  - cbn [bind]. rewrite size_add_small by lia.
    rewrite allItems_snoc, !map_app, length_app. cbn [map length sumZ].
    unfold elemCount at 3. cbn [itemsOf].
    rewrite <- !app_assoc, Z.add_0_r, setValue_twice.
    repeat f_equal; rewrite ?length_app; cbn [length]; lia.
  - assumption.
  - rewrite length_map. apply length_allItems.
  - intros _. now rewrite !length_map.
  - lia.
Qed.

Lemma fill_step (sc : IFieldScanner) :
  wellNested sc ->
  forall all : list PyObj,
    Forall (wellFormed sc) all -> inRange sc all ->
    forall p obj q (a : Arg),
      p ++ obj :: q = all ->
      fill' sc (cFill sc p) (aFill' sc p (obj :: q) a) obj
      = Ok (cFill sc (p ++ [obj]), aFill' sc (p ++ [obj]) q a).
Proof.
  induction sc as [h|h|h|h|inner IH sel]; intros Hn all Hwf Hr p obj q a Hall;
    pose proof (inRange_length _ _ Hr) as Hlen;
    subst all; destruct (Forall_split_l _ _ _ _ Hwf) as (Hwp & Hobj & Hwq);
    rewrite length_app in Hlen; cbn [length] in Hlen.
  - (* dense *)
    cbn [wellFormed inRange] in *. destruct Hr as [Hd Hr].
    rewrite length_app in Hr. cbn [length] in Hr.
    destruct obj as [| |items]; try discriminate.
    pose proof Hobj as Hobj'. cbn [denseSampleOk] in Hobj'.
    apply andb_true_iff in Hobj'. destruct Hobj' as [Hle Hnum].
    apply Nat.leb_le in Hle.
    cbn [fill cFill aFill value setValue SequenceHelper bind].
    rewrite to_size_t_small by nia.
    cbn [length Nat.mul]. rewrite repeat_add.
    pose proof (DenseScanner_copy_spec items (Z.of_nat (length p) * dim h)
                  (repeat junk_real (length q * Z.to_nat (dim h)))
                  (Z.to_nat (dim h)) 0
                  (flat_map (denseRow' (Z.to_nat (dim h))) p)) as Hcopy.
    change (Z.of_nat 0) with 0 in Hcopy. cbn [skipn] in Hcopy.
    rewrite Hcopy; [|rewrite (length_denseRows _ p Hwp); nia|assumption
                    |assumption].
    cbn [bind]. rewrite size_add_small by lia.
    rewrite flat_map_app. cbn [flat_map]. rewrite app_nil_r.
    rewrite <- !app_assoc.
    unfold denseRow at 3. cbn [itemsOf].
    rewrite !length_app. cbn [length].
    repeat f_equal; lia.
  - (* index *)
    destruct Hobj as [z ->].
    cbn [fill cFill aFill ids setIds castInt length repeat].
    rewrite (write_at_mid (map (fun obj => fst (castInt castInt_wide obj)) p))
      by (rewrite length_map; reflexivity).
    cbn [bind]. rewrite size_add_small by lia.
    rewrite map_app, length_app, <- app_assoc. cbn [map castInt fst length app].
    repeat f_equal; lia.
  - (* sparse, no value *)
    cbn [wellFormed inRange] in *. destruct Hr as [Hs Hl].
    cbn [fill cFill aFill].
    apply (fill_sparse_step false h p q obj a Hobj Hs Hl).
  - (* sparse, value *)
    cbn [wellFormed inRange] in *. destruct Hr as [Hs Hl].
    cbn [fill cFill aFill].
    apply (fill_sparse_step true h p q obj a Hobj Hs Hl).
  - (* sequence *)
    destruct Hn as [Hnu Hn]. destruct Hr as (Hs & _ & Hin).
    pose proof Hobj as (items & -> & Hitems).
    pose proof (wellFormed_allItems inner sel _ Hwf) as Hwfi.
    rewrite !sumZ_map_app in Hs. cbn [map sumZ] in Hs.
    pose proof (sumZ_map_nonneg (innerCount inner) p (innerCount_nonneg inner)).
    pose proof (sumZ_map_nonneg (innerCount inner) q (innerCount_nonneg inner)).
    pose proof (innerCount_nonneg inner (PySeq items)).
    assert (H31 : 2 ^ 31 < SIZE_MOD) by (unfold SIZE_MOD; lia).
    cbn [fill cFill aFill].
    rewrite aFill_get, getSeqStartPos_set by assumption.
    rewrite size_sub_small by lia.
    replace (Z.of_nat (length p) + 1 - 1) with (Z.of_nat (length p)) by lia.
    rewrite (offsets_read (map (innerCount inner) p))
      by (rewrite length_map; reflexivity).
    cbn [bind].
    rewrite (getSize_innerCount inner (PySeq items) items eq_refl Hitems) by lia.
    cbn [bind length repeat].
    rewrite to_int_small, int_add_small by lia.
    rewrite (offsets_write (map (innerCount inner) p))
      by (rewrite length_map; reflexivity).
    cbn [bind SequenceHelper].
    rewrite aFill_set, setSeqStartPos_twice by assumption.
    set (a1 := setSeqStartPos sel a _).
    pose proof (for_each_segment
                  (fun '(ci, a0) item => fill' inner ci a0 item)
                  (fun P Q => (cFill inner P, aFill' inner P Q a1))
                  (allItems (p ++ PySeq items :: q))) as Hseg.
    cbv beta in Hseg.
    rewrite allItems_cons. cbn [itemsOf].
    rewrite (Hseg (fun P x Q HP => IH Hn _ Hwfi Hin P x Q a1 HP)
               items (allItems p) (allItems q)).
    + cbn [bind]. rewrite size_add_small by lia.
      rewrite allItems_snoc, length_app, map_app. cbn [length map].
      subst a1. do 3 f_equal. lia.
    + rewrite allItems_app, allItems_cons. reflexivity.
Qed.

Lemma fill_loop (sc : IFieldScanner) (objs : list PyObj) (a : Arg) :
  wellNested sc ->
  Forall (wellFormed sc) objs -> inRange sc objs ->
  for_each objs (fun '(c, a) obj => fill' sc c a obj)
    (cFill sc (@nil PyObj), aFill' sc [] objs a)
  = Ok (cFill sc objs, aFill' sc objs [] a).
Proof.
  intros Hn Hwf Hr.
  pose proof (for_each_segment
                (fun '(c, a) obj => fill' sc c a obj)
                (fun p q => (cFill sc p, aFill' sc p q a)) objs) as Hseg.
  cbv beta in Hseg.
  pose proof (Hseg (fun p x q Hp => fill_step sc Hn objs Hwf Hr p x q a Hp)
           objs [] []) as H.
  rewrite app_nil_r in H. apply H. reflexivity.
Qed.

Lemma Counters_new_cPrep (sc : IFieldScanner) :
  Counters_new sc = cPrep sc (@nil PyObj).
Proof. induction sc; cbn; congruence. Qed.

(** The two phases over the samples of a slot, for any scanner whose
    sequence scanners write different arrays. *)
Lemma scan_encoded (sc : IFieldScanner) (objs : list PyObj) :
  wellNested sc ->
  Forall (wellFormed sc) objs -> inRange sc objs ->
  ('(c, a) <- startPrepare sc (Counters_new sc) (Argument_new (real := real)) ;;
   '(c, a) <- for_each objs (fun '(c, a) obj => prepare sc c a obj) (c, a) ;;
   '(c, a) <- finishPrepare junk_real junk_int sc c a ;;
   '(c, a) <- startFill sc c a ;;
   '(c, a) <- for_each objs (fun '(c, a) obj => fill' sc c a obj) (c, a) ;;
   '(_, a) <- finishFill sc c a ;;
   Ok a)
  = Ok (encoded castInt_wide to_real int_to_double junk_real junk_int sc objs).
Proof.
  intros Hn Hwf Hr.
  rewrite startPrepare_id. cbn [bind].
  rewrite Counters_new_cPrep, prepare_loop by assumption. cbn [bind].
  rewrite finishPrepare_alloc by assumption. cbn [bind].
  rewrite startFill_alloc by assumption. cbn [bind].
  rewrite fill_loop by assumption. cbn [bind].
  rewrite finishFill_id. reflexivity.
Qed.

(** *** The scanners [create] makes *)


Lemma flat_notUses (sel : SeqStartPos) (sc : IFieldScanner) :
  flat sc -> notUses sel sc.
Proof. destruct sc; simpl; tauto. Qed.

Lemma flat_wellNested (sc : IFieldScanner) : flat sc -> wellNested sc.
Proof. destruct sc; simpl; tauto. Qed.

Lemma create_cases (header : SlotHeader) (sc : IFieldScanner) :
  IFieldScanner_create header = Ok sc ->
  exists base,
    flat base
    /\ ((seqType header = SQT_NONE /\ sc = base)
        \/ (seqType header = SQT_SEQ
            /\ sc = SequenceScanner base SequenceStartPositions)
        \/ (seqType header = SQT_SUBSEQ
            /\ sc = SequenceScanner
                      (SequenceScanner base SubSequenceStartPositions)
                      SequenceStartPositions)).
Proof.
  unfold IFieldScanner_create. intros H.
  apply bind_Ok_inv in H. destruct H as (base & Hbase & H).
  exists base. split.
  - repeat match type of Hbase with
           | (if ?b then _ else _) = _ => destruct b
           end; inversion Hbase; exact I.
  - destruct (Z.eqb_spec (seqType header) SQT_NONE) as [E0|_].
    { left. split; [assumption|congruence]. }
    destruct (Z.eqb_spec (seqType header) SQT_SUBSEQ) as [E2|_].
    { right; right. split; [assumption|congruence]. }
    destruct (Z.eqb_spec (seqType header) SQT_SEQ) as [E1|_].
    { right; left. split; [assumption|congruence]. }
    discriminate.
Qed.

Lemma create_wellNested (header : SlotHeader) (sc : IFieldScanner) :
  IFieldScanner_create header = Ok sc -> wellNested sc.
Proof.
  intros H. destruct (create_cases header sc H)
    as (base & Hb & [[_ ->]|[[_ ->]|[_ ->]]]).
  - now apply flat_wellNested.
  - split; [now apply flat_notUses|now apply flat_wellNested].
  - split.
    + split; [discriminate|now apply flat_notUses].
    + split; [now apply flat_notUses|now apply flat_wellNested].
Qed.

(** What a slot is encoded to, whatever its kind. *)
Lemma scanSlot_encoded (header : SlotHeader) (sc : IFieldScanner)
  (objs : list PyObj) :
  IFieldScanner_create header = Ok sc ->
  Forall (wellFormed sc) objs -> inRange sc objs ->
  scanSlot castInt_wide to_real int_to_double junk_real junk_int header objs
  = Ok (encoded castInt_wide to_real int_to_double junk_real junk_int sc objs).
Proof.
  intros Hc Hwf Hr. unfold scanSlot. rewrite Hc. cbn [bind].
  apply scan_encoded; [exact (create_wellNested header sc Hc)|assumption..].
Qed.




(** *** Slots that are not sequences *)

Lemma create_flat (header : SlotHeader) (sc : IFieldScanner) :
  seqType header = SQT_NONE ->
  (if slotType header =? ST_DENSE then Ok (DenseScanner header)
   else if slotType header =? ST_INDEX then Ok (IndexScanner header)
   else if slotType header =? ST_NON_SPARSE_VALUE
        then Ok (SparseNonValueScanner header)
   else if slotType header =? ST_SPARSE_VALUE
        then Ok (SparseValueScanner header)
   else Fatal) = Ok sc ->
  IFieldScanner_create header = Ok sc.
Proof.
  intros Hq Hs. unfold IFieldScanner_create. rewrite Hs, Hq. reflexivity.
Qed.

(** X12: [IFieldScanner::create] aborts exactly on a header whose slot
    type is not one of the four it knows or whose sequence type is not one
    of the three it knows, and fails in no other way; the scanner it makes
    otherwise wraps the scanner of the slot type in as many sequence
    scanners as the sequence type says, the outer one writing the sequence
    start positions and the inner one the sub-sequence start positions, so
    that no two of them write the same array. *)
Theorem create_supported (header : SlotHeader) :
  (IFieldScanner_create header = Fatal
   <-> ~ (0 <= slotType header <= 3) \/ ~ (0 <= seqType header <= 2))
  /\ (IFieldScanner_create header = Fatal
      \/ exists base,
           flat base
           /\ (base = DenseScanner header <-> slotType header = ST_DENSE)
           /\ (base = SparseNonValueScanner header
               <-> slotType header = ST_NON_SPARSE_VALUE)
           /\ (base = SparseValueScanner header
               <-> slotType header = ST_SPARSE_VALUE)
           /\ (base = IndexScanner header <-> slotType header = ST_INDEX)
           /\ exists sc,
                IFieldScanner_create header = Ok sc
                /\ wellNested sc
                /\ (seqType header = SQT_NONE -> sc = base)
                /\ (seqType header = SQT_SEQ ->
                    sc = SequenceScanner base SequenceStartPositions)
                /\ (seqType header = SQT_SUBSEQ ->
                    sc = SequenceScanner
                           (SequenceScanner base SubSequenceStartPositions)
                           SequenceStartPositions)).
Proof.
  assert (Hbase :
            (exists base,
                flat base
                /\ (base = DenseScanner header <-> slotType header = ST_DENSE)
                /\ (base = SparseNonValueScanner header
                    <-> slotType header = ST_NON_SPARSE_VALUE)
                /\ (base = SparseValueScanner header
                    <-> slotType header = ST_SPARSE_VALUE)
                /\ (base = IndexScanner header <-> slotType header = ST_INDEX)
                /\ 0 <= slotType header <= 3
                /\ IFieldScanner_create header
                   = (if seqType header =? SQT_NONE then Ok base
                      else if seqType header =? SQT_SUBSEQ then
                        Ok (SequenceScanner
                              (SequenceScanner base SubSequenceStartPositions)
                              SequenceStartPositions)
                      else if seqType header =? SQT_SEQ then
                        Ok (SequenceScanner base SequenceStartPositions)
                      else Fatal))
            \/ (IFieldScanner_create header = Fatal
                /\ ~ (0 <= slotType header <= 3))).
  { unfold IFieldScanner_create, ST_DENSE, ST_INDEX, ST_NON_SPARSE_VALUE,
      ST_SPARSE_VALUE.
    destruct (Z.eqb_spec (slotType header) 0) as [S0|S0];
      [left; exists (DenseScanner header)|
       destruct (Z.eqb_spec (slotType header) 3) as [S3|S3];
       [left; exists (IndexScanner header)|
        destruct (Z.eqb_spec (slotType header) 1) as [S1|S1];
        [left; exists (SparseNonValueScanner header)|
         destruct (Z.eqb_spec (slotType header) 2) as [S2|S2];
         [left; exists (SparseValueScanner header)|
          right; split; [reflexivity|lia]]]]];
      (split; [exact I|]);
      repeat (split; [split; intros E;
                      [try discriminate E; lia
                      |try reflexivity; exfalso; lia]|]);
      (split; [lia|]); reflexivity. }
  destruct Hbase as [(base & Hflat & Hd & Hn & Hv & Hi & Hrange & Hc)|[Hf Hs]].
  2:{ split; [|now left]. split; [now left|intros _; exact Hf]. }
  rewrite Hc.
  unfold SQT_NONE, SQT_SEQ, SQT_SUBSEQ.
  destruct (Z.eqb_spec (seqType header) 0) as [Q0|Q0];
    [|destruct (Z.eqb_spec (seqType header) 2) as [Q2|Q2];
      [|destruct (Z.eqb_spec (seqType header) 1) as [Q1|Q1]]].
  4:{ split; [|now left]. split; [intros _; right; lia|reflexivity]. }
  all: split;
    [split; [discriminate|intros [H|H]; exfalso; apply H; lia]|].
  all: right; exists base; repeat (split; [assumption|]).
  all: eexists; split; [reflexivity|].
  all: split;
    [cbn [wellNested notUses];
     repeat split; try discriminate;
     try (now apply flat_notUses); now apply flat_wellNested|].
  all: repeat split; intros E; try reflexivity; exfalso; lia.
Qed.

Lemma nth_rows {A B} (f : A -> list B) (d : nat) (defA : A) (defB : B) :
  forall (l : list A) (i j : nat),
    Forall (fun x => length (f x) = d) l ->
    (i < length l)%nat -> (j < d)%nat ->
    nth (i * d + j) (flat_map f l) defB = nth j (f (nth i l defA)) defB.
Proof.
  induction l as [|x l IH]; intros i j Hall Hi Hj; [simpl in Hi; lia|].
  inversion Hall as [|? ? Hx Hl]; subst. cbn [flat_map].
  destruct i as [|i].
  - cbn [Nat.mul Nat.add nth]. apply app_nth1. lia.
  - cbn [nth length] in *.
    replace (S i * length (f x) + j)%nat
      with (length (f x) + (i * length (f x) + j))%nat by lia.
    rewrite app_nth2_plus. apply IH; [assumption|lia|assumption].
Qed.

Lemma length_denseRow (d : nat) (obj : PyObj) :
  denseSampleOk d obj = true -> length (denseRow' d obj) = d.
Proof.
  destruct obj as [| |items]; try discriminate. cbn [denseSampleOk].
  intros H. apply andb_true_iff in H. destruct H as [Hle _].
  apply Nat.leb_le in Hle. unfold denseRow. cbn [itemsOf].
  rewrite length_map. now apply firstn_length_le.
Qed.

(** X13: a dense slot that is not a sequence, of N samples each a
    sequence whose first [dim] items are numbers, is encoded as a matrix
    of N rows and [dim] columns stored row by row: cell (i, j) holds the
    j-th number of sample i converted to [real]; items of a sample beyond
    the first [dim] are ignored. *)
Theorem dense_slot_encoded (header : SlotHeader) (objs : list PyObj) :
  slotType header = ST_DENSE ->
  seqType header = SQT_NONE ->
  0 <= dim header ->
  (Z.of_nat (length objs) + 1) * (dim header + 1) < SIZE_MOD ->
  Forall (fun obj => denseSampleOk (Z.to_nat (dim header)) obj = true) objs ->
  exists data,
    scanSlot castInt_wide to_real int_to_double junk_real junk_int header objs
    = Ok (setValue Argument_new
            (CpuMatrix (Z.of_nat (length objs)) (dim header) data))
    /\ data = flat_map (denseRow' (Z.to_nat (dim header))) objs
    /\ Z.of_nat (length data) = Z.of_nat (length objs) * dim header
    /\ forall i j : nat,
         (i < length objs)%nat -> Z.of_nat j < dim header ->
         nth (i * Z.to_nat (dim header) + j) data junk_real
         = numberOf' (nth j (itemsOf (nth i objs (PySeq []))) (PySeq [])).
Proof.
  intros Hs Hq Hd Hr Hwf.
  eexists. split.
  { rewrite (scanSlot_encoded header (DenseScanner header) objs).
    - unfold encoded. cbn [aFill length Nat.mul repeat].
      rewrite !app_nil_r. reflexivity.
    - apply create_flat; [assumption|]. now rewrite Hs.
    - exact Hwf.
    - split; assumption. }
  split; [reflexivity|].
  split.
  { rewrite (length_denseRows _ objs Hwf). lia. }
  intros i j Hi Hj.
  rewrite (nth_rows _ (Z.to_nat (dim header)) (PySeq []) junk_real).
  - unfold denseRow.
    assert (Hobj : denseSampleOk (Z.to_nat (dim header)) (nth i objs (PySeq []))
                   = true).
    { rewrite Forall_forall in Hwf. apply Hwf. now apply nth_In. }
    destruct (nth i objs (PySeq [])) as [| |items]; try discriminate.
    cbn [denseSampleOk itemsOf] in *.
    apply andb_true_iff in Hobj. destruct Hobj as [Hle _].
    apply Nat.leb_le in Hle.
    rewrite (nth_indep _ junk_real (numberOf' (PySeq [])))
      by (rewrite length_map, firstn_length_le; lia).
    rewrite map_nth. f_equal.
    rewrite <- (firstn_skipn (Z.to_nat (dim header)) items) at 2.
    rewrite app_nth1 by (rewrite firstn_length_le; lia). reflexivity.
  - apply Forall_forall. intros obj Hin. apply length_denseRow.
    rewrite Forall_forall in Hwf. now apply Hwf.
  - assumption.
  - lia.
Qed.

(** An integer that fits an [int] is converted to itself. *)
Lemma castInt_value_fits (z : Z) :
  - 2 ^ 31 <= z < 2 ^ 31 -> castInt_value castInt_wide z = z.
Proof.
  intros Hz. unfold castInt_value, fits_int.
  destruct (Z.leb_spec (- 2 ^ 31) z); [|lia].
  destruct (Z.ltb_spec z (2 ^ 31)); [reflexivity|lia].
Qed.

(** X14: an index slot that is not a sequence, of samples that are
    integers which fit an [int], is encoded as the vector of these
    integers in the order of the samples. *)
Theorem index_slot_encoded (header : SlotHeader) (zs : list Z) :
  slotType header = ST_INDEX ->
  seqType header = SQT_NONE ->
  Z.of_nat (length zs) + 1 < SIZE_MOD ->
  Forall (fun z => - 2 ^ 31 <= z < 2 ^ 31) zs ->
  scanSlot castInt_wide to_real int_to_double junk_real junk_int header
    (map PyInt zs)
  = Ok (setIds (Argument_new (real := real)) zs).
Proof.
  intros Hs Hq Hr Hall.
  rewrite (scanSlot_encoded header (IndexScanner header) (map PyInt zs)).
  - unfold encoded. cbn [aFill length repeat].
    rewrite app_nil_r, map_map. do 2 f_equal. clear Hr.
    induction Hall as [|z zs Hz _ IH]; [reflexivity|].
    cbn [map castInt fst] in *. rewrite IH, castInt_value_fits by assumption.
    reflexivity.
  - apply create_flat; [assumption|]. rewrite Hs. reflexivity.
  - apply Forall_forall. intros obj Hin. apply in_map_iff in Hin.
    destruct Hin as (z & <- & _). now exists z.
  - cbn [inRange]. now rewrite length_map.
Qed.

(** X15: a sparse slot with values, of samples that are sequences of
    pairs of an integer and a number, stores with the column index of
    each pair its number converted to [real], in the order of the pairs:
    as many values as column indices, one more row offset than samples;
    a sparse slot without values stores no value array. *)
Theorem sparse_values_encoded (withValue : bool) (header : SlotHeader)
  (objs : list PyObj) :
  slotType header = (if withValue then ST_SPARSE_VALUE else ST_NON_SPARSE_VALUE) ->
  seqType header = SQT_NONE ->
  Forall (fun obj => sparseSampleOk withValue obj = true) objs ->
  sumZ (map elemCount objs) < 2 ^ 31 ->
  Z.of_nat (length objs) + 1 < SIZE_MOD ->
  exists rows cols vals,
    scanSlot castInt_wide to_real int_to_double junk_real junk_int header objs
    = Ok (setValue Argument_new
            (CpuSparseMatrix (Z.of_nat (length objs)) (dim header)
               rows cols (if withValue then Some vals else None)))
    /\ vals = map valOf' (allItems objs)
    /\ cols = map (colOf castInt_wide withValue) (allItems objs)
    /\ length vals = length cols
    /\ length rows = S (length objs)
    /\ Z.of_nat (length cols) = sumZ (map elemCount objs).
Proof.
  intros Hs Hq Hwf Hnnz Hlen.
  exists (0 :: offsetsFrom 0 (map elemCount objs)),
    (map (colOf castInt_wide withValue) (allItems objs)),
    (map valOf' (allItems objs)).
  split.
  { rewrite (scanSlot_encoded header (sparseScanner withValue header) objs).
    - unfold encoded, sparseScanner.
      destruct withValue; cbn [aFill]; unfold sparseMatrixOf, sparseValues;
        cbn [map sumZ Z.to_nat repeat length]; rewrite !app_nil_r; reflexivity.
    - apply create_flat; [assumption|]. rewrite Hs.
      destruct withValue; reflexivity.
    - destruct withValue; exact Hwf.
    - destruct withValue; cbn [sparseScanner inRange]; auto. }
  split; [reflexivity|]. split; [reflexivity|].
  split; [now rewrite !length_map|].
  split; [cbn [length]; now rewrite length_offsetsFrom, length_map|].
  rewrite length_map. apply length_allItems.
Qed.

(** *** Sequences and sub-sequences *)







(** *** The samples a scanner rejects *)

Lemma for_each_Ok_Forall {A S} (body : S -> A -> outcome S) (l : list A) :
  forall s s',
    for_each l body s = Ok s' ->
    Forall (fun x => exists s1 s2, body s1 x = Ok s2) l.
Proof.
  induction l as [|x l IH]; intros s s' H; [constructor|].
  cbn [for_each] in H. apply bind_Ok_inv in H. destruct H as (s1 & Hx & Hl).
  constructor; [eauto|]. exact (IH _ _ Hl).
Qed.

Lemma read_at_Ok {A} (l : list A) (i : Z) (x : A) :
  read_at l i = Ok x -> 0 <= i /\ nth_error l (Z.to_nat i) = Some x.
Proof.
  unfold read_at. destruct (Z.leb_spec 0 i) as [Hi|Hi]; [|discriminate].
  destruct (nth_error l (Z.to_nat i)); [|discriminate].
  intros H. injection H as ->. auto.
Qed.

Lemma skipn_nth_error {A} (l : list A) :
  forall (m : nat) (x : A),
    nth_error l m = Some x -> skipn m l = x :: skipn (S m) l.
Proof.
  induction l as [|y l IH]; intros [|m] x H; try discriminate.
  - injection H as ->. reflexivity.
  - cbn [nth_error] in H. apply (IH m x H).
Qed.

Lemma getDouble_Ok (s : list PyObj) (i : Z) (d : double) :
  getDouble int_to_double s i = Ok d ->
  exists item, nth_error s (Z.to_nat i) = Some item /\ 0 <= i
               /\ isNumber item = true.
Proof.
  unfold getDouble. intros H. apply bind_Ok_inv in H.
  destruct H as (item & Hr & H). apply read_at_Ok in Hr.
  exists item. destruct Hr. repeat split; auto.
  destruct item; [reflexivity|reflexivity|discriminate].
Qed.

Lemma DenseScanner_copy_Ok (s : list PyObj) (base : Z) :
  forall (n m : nat) (data r : list real),
    (m <= length s)%nat ->
    DenseScanner_copy to_real int_to_double n (Z.of_nat m) base s data = Ok r ->
    (m + n <= length s)%nat
    /\ forallb isNumber (firstn n (skipn m s)) = true.
Proof.
  induction n as [|n IH]; intros m data r Hm H.
  - cbn [firstn forallb]. split; [lia|reflexivity].
  - cbn [DenseScanner_copy] in H.
    apply bind_Ok_inv in H. destruct H as (d & Hd & H).
    apply bind_Ok_inv in H. destruct H as (data' & _ & H).
    apply getDouble_Ok in Hd. destruct Hd as (item & Hnth & _ & Hnum).
    rewrite Nat2Z.id in Hnth.
    assert (Hlt : (m < length s)%nat)
      by (apply nth_error_Some; congruence).
    replace (Z.of_nat m + 1) with (Z.of_nat (S m)) in H by lia.
    apply IH in H; [|lia]. destruct H as [Hlen Hall].
    split; [lia|].
    rewrite (skipn_nth_error s m item Hnth). cbn [firstn forallb].
    now rewrite Hnum, Hall.
Qed.

Lemma setData_Ok (wv : bool) (n : Z) (cs : list Z) (vs : option (list real))
  (item : PyObj) r :
  setData castInt_wide to_real int_to_double wv n cs vs item = Ok r ->
  sparseItemOk wv item = true.
Proof.
  unfold setData, SparseNonValueScanner_setData. destruct wv.
  - intros H. apply bind_Ok_inv in H. destruct H as (s & Hs & H).
    destruct item as [| |s0]; try discriminate Hs. injection Hs as ->.
    apply bind_Ok_inv in H. destruct H as (it0 & H0 & H).
    apply read_at_Ok in H0. destruct H0 as [_ H0].
    destruct s as [|x0 s]; [discriminate|]. cbn in H0. injection H0 as ->.
    apply bind_Ok_inv in H. destruct H as (cols' & Hc & H).
    assert (Hint : exists z, it0 = PyInt z).
    { destruct it0 as [z| |]; [eauto| |]; cbn [castInt] in Hc;
        destruct (write_at cs n 0); discriminate. }
    destruct Hint as [z ->].
    apply bind_Ok_inv in H. destruct H as (d & Hd & _).
    apply getDouble_Ok in Hd. destruct Hd as (it1 & H1 & _ & Hnum).
    destruct s as [|x1 s]; [discriminate|]. cbn in H1. injection H1 as ->.
    cbn [sparseItemOk]. destruct it1; [reflexivity|reflexivity|discriminate].
  - intros H. apply bind_Ok_inv in H. destruct H as (cols' & Hc & _).
    destruct item as [z| |]; [reflexivity| |]; cbn [castInt] in Hc;
      destruct (write_at cs n 0); discriminate.
Qed.

Lemma SparseNonValueScanner_fill_Ok (wv : bool) (nnz height : Z) (a : Arg)
  (obj : PyObj) r :
  SparseNonValueScanner_fill castInt_wide to_real int_to_double wv nnz height a obj = Ok r ->
  sparseSampleOk wv obj = true.
Proof.
  unfold SparseNonValueScanner_fill. intros H.
  apply bind_Ok_inv in H. destruct H as (s & Hs & H).
  destruct obj as [| |items]; try discriminate Hs. injection Hs as ->.
  destruct (value a) as [[| h w rows cols values]|]; try discriminate.
  apply bind_Ok_inv in H. destruct H as (prev & _ & H).
  apply bind_Ok_inv in H. destruct H as (rows' & _ & H).
  apply bind_Ok_inv in H. destruct H as (res & Hloop & _).
  apply for_each_Ok_Forall in Hloop.
  cbn [sparseSampleOk]. apply forallb_forall. intros item Hin.
  rewrite Forall_forall in Hloop.
  destruct (Hloop item Hin) as ([[n cs] vs] & s2 & Hbody).
  apply bind_Ok_inv in Hbody. destruct Hbody as (r' & Hset & _).
  exact (setData_Ok wv n cs vs item r' Hset).
Qed.

(** A scanner fills in a sample only if it is one it accepts, whatever
    it has counted and filled in before. *)
Lemma fill_Ok_wellFormed (sc : IFieldScanner) :
  forall (c : Counters) (a : Arg) (obj : PyObj) r,
    fill' sc c a obj = Ok r -> wellFormed sc obj.
Proof.
  induction sc as [h|h|h|h|inner IH sel]; intros c a obj r H;
    cbn [fill wellFormed] in *.
  - destruct c; try discriminate.
    destruct (value a) as [[hh w data|]|]; try discriminate.
    apply bind_Ok_inv in H. destruct H as (s & Hs & H).
    destruct obj as [| |items]; try discriminate Hs. injection Hs as ->.
    apply bind_Ok_inv in H. destruct H as (data' & Hcopy & _).
    apply (DenseScanner_copy_Ok s _ (Z.to_nat (dim h)) 0) in Hcopy;
      [|lia].
    destruct Hcopy as [Hlen Hnum]. cbn [skipn] in Hnum.
    cbn [denseSampleOk]. rewrite Hnum, andb_true_r. apply Nat.leb_le. lia.
  - destruct c; try discriminate.
    destruct (ids a) as [v|]; try discriminate.
    destruct obj as [z| |]; [eauto| |]; cbn [castInt] in H;
      destruct (write_at v cnt_ 0); discriminate.
  - destruct c; try discriminate.
    exact (SparseNonValueScanner_fill_Ok false _ _ _ _ _ H).
  - destruct c; try discriminate.
    exact (SparseNonValueScanner_fill_Ok true _ _ _ _ _ H).
  - destruct c as [| | |cnt ci]; try discriminate.
    destruct (getSeqStartPos sel a) as [pos|]; try discriminate.
    apply bind_Ok_inv in H. destruct H as (prev & _ & H).
    apply bind_Ok_inv in H. destruct H as (n & _ & H).
    apply bind_Ok_inv in H. destruct H as (pos' & _ & H).
    apply bind_Ok_inv in H. destruct H as (s & Hs & H).
    destruct obj as [| |items]; try discriminate Hs. injection Hs as ->.
    apply bind_Ok_inv in H. destruct H as (res & Hloop & _).
    exists s. split; [reflexivity|].
    apply for_each_Ok_Forall in Hloop.
    eapply Forall_impl; [|exact Hloop].
    intros item ([ci1 a1] & s2 & Hitem). exact (IH _ _ _ _ Hitem).
Qed.

(** X19: a slot is encoded only if every sample is one its scanner
    accepts: a sequence of at least [dim] numbers for a dense slot, an
    integer for an index slot, a sequence of integers, or of pairs of an
    integer and a number, for a sparse slot, and a sequence of such
    samples for each level of sequences; with any other sample the scan
    returns no argument.  With sizes that fit the integers counted with,
    the slot is encoded exactly when every sample is such a one. *)
Theorem scanSlot_accepts (header : SlotHeader) (objs : list PyObj) :
  (forall a : Arg,
      scanSlot castInt_wide to_real int_to_double junk_real junk_int header objs = Ok a ->
      exists sc,
        IFieldScanner_create header = Ok sc /\ Forall (wellFormed sc) objs)
  /\ (forall sc,
        IFieldScanner_create header = Ok sc ->
        inRange sc objs ->
        ((exists a : Arg,
             scanSlot castInt_wide to_real int_to_double junk_real junk_int header objs
             = Ok a)
         <-> Forall (wellFormed sc) objs)).
Proof.
  assert (Hacc : forall a : Arg,
             scanSlot castInt_wide to_real int_to_double junk_real junk_int header objs
             = Ok a ->
             exists sc,
               IFieldScanner_create header = Ok sc
               /\ Forall (wellFormed sc) objs).
  { intros a H. unfold scanSlot in H.
    apply bind_Ok_inv in H. destruct H as (sc & Hc & H).
    exists sc. split; [exact Hc|].
    apply bind_Ok_inv in H. destruct H as ([c1 a1] & _ & H).
    apply bind_Ok_inv in H. destruct H as ([c2 a2] & _ & H).
    apply bind_Ok_inv in H. destruct H as ([c3 a3] & _ & H).
    apply bind_Ok_inv in H. destruct H as ([c4 a4] & _ & H).
    apply bind_Ok_inv in H. destruct H as ([c5 a5] & Hloop & _).
    apply for_each_Ok_Forall in Hloop.
    eapply Forall_impl; [|exact Hloop].
    intros obj ([c a0] & s2 & Hobj). exact (fill_Ok_wellFormed _ _ _ _ _ Hobj). }
  split; [exact Hacc|].
  intros sc Hc Hr. split.
  - intros (a & Ha). destruct (Hacc a Ha) as (sc' & Hc' & Hwf).
    rewrite Hc in Hc'. injection Hc' as <-. exact Hwf.
  - intros Hwf. eexists. apply (scanSlot_encoded header sc objs Hc Hwf Hr).
Qed.

End EncodeProperties.

(** ** More on the cache strategies *)

Section CacheRoundTrip.

Context {Sample : Type}.

Lemma fold_cache_drop (bs : list (deque Sample)) :
  forall o d : deque Sample,
    fold_left cache_drop bs (CacheOnePassInMemory o d)
    = CacheOnePassInMemory o (d ++ concat bs).
Proof.
  induction bs as [|b bs IH]; intros o d; cbn [fold_left concat].
  - now rewrite app_nil_r.
  - cbn [cache_drop]. rewrite CacheOnePassInMemory_drop_app, IH.
    now rewrite <- app_assoc.
Qed.

(** X1: [CacheOnePassInMemory::drop] moves the handles of a batch to the
    back of the collected buffer in the order of the batch, null handles
    included, whatever the buffers hold; the replay buffer is left alone.
    The handles are moved, not copied: when the loop of swaps ends, the
    collected buffer, resized at the start, holds the batch after what it
    held, and the batch holds null handles only. *)
Theorem drop_appends_in_order (objPool droppedPool data : deque Sample) :
  cache_drop (CacheOnePassInMemory objPool droppedPool) data
  = CacheOnePassInMemory objPool (droppedPool ++ data)
  /\ drop_swaps (length data) 0 (length droppedPool)
       (droppedPool ++ repeat None (length data)) data
     = (droppedPool ++ data, repeat None (length data)).
Proof.
  split; [apply CacheOnePassInMemory_drop_app|].
  pose proof (drop_swaps_spec [] data droppedPool [] eq_refl) as H.
  cbn [app length] in H. exact H.
Qed.

(** X2: what is dropped into a fresh one-pass cache, batch after batch, is
    what the cache hands out after the next reset, in the order of
    delivery: the reset answers that nothing need be reloaded unless
    nothing was dropped, [load] then gives the handles of all the batches
    in order, and a further reset before these are consumed aborts. *)
Theorem dropped_batches_are_replayed (bs : list (deque Sample)) :
  exists c,
    cache_reset
      (fold_left cache_drop bs (IPyDataProviderCache_create CACHE_PASS_IN_MEM))
    = Ok (empty (concat bs), c)
    /\ cache_load c = Some (concat bs)
    /\ (cache_reset c = Fatal <-> concat bs <> []).
Proof.
  cbn [IPyDataProviderCache_create]. rewrite fold_cache_drop. cbn [app cache_reset].
  unfold CacheOnePassInMemory_reset. cbn [empty andb].
  destruct (concat bs) as [|h t] eqn:E; cbn [empty].
  - exists (CacheOnePassInMemory [] []). repeat split; try discriminate.
    intros H. now contradiction H.
  - exists (CacheOnePassInMemory (h :: t) []). repeat split; discriminate.
Qed.

End CacheRoundTrip.

(** ** More on the provider *)

Section ProviderStates.

Context {Sample : Type}.
Variable cfg : Config Sample.

Lemma step_NoCache (st st' : PyDataProvider2 Sample) a e :
  Inv cfg st ->
  step cfg st a = Some (st', e) ->
  cache_ st = NoCacheStrategy -> loadThread_ st = true ->
  cache_ st' = NoCacheStrategy /\ loadThread_ st' = true.
Proof.
  intros HI Hs Hc Ht.
  destruct a as [dist| |size_ rand|generators].
  - apply step_LoadRead in Hs.
    destruct Hs as (_ & _ & c1 & ctx & c2 & _ & _ & Hs).
    destruct ctx; destruct Hs as [_ ->]; auto.
  - apply step_LoadPush in Hs. destruct Hs as (d & _ & _ & _ & _ & ->). auto.
  - destruct HI as (l & lo & ld & Hd & _).
    apply (step_GetNextBatch cfg st st' size_ rand e l) in Hs.
    + destruct Hs as (_ & _ & taken & rest & _ & _ & _ & _ & _ & ->).
      cbv zeta. cbn [cache_ loadThread_]. rewrite Ht, Hc.
      split; [|reflexivity]. destruct (_ =? 0); reflexivity.
    + unfold poolOf. now rewrite Ht, Hd.
  - apply step_Reset in Hs. destruct Hs as (reload & c & Hr & _ & ->).
    rewrite Hc in Hr. cbn in Hr. injection Hr as <- <-. auto.
Qed.

Lemma run_NoCache (sched : list (action Sample)) :
  forall st st' es,
    Inv cfg st -> boundedSchedule cfg sched ->
    run cfg st sched = Some (st', es) ->
    cache_ st = NoCacheStrategy -> loadThread_ st = true ->
    cache_ st' = NoCacheStrategy /\ loadThread_ st' = true.
Proof.
  induction sched as [|a sched IH]; intros st st' es HI Hb Hr Hc Ht.
  - injection Hr as <- _. auto.
  - cbn [run] in Hr.
    destruct (step cfg st a) as [[st1 e]|] eqn:Hs; [|discriminate].
    destruct (run cfg st1 sched) as [[st2 es']|] eqn:Hr'; [|discriminate].
    injection Hr as <- _. inversion Hb as [|? ? Ha Hb']; subst.
    destruct (step_NoCache st st1 a e HI Hs Hc Ht) as [Hc1 Ht1].
    apply (IH st1 st2 es' (Inv_step cfg st st1 a e HI Ha Hs) Hb' Hr' Hc1 Ht1).
Qed.

(** What the invariant says of the fields. *)
Lemma Inv_fields (st : PyDataProvider2 Sample) :
  Inv cfg st ->
  exists l,
    dataPool_ st = map Some l
    /\ poolActualSize_ st = totalWeight cfg l
    /\ 0 <= poolActualSize_ st < SIZE_MOD
    /\ (loadThread_ st = false ->
        dataPool_ st = [] /\ callingContexts_ st = [] /\ loading st = None)
    /\ (loading st <> None -> callingContexts_ st <> [])
    /\ (loadThread_ st = true ->
        cache_ st = NoCacheStrategy
        \/ exists d, cache_ st = CacheOnePassInMemory [] d).
Proof.
  intros (l & lo & ld & Hd & Hc & Hp & Hw & Hl & Hnt & Ht).
  exists l. split; [exact Hd|]. split; [exact Hp|].
  split.
  { rewrite Hp. pose proof (totalWeight_nonneg cfg l).
    unfold stream in Hw. rewrite !totalWeight_app in Hw.
    pose proof (totalWeight_nonneg cfg (optList (loading st))).
    pose proof (totalWeight_nonneg cfg (concat (callingContexts_ st))).
    pose proof (totalWeight_nonneg cfg lo).
    pose proof (totalWeight_nonneg cfg ld). lia. }
  split.
  { intros Hf. destruct (Hnt Hf) as [Hctx ->]. rewrite Hd.
    repeat split; auto.
    destruct (loading st) eqn:E; [|reflexivity].
    destruct Hl as [_ Hl]; [discriminate|congruence]. }
  split; [intros H; apply Hl; exact H|].
  intros Htrue. specialize (Ht Htrue). subst lo.
  destruct (cache_ st) as [|o d]; [now left|right].
  cbn in Hc. exists d. injection Hc as -> _. reflexivity.
Qed.

(** X4: in every state the provider reaches from its first reset, through
    any schedule of the loading thread's sections, the consumer's calls
    and resets (the weights of one pass not overflowing [size_t]): every
    handle in the data pool is non-null and [poolActualSize_] is the sum
    of the weights of the samples in the pool; without a loading thread
    the pool and the generators are empty and no sample is being pushed;
    while a thread loads the cache's replay buffer is empty; and without
    a cache a thread loads at all times. *)
Theorem reachable_states (ct : CacheType) (uninit : Z)
  (generators : list (list Sample)) (sched : list (action Sample))
  (st0 st : PyDataProvider2 Sample) (es : list (event Sample)) :
  totalWeight cfg (concat generators) < SIZE_MOD ->
  boundedSchedule cfg sched ->
  resetImpl true generators (PyDataProvider2_ctor ct uninit) = Ok st0 ->
  run cfg st0 sched = Some (st, es) ->
  (exists l,
      dataPool_ st = map Some l
      /\ poolActualSize_ st = totalWeight cfg l
      /\ 0 <= poolActualSize_ st < SIZE_MOD
      /\ (loadThread_ st = false ->
          dataPool_ st = [] /\ callingContexts_ st = [] /\ loading st = None)
      /\ (loading st <> None -> callingContexts_ st <> [])
      /\ (loadThread_ st = true ->
          cache_ st = NoCacheStrategy
          \/ exists d, cache_ st = CacheOnePassInMemory [] d))
  /\ (ct = NO_CACHE -> loadThread_ st = true /\ cache_ st = NoCacheStrategy).
Proof.
  intros Hg Hb H0 Hr.
  destruct (Inv_start cfg ct uninit generators st0 Hg H0) as [HI ->].
  split.
  - apply Inv_fields. exact (Inv_run cfg sched _ _ _ HI Hb Hr).
  - intros ->.
    destruct (run_NoCache sched _ _ _ HI Hb Hr eq_refl eq_refl); auto.
Qed.

(** Between two actions, the part of [getNextBatchInternal] that works
    on the pool aborts exactly when the size is negative or when no thread
    loads and there is no cache; otherwise it draws: no access is out of
    range and no handle drawn is null. *)
Lemma getNextBatchInternal_pool_aborts (rand : nat -> Z) (size_ : Z)
  (st : PyDataProvider2 Sample) :
  Inv cfg st ->
  (getNextBatchInternal_pool cfg rand size_ st = Fatal
   <-> size_ < 0 \/ (loadThread_ st = false /\ cache_ st = NoCacheStrategy))
  /\ (getNextBatchInternal_pool cfg rand size_ st = Fatal
      \/ exists result batch st',
           getNextBatchInternal_pool cfg rand size_ st = Ok (result, batch, st')
           /\ Forall (fun h => h <> None) batch).
Proof.
  intros HI. pose proof HI as (l & lo & ld & Hd & Hc & _).
  pose proof (poolOf_Inv st l lo ld Hd Hc) as Hpool.
  destruct (Z.ltb_spec size_ 0) as [Hneg|Hpos].
  { assert (Hf : getNextBatchInternal_pool cfg rand size_ st = Fatal).
    { unfold getNextBatchInternal_pool.
      destruct (Z.ltb_spec size_ 0); [reflexivity|lia]. }
    split; [|now left]. split; [now left|intros _; exact Hf]. }
  destruct (loadThread_ st) eqn:Ht.
  - destruct (getNextBatchInternal_pool_spec cfg rand size_ st l Hpos Hpool)
      as (taken & rest & _ & _ & _ & _ & _ & Heq).
    cbv zeta in Heq. split.
    + split; [rewrite Heq; discriminate|].
      intros [?|[? _]]; [lia|discriminate].
    + right. do 3 eexists. split; [exact Heq|].
      destruct (_ =? 0); [constructor|apply map_Some_nonnull].
  - destruct (cache_ st) as [|o d] eqn:Hcache.
    + assert (Hf : getNextBatchInternal_pool cfg rand size_ st = Fatal).
      { unfold getNextBatchInternal_pool, poolOf. rewrite Ht, Hcache.
        destruct (Z.ltb_spec size_ 0); reflexivity. }
      split; [|now left]. split; [now right|intros _; exact Hf].
    + destruct (getNextBatchInternal_pool_spec cfg rand size_ st lo Hpos Hpool)
        as (taken & rest & _ & _ & _ & _ & _ & Heq).
      cbv zeta in Heq. split.
      * split; [rewrite Heq; discriminate|].
        intros [?|[_ ?]]; [lia|discriminate].
      * right. do 3 eexists. split; [exact Heq|].
        destruct (_ =? 0); [constructor|apply map_Some_nonnull].
Qed.

End ProviderStates.

Section StrictPush.

Context {Sample : Type}.
Variable cfg : Config Sample.
Hypothesis strict : canOverBatchSize_ cfg = false.

Lemma heavy_not_ready (st : PyDataProvider2 Sample) (data : Sample) :
  Inv cfg st -> loading st = Some data ->
  poolSize_ cfg <= batchSizeOf cfg data ->
  pushReady cfg (poolActualSize_ st) (batchSizeOf cfg data) = false
  /\ loadThread_ st = true /\ callingContexts_ st <> [].
Proof.
  intros (l & lo & ld & _ & _ & Hp & Hw & Hl & _) Hload Hheavy.
  destruct Hl as [Hctx Ht]; [congruence|].
  split; [|auto].
  unfold pushReady. rewrite strict. apply Z.ltb_ge.
  unfold stream in Hw. rewrite Hload, !totalWeight_app in Hw.
  cbn [optList] in Hw. rewrite totalWeight_cons, totalWeight_nil in Hw.
  pose proof (totalWeight_nonneg cfg l).
  pose proof (totalWeight_nonneg cfg (concat (callingContexts_ st))).
  pose proof (totalWeight_nonneg cfg lo).
  pose proof (totalWeight_nonneg cfg ld).
  pose proof (batchSizeOf_range cfg data).
  rewrite Hp, size_add_small by lia. lia.
Qed.

Lemma heavy_step (st st' : PyDataProvider2 Sample) (data : Sample) a e :
  Inv cfg st -> loading st = Some data ->
  poolSize_ cfg <= batchSizeOf cfg data ->
  step cfg st a = Some (st', e) ->
  (exists size_ rand result batch,
      a = GetNextBatch size_ rand /\ e = Batch size_ result batch)
  /\ loading st' = Some data.
Proof.
  intros HI Hload Hheavy Hs.
  destruct (heavy_not_ready st data HI Hload Hheavy) as (Hnr & Ht & _).
  destruct a as [dist| |size_ rand|generators].
  - apply step_LoadRead in Hs. destruct Hs as (_ & Hnone & _). congruence.
  - apply step_LoadPush in Hs. destruct Hs as (d & Hd & _ & Hr & _).
    congruence.
  - destruct HI as (l & lo & ld & Hd & _).
    apply (step_GetNextBatch cfg st st' size_ rand e l) in Hs.
    + destruct Hs as (_ & _ & taken & rest & _ & _ & _ & _ & -> & ->).
      cbn [loading]. split; [|assumption]. do 4 eexists. split; reflexivity.
    + unfold poolOf. now rewrite Ht, Hd.
  - cbn [step] in Hs. rewrite Hload, Ht, Hnr in Hs. discriminate.
Qed.

(** X6: when the batch size may not be exceeded, a sample whose weight is
    at least the pool size is never pushed.  From the moment the loading
    thread holds it (the weights of the pass not overflowing), the
    predicate the thread waits on is false whatever the consumer takes
    out of the pool: the only actions that can happen are calls of
    [getNextBatchInternal]; the thread reads and pushes nothing more, a
    reset never returns from joining the thread, and once the pool is
    empty a call of positive size waits for ever. *)
Theorem heavy_sample_blocks (st st' : PyDataProvider2 Sample) (data : Sample)
  (sched : list (action Sample)) (es : list (event Sample)) :
  Inv cfg st -> loading st = Some data ->
  poolSize_ cfg <= batchSizeOf cfg data ->
  run cfg st sched = Some (st', es) ->
  Forall (fun a => exists size_ rand, a = GetNextBatch size_ rand) sched
  /\ loading st' = Some data
  /\ pulls es = [] /\ pushes es = []
  /\ step cfg st' LoadPush = None
  /\ (forall dist, step cfg st' (LoadRead dist) = None)
  /\ (forall generators, step cfg st' (Reset generators) = None)
  /\ (dataPool_ st' = [] ->
      forall size_ rand, 1 <= to_size_t size_ ->
        step cfg st' (GetNextBatch size_ rand) = None).
Proof.
  intros HI Hload Hheavy. revert st st' es HI Hload.
  induction sched as [|a sched IH]; intros st st' es HI Hload Hr.
  - injection Hr as <- <-.
    destruct (heavy_not_ready st data HI Hload Hheavy) as (Hnr & Ht & Hctx).
    split; [constructor|]. split; [assumption|].
    split; [reflexivity|]. split; [reflexivity|].
    split; [cbn [step]; now rewrite Hload, Ht, Hnr|].
    split; [intros dist; cbn [step]; now rewrite Hload|].
    split; [intros g; cbn [step]; now rewrite Hload, Ht, Hnr|].
    intros Hempty size_ rand Hsize. cbn [step]. rewrite Ht. cbn [negb orb].
    destruct HI as (l & lo & ld & Hd & _ & Hp & _).
    rewrite Hempty in Hd. destruct l; [|discriminate].
    unfold pullReady. rewrite Hp. cbn [totalWeight fold_right].
    destruct (Z.leb_spec (to_size_t size_) 0); [lia|].
    destruct (callingContexts_ st); [contradiction|reflexivity].
  - cbn [run] in Hr.
    destruct (step cfg st a) as [[st1 e]|] eqn:Hs; [|discriminate].
    destruct (run cfg st1 sched) as [[st2 es']|] eqn:Hr'; [|discriminate].
    injection Hr as <- <-.
    destruct (heavy_step st st1 data a e HI Hload Hheavy Hs)
      as ((size_ & rand & result & batch & -> & ->) & Hload1).
    assert (HI1 : Inv cfg st1) by (apply (Inv_step cfg st st1 (GetNextBatch size_ rand) _ HI I Hs)).
    destruct (IH st1 st2 es' HI1 Hload1 Hr') as (Hall & Hl2 & Hpl & Hps & Hrest).
    split; [constructor; [eauto|assumption]|].
    split; [assumption|]. split; [exact Hpl|]. split; [exact Hps|exact Hrest].
Qed.

End StrictPush.

(** ** Where the samples of a pass go *)

Section PassLedger.

Context {Sample : Type}.
Variable cfg : Config Sample.
Hypothesis weights_positive : forall s : Sample, 0 < batchSizeOf cfg s.

Lemma batches_cons_other (e : event Sample) es :
  (forall n r b, e <> Batch n r b) -> batches (e :: es) = batches es.
Proof.
  intros H. destruct e; try reflexivity. exfalso. eapply H. reflexivity.
Qed.

Lemma concat_mid {A} (c1 c2 : list (list A)) (x : A) (rest : list A) :
  Permutation (x :: concat (c1 ++ rest :: c2)) (concat (c1 ++ (x :: rest) :: c2)).
Proof.
  rewrite !concat_app. cbn [concat app].
  apply (Permutation_middle (concat c1) (rest ++ concat c2) x).
Qed.

Lemma concat_drop_nil {A} (c1 c2 : list (list A)) :
  concat (c1 ++ [] :: c2) = concat (c1 ++ c2).
Proof. now rewrite !concat_app. Qed.

(** One action of a pass in which a thread loads: the samples the action
    delivers and those still to come are the samples that were still to
    come, and a one-pass cache collects what is delivered. *)
Lemma step_ledger (st st1 : PyDataProvider2 Sample) a e (l : list Sample) :
  Inv cfg st -> loadThread_ st = true -> dataPool_ st = map Some l ->
  noReset [a] ->
  step cfg st a = Some (st1, e) ->
  loadThread_ st1 = true
  /\ exists l1 taken,
       dataPool_ st1 = map Some l1
       /\ concat (batches [e]) = map Some taken
       /\ Permutation (taken ++ stream st1 l1) (stream st l)
       /\ (skipShuffle_ cfg = true -> taken ++ stream st1 l1 = stream st l)
       /\ (forall ld, cache_ st = CacheOnePassInMemory [] (map Some ld) ->
           cache_ st1 = CacheOnePassInMemory [] (map Some (ld ++ taken)))
       /\ (cache_ st = NoCacheStrategy -> cache_ st1 = NoCacheStrategy).
Proof.
  intros HI Hth Hd Hnr Hs.
  destruct HI as (l0 & lo & ld0 & Hd0 & Hc & Ha & Hb & Hl & Hnt & Ht).
  rewrite Hd in Hd0. apply map_Some_inj in Hd0. subst l0.
  destruct a as [dist| |size_ rand|generators].
  - apply step_LoadRead in Hs.
    destruct Hs as (_ & Hload & c1 & ctx & c2 & Hcs & Hskip & Hctx).
    unfold stream. rewrite Hcs, Hload.
    destruct ctx as [|data rest]; destruct Hctx as [-> ->];
      (split; [reflexivity|]); exists l, [];
      cbn [dataPool_ cache_ loading callingContexts_ optList app];
      (split; [assumption|]); (split; [reflexivity|]).
    + rewrite concat_drop_nil. split; [reflexivity|].
      split; [reflexivity|]. split; [|auto].
      intros ld ->. now rewrite app_nil_r.
    + split; [apply Permutation_app_head, concat_mid|].
      split; [intros Hsk; rewrite (Hskip Hsk); reflexivity|].
      split; [|auto]. intros ld ->. now rewrite app_nil_r.
  - apply step_LoadPush in Hs.
    destruct Hs as (data & Hload & _ & _ & -> & ->).
    split; [reflexivity|]. exists (l ++ [data]), [].
    unfold stream. rewrite Hload.
    cbn [dataPool_ cache_ loading callingContexts_ optList app].
    rewrite Hd, map_app, <- app_assoc.
    split; [reflexivity|]. split; [reflexivity|].
    split; [reflexivity|]. split; [reflexivity|]. split; [|auto].
    intros ld ->. now rewrite app_nil_r.
  - assert (Hpool : poolOf st = Some (map Some l)).
    { unfold poolOf. now rewrite Hth, Hd. }
    destruct (step_GetNextBatch cfg st st1 size_ rand e l Hpool Hs)
      as (_ & _ & taken & rest & Hp & Hfifo & _ & _ & Hst).
    cbv zeta in Hst. destruct Hst as [-> ->].
    pose proof (totalWeight_Permutation cfg _ _ Hp) as Htw.
    unfold stream in Hb. rewrite !totalWeight_app in *.
    pose proof (totalWeight_nonneg cfg taken).
    pose proof (totalWeight_nonneg cfg rest).
    pose proof (totalWeight_nonneg cfg (optList (loading st))).
    pose proof (totalWeight_nonneg cfg (concat (callingContexts_ st))).
    pose proof (totalWeight_nonneg cfg lo).
    pose proof (totalWeight_nonneg cfg ld0).
    destruct (batch_is_taken cfg weights_positive taken) as [Hbatch Hacc];
      [lia|].
    unfold deque, PyObjectPtr in *.
    rewrite Hbatch. cbn [loadThread_ dataPool_ cache_]. rewrite Hth.
    split; [reflexivity|]. exists rest, taken.
    split; [reflexivity|].
    split; [cbn [batches flat_map concat app]; now rewrite app_nil_r|].
    unfold stream. cbn [loading callingContexts_].
    split; [rewrite app_assoc; now apply Permutation_app_tail|].
    split.
    { intros Hsk. specialize (Hfifo Hsk). apply fifo_take_spec in Hfifo.
      destruct Hfifo as [<- _]. now rewrite app_assoc. }
    split.
    + intros ld Hcache. rewrite Hcache.
      destruct (accumulate cfg 0 taken =? 0) eqn:E.
      * apply Z.eqb_eq in E. rewrite Hacc in E.
        rewrite (totalWeight_zero cfg weights_positive taken E), app_nil_r.
        reflexivity.
      * cbn [cache_drop].
        rewrite CacheOnePassInMemory_drop_app, map_app. reflexivity.
    + intros ->. destruct (_ =? 0); reflexivity.
  - inversion Hnr as [|? ? Hf _]. destruct Hf.
Qed.

Lemma run_ledger (sched : list (action Sample)) :
  forall st st' es l,
    Inv cfg st -> loadThread_ st = true -> dataPool_ st = map Some l ->
    noReset sched ->
    run cfg st sched = Some (st', es) ->
    loadThread_ st' = true
    /\ exists l' delivered,
         dataPool_ st' = map Some l'
         /\ concat (batches es) = map Some delivered
         /\ Permutation (delivered ++ stream st' l') (stream st l)
         /\ (skipShuffle_ cfg = true ->
             delivered ++ stream st' l' = stream st l)
         /\ (forall ld, cache_ st = CacheOnePassInMemory [] (map Some ld) ->
             cache_ st' = CacheOnePassInMemory [] (map Some (ld ++ delivered)))
         /\ (cache_ st = NoCacheStrategy -> cache_ st' = NoCacheStrategy).
Proof.
  induction sched as [|a sched IH]; intros st st' es l HI Hth Hd Hnr Hr;
    cbn [run] in Hr.
  - injection Hr as <- <-. split; [assumption|]. exists l, [].
    cbn [app batches flat_map concat map].
    repeat split; auto. intros ld ->. now rewrite app_nil_r.
  - destruct (step cfg st a) as [[st1 e]|] eqn:Hs; [|discriminate].
    destruct (run cfg st1 sched) as [[st2 es2]|] eqn:Hr2; [|discriminate].
    injection Hr as <- <-. inversion Hnr as [|? ? Ha Hnr']; subst.
    assert (Hnr1 : noReset [a]) by (constructor; [assumption|constructor]).
    destruct (step_ledger st st1 a e l HI Hth Hd Hnr1 Hs)
      as (Hth1 & l1 & taken & Hd1 & Hb1 & Hp1 & Hf1 & Hc1 & Hn1).
    assert (HI1 : Inv cfg st1).
    { eapply Inv_step; eauto. destruct a; simpl; auto. destruct Ha. }
    destruct (IH st1 st2 es2 l1 HI1 Hth1 Hd1 Hnr' Hr2)
      as (Hth2 & l2 & delivered & Hd2 & Hb2 & Hp2 & Hf2 & Hc2 & Hn2).
    split; [assumption|]. exists l2, (taken ++ delivered).
    split; [assumption|].
    split.
    { change (e :: es2) with ([e] ++ es2).
      rewrite batches_app, concat_app, Hb1, Hb2, map_app. reflexivity. }
    split.
    { rewrite <- app_assoc. etransitivity; [|exact Hp1].
      now apply Permutation_app_head. }
    split.
    { intros Hsk. rewrite <- app_assoc, (Hf2 Hsk). exact (Hf1 Hsk). }
    split.
    + intros ld Hcache. rewrite (Hc2 _ (Hc1 _ Hcache)), app_assoc. reflexivity.
    + intros Hno. exact (Hn2 (Hn1 Hno)).
Qed.

(** X7: in a pass, with weights that are positive and do not overflow, no
    sample is lost and none is delivered twice, shuffling or not: at any
    moment the samples delivered so far, those in the pool, the one the
    loading thread holds and those the generators have yet to yield are,
    up to order, the samples the generators yield in the pass; and a
    one-pass cache has collected the samples delivered, in the order of
    delivery. *)
Theorem samples_conserved (ct : CacheType) (uninit : Z)
  (generators : list (list Sample)) (sched : list (action Sample))
  (start st : PyDataProvider2 Sample) (es : list (event Sample)) :
  totalWeight cfg (concat generators) < SIZE_MOD ->
  resetImpl true generators (PyDataProvider2_ctor ct uninit) = Ok start ->
  noReset sched ->
  run cfg start sched = Some (st, es) ->
  exists pool delivered,
    dataPool_ st = map Some pool
    /\ concat (batches es) = map Some delivered
    /\ Permutation
         (delivered ++ pool ++ optList (loading st)
            ++ concat (callingContexts_ st))
         (concat generators)
    /\ (ct = CACHE_PASS_IN_MEM ->
        cache_ st = CacheOnePassInMemory [] (map Some delivered)).
Proof.
  intros Hg Hstart Hnr Hr.
  destruct (Inv_start cfg ct uninit generators start Hg Hstart) as [HI ->].
  destruct (run_ledger sched _ st es [] HI eq_refl eq_refl Hnr Hr)
    as (_ & l' & delivered & Hd & Hb & Hp & _ & Hc & _).
  exists l', delivered. split; [assumption|]. split; [assumption|].
  split; [exact Hp|].
  intros ->. exact (Hc [] eq_refl).
Qed.

(** X8: with shuffling off, and weights that are positive and do not
    overflow, the samples are delivered in the order in which the
    generators yield them, the first generator's first and each generator
    to its end before the next: the samples delivered so far, followed by
    the pool, the sample held by the loading thread and what the
    generators have yet to yield, are the samples of the generators in
    order. *)
Theorem unshuffled_delivery_order (ct : CacheType) (uninit : Z)
  (generators : list (list Sample)) (sched : list (action Sample))
  (start st : PyDataProvider2 Sample) (es : list (event Sample)) :
  skipShuffle_ cfg = true ->
  totalWeight cfg (concat generators) < SIZE_MOD ->
  resetImpl true generators (PyDataProvider2_ctor ct uninit) = Ok start ->
  noReset sched ->
  run cfg start sched = Some (st, es) ->
  exists pool delivered,
    dataPool_ st = map Some pool
    /\ concat (batches es) = map Some delivered
    /\ delivered ++ pool ++ optList (loading st)
         ++ concat (callingContexts_ st)
       = concat generators
    /\ delivered = firstn (sampleCount es) (concat generators).
Proof.
  intros Hsk Hg Hstart Hnr Hr.
  destruct (Inv_start cfg ct uninit generators start Hg Hstart) as [HI ->].
  destruct (run_ledger sched _ st es [] HI eq_refl eq_refl Hnr Hr)
    as (_ & l' & delivered & Hd & Hb & _ & Hf & _).
  specialize (Hf Hsk). unfold stream in Hf.
  cbn [loading callingContexts_ optList app] in Hf.
  exists l', delivered. split; [assumption|]. split; [assumption|].
  split; [exact Hf|].
  unfold sampleCount. rewrite Hb, length_map, <- Hf.
  rewrite firstn_app, Nat.sub_diag, firstn_all. cbn [firstn].
  now rewrite app_nil_r.
Qed.

End PassLedger.

Section ReplayLedger.

Context {Sample : Type}.
Variable cfg : Config Sample.
Hypothesis weights_positive : forall s : Sample, 0 < batchSizeOf cfg s.

(** One action of a pass replayed from the cache. *)
Lemma step_replay_ledger (st st1 : PyDataProvider2 Sample) a e
  (lo ld : list Sample) :
  Inv cfg st -> loadThread_ st = false ->
  cache_ st = CacheOnePassInMemory (map Some lo) (map Some ld) ->
  noReset [a] ->
  step cfg st a = Some (st1, e) ->
  loadThread_ st1 = false
  /\ exists taken rest,
       concat (batches [e]) = map Some taken
       /\ cache_ st1
          = CacheOnePassInMemory (map Some rest) (map Some (ld ++ taken))
       /\ Permutation (taken ++ rest) lo
       /\ (skipShuffle_ cfg = true -> taken ++ rest = lo).
Proof.
  intros HI Hth Hcache Hnr Hs.
  destruct HI as (l0 & lo0 & ld0 & Hd0 & Hc & Ha & Hb & Hl & Hnt & Ht).
  rewrite Hcache in Hc. simpl in Hc. injection Hc as Hlo Hld.
  apply map_Some_inj in Hlo. apply map_Some_inj in Hld. subst lo0 ld0.
  destruct a as [dist| |size_ rand|generators].
  - apply step_LoadRead in Hs. destruct Hs as [Hs _]. congruence.
  - apply step_LoadPush in Hs. destruct Hs as (? & _ & Hs & _). congruence.
  - assert (Hpool : poolOf st = Some (map Some lo)).
    { unfold poolOf. now rewrite Hth, Hcache. }
    destruct (step_GetNextBatch cfg st st1 size_ rand e lo Hpool Hs)
      as (_ & _ & taken & rest & Hp & Hfifo & _ & _ & Hst).
    cbv zeta in Hst. destruct Hst as [-> ->].
    pose proof (totalWeight_Permutation cfg _ _ Hp) as Htw.
    rewrite !totalWeight_app in *.
    pose proof (totalWeight_nonneg cfg taken).
    pose proof (totalWeight_nonneg cfg rest).
    pose proof (totalWeight_nonneg cfg (stream st l0)).
    pose proof (totalWeight_nonneg cfg ld).
    destruct (batch_is_taken cfg weights_positive taken) as [Hbatch Hacc];
      [lia|].
    unfold deque, PyObjectPtr in *.
    rewrite Hbatch, Hacc in *. cbn [loadThread_ cache_]. rewrite Hth, Hcache.
    split; [reflexivity|]. exists taken, rest.
    split; [cbn [batches flat_map concat app]; now rewrite app_nil_r|].
    split.
    { cbn [cache_store].
      destruct (totalWeight cfg taken =? 0) eqn:E.
      - apply Z.eqb_eq in E.
        rewrite (totalWeight_zero cfg weights_positive taken E), app_nil_r.
        reflexivity.
      - cbn [cache_drop].
        rewrite CacheOnePassInMemory_drop_app, map_app. reflexivity. }
    split; [assumption|].
    intros Hsk. specialize (Hfifo Hsk). apply fifo_take_spec in Hfifo.
    now destruct Hfifo.
  - inversion Hnr as [|? ? Hf _]. destruct Hf.
Qed.

Lemma run_replay_ledger (sched : list (action Sample)) :
  forall st st' es lo ld,
    Inv cfg st -> loadThread_ st = false ->
    cache_ st = CacheOnePassInMemory (map Some lo) (map Some ld) ->
    noReset sched ->
    run cfg st sched = Some (st', es) ->
    Inv cfg st' /\ loadThread_ st' = false
    /\ exists delivered rest,
         concat (batches es) = map Some delivered
         /\ cache_ st'
            = CacheOnePassInMemory (map Some rest) (map Some (ld ++ delivered))
         /\ Permutation (delivered ++ rest) lo
         /\ (skipShuffle_ cfg = true -> delivered ++ rest = lo).
Proof.
  induction sched as [|a sched IH]; intros st st' es lo ld HI Hth Hc Hnr Hr;
    cbn [run] in Hr.
  - injection Hr as <- <-. split; [assumption|]. split; [assumption|].
    exists [], lo. rewrite app_nil_r. repeat split; auto.
  - destruct (step cfg st a) as [[st1 e]|] eqn:Hs; [|discriminate].
    destruct (run cfg st1 sched) as [[st2 es2]|] eqn:Hr2; [|discriminate].
    injection Hr as <- <-. inversion Hnr as [|? ? Ha Hnr']; subst.
    assert (Hnr1 : noReset [a]) by (constructor; [assumption|constructor]).
    destruct (step_replay_ledger st st1 a e lo ld HI Hth Hc Hnr1 Hs)
      as (Hth1 & taken & rest & Hb1 & Hc1 & Hp1 & Hf1).
    assert (HI1 : Inv cfg st1).
    { eapply Inv_step; eauto. destruct a; simpl; auto. destruct Ha. }
    destruct (IH st1 st2 es2 rest (ld ++ taken) HI1 Hth1 Hc1 Hnr' Hr2)
      as (HI2 & Hth2 & delivered & rest2 & Hb2 & Hc2 & Hp2 & Hf2).
    split; [assumption|]. split; [assumption|].
    exists (taken ++ delivered), rest2.
    split.
    { change (e :: es2) with ([e] ++ es2).
      rewrite batches_app, concat_app, Hb1, Hb2, map_app. reflexivity. }
    split; [rewrite Hc2, app_assoc; reflexivity|].
    split.
    { rewrite <- app_assoc. etransitivity; [|exact Hp1].
      now apply Permutation_app_head. }
    intros Hsk. rewrite <- app_assoc, (Hf2 Hsk). exact (Hf1 Hsk).
Qed.

(** A reset with nothing left to replay and something collected. *)
Lemma reset_to_replay (st : PyDataProvider2 Sample) (ld : list Sample)
  (generators : list (list Sample)) :
  Inv cfg st -> loading st = None ->
  cache_ st = CacheOnePassInMemory [] (map Some ld) -> ld <> [] ->
  let st2 := {| loadThread_ := false;
                callingContexts_ := [];
                dataPool_ := [];
                poolActualSize_ := 0;
                cache_ := CacheOnePassInMemory (map Some ld) [];
                loading := None |} in
  step cfg st (Reset generators) = Some (st2, Restarted false)
  /\ Inv cfg st2.
Proof.
  intros HI Hload Hc Hld st2. split.
  - unfold step. rewrite Hload, orb_true_r. unfold resetImpl.
    rewrite Hc. cbn [cache_reset]. unfold CacheOnePassInMemory_reset.
    destruct ld; [congruence|]. reflexivity.
  - destruct HI as (l & lo & ld0 & _ & Hc0 & _ & Hb & _).
    rewrite Hc in Hc0. simpl in Hc0. injection Hc0 as Hlo Hldd.
    apply map_Some_inj in Hldd. subst ld0.
    exists [], ld, []. unfold stream. simpl.
    pose proof (totalWeight_nonneg cfg (stream st l)).
    pose proof (totalWeight_nonneg cfg lo).
    repeat split; auto; try congruence; try lia.
Qed.

(** X9: under the one-pass cache, with weights that are positive and do
    not overflow, the pass replayed after a complete first pass hands out
    the very samples of the first pass, each at most once: what has been
    delivered in the replay and what the cache has still to replay are
    together, up to order, the samples delivered in the first pass, which
    are the samples the generators yielded; with shuffling off the order
    is that of the first pass, which is the order of the generators. *)
Theorem replay_hands_out_first_pass (uninit : Z)
  (generators generators' : list (list Sample))
  (sched1 sched2 : list (action Sample))
  (start st1 st2 st3 : PyDataProvider2 Sample)
  (es1 es2 : list (event Sample)) (e : event Sample) :
  totalWeight cfg (concat generators) < SIZE_MOD ->
  concat generators <> [] ->
  resetImpl true generators (PyDataProvider2_ctor CACHE_PASS_IN_MEM uninit)
  = Ok start ->
  noReset sched1 ->
  run cfg start sched1 = Some (st1, es1) ->
  callingContexts_ st1 = [] ->
  dataPool_ st1 = [] ->
  step cfg st1 (Reset generators') = Some (st2, e) ->
  noReset sched2 ->
  run cfg st2 sched2 = Some (st3, es2) ->
  exists first second rest,
    concat (batches es1) = map Some first
    /\ Permutation first (concat generators)
    /\ e = Restarted false
    /\ concat (batches es2) = map Some second
    /\ cache_ st3 = CacheOnePassInMemory (map Some rest) (map Some second)
    /\ Permutation (second ++ rest) first
    /\ (skipShuffle_ cfg = true ->
        first = concat generators /\ second ++ rest = first).
Proof.
  intros Hg Hne Hstart Hnr1 Hr1 Hctx Hpool Hreset Hnr2 Hr2.
  destruct (Inv_start cfg CACHE_PASS_IN_MEM uninit generators start Hg Hstart)
    as [HI ->].
  destruct (run_ledger cfg weights_positive sched1 _ st1 es1 []
              HI eq_refl eq_refl Hnr1 Hr1)
    as (_ & l1 & first & Hd1 & Hb1 & Hp1 & Hf1 & Hc1 & _).
  specialize (Hc1 [] eq_refl). cbn [app] in Hc1.
  pose proof (Inv_run cfg sched1 _ _ _ HI
                (noReset_bounded cfg sched1 Hnr1) Hr1) as HI1.
  rewrite Hpool in Hd1. destruct l1; [|discriminate].
  assert (Hload : loading st1 = None).
  { destruct HI1 as (? & ? & ? & _ & _ & _ & _ & Hl & _).
    destruct (loading st1); [|reflexivity].
    destruct Hl as [Hl _]; congruence. }
  unfold stream in Hp1, Hf1. rewrite Hctx, Hload in Hp1, Hf1.
  cbn [loading callingContexts_ optList app concat] in Hp1, Hf1.
  rewrite app_nil_r in Hp1, Hf1.
  assert (Hfirst : first <> []).
  { intros ->. apply Permutation_nil in Hp1. congruence. }
  destruct (reset_to_replay st1 first generators' HI1 Hload Hc1 Hfirst)
    as [Hstep HI2].
  cbv zeta in Hstep. rewrite Hstep in Hreset. injection Hreset as <- <-.
  destruct (run_replay_ledger sched2 _ st3 es2 first [] HI2 eq_refl eq_refl
              Hnr2 Hr2)
    as (_ & _ & second & rest & Hb2 & Hc2 & Hp2 & Hf2).
  exists first, second, rest.
  split; [assumption|]. split; [assumption|]. split; [reflexivity|].
  split; [assumption|]. split; [exact Hc2|]. split; [assumption|].
  intros Hsk. split; [exact (Hf1 Hsk)|exact (Hf2 Hsk)].
Qed.

(** X10: in a pass replayed from the cache (weights positive and not
    overflowing), the samples delivered and those still to replay are, up
    to order, the samples the pass started with.  A reset made while some
    are still to replay aborts.  A reset made once all have been
    delivered starts no thread and the next pass replays the same samples
    again, in the order in which this pass delivered them; so every pass
    after the first delivers the samples of the first. *)
Theorem replay_pass_repeats (st st' : PyDataProvider2 Sample)
  (lo : list Sample) (sched : list (action Sample))
  (es : list (event Sample)) :
  Inv cfg st -> loadThread_ st = false ->
  cache_ st = CacheOnePassInMemory (map Some lo) [] ->
  noReset sched ->
  run cfg st sched = Some (st', es) ->
  exists delivered rest,
    concat (batches es) = map Some delivered
    /\ Permutation (delivered ++ rest) lo
    /\ cache_ st' = CacheOnePassInMemory (map Some rest) (map Some delivered)
    /\ (rest <> [] ->
        forall generators,
          resetImpl true generators st' = Fatal
          /\ step cfg st' (Reset generators) = None)
    /\ (rest = [] -> lo <> [] ->
        forall generators,
          exists st2,
            step cfg st' (Reset generators) = Some (st2, Restarted false)
            /\ Inv cfg st2 /\ loadThread_ st2 = false
            /\ cache_ st2 = CacheOnePassInMemory (map Some delivered) []
            /\ Permutation delivered lo).
Proof.
  intros HI Hth Hc Hnr Hr.
  destruct (run_replay_ledger sched st st' es lo [] HI Hth Hc Hnr Hr)
    as (HI' & Hth' & delivered & rest & Hb & Hc' & Hp & _).
  cbn [app] in Hc'.
  exists delivered, rest.
  split; [assumption|]. split; [assumption|]. split; [assumption|].
  split.
  - intros Hrest generators.
    assert (Hf : resetImpl true generators st' = Fatal).
    { unfold resetImpl. rewrite Hc'. cbn [cache_reset].
      unfold CacheOnePassInMemory_reset.
      destruct rest; [congruence|]. reflexivity. }
    split; [exact Hf|].
    cbn [step]. rewrite Hth', Hf. reflexivity.
  - intros -> Hlo generators. rewrite app_nil_r in Hp.
    assert (Hload : loading st' = None).
    { destruct HI' as (? & ? & ? & _ & _ & _ & _ & Hl & _).
      destruct (loading st'); [|reflexivity].
      destruct Hl as [_ Hl]; congruence. }
    assert (Hd : delivered <> []).
    { intros ->. apply Permutation_nil in Hp. congruence. }
    destruct (reset_to_replay st' delivered generators HI' Hload Hc' Hd)
      as [Hstep HI2].
    eexists. split; [exact Hstep|]. split; [exact HI2|].
    split; [reflexivity|]. split; [reflexivity|assumption].
Qed.

End ReplayLedger.

Section DrawClosedForm.

Context {Sample : Type}.
Variable cfg : Config Sample.

(** X11: which handle a draw takes and what it leaves, for any pool, null
    handles included.  Without shuffling the handle at the front is taken
    and the others keep their order.  With shuffling the handle at index
    [rand() % pool.size()] is taken, the handle at the back takes its
    place and the others keep their places (the handle at the back itself
    is just removed); a null handle at the index drawn fails the CHECK in
    both cases. *)
Theorem draw_takes (r : Z) (l1 l2 : deque Sample) (h : PyObjectPtr Sample) :
  (skipShuffle_ cfg = true ->
   draw cfg r (h :: l2)
   = match h with
     | Some _ => Ok (h, l2)
     | None => Fatal
     end)
  /\ (skipShuffle_ cfg = false ->
      to_size_t r mod Z.of_nat (length (l1 ++ h :: l2)) = Z.of_nat (length l1) ->
      draw cfg r (l1 ++ h :: l2)
      = match h with
        | Some _ => Ok (h, l1 ++ removelast (last l2 h :: l2))
        | None => Fatal
        end).
Proof.
  split.
  - intros Hskip. unfold draw. rewrite Hskip.
    destruct h; reflexivity.
  - intros Hskip Hidx. unfold draw. rewrite Hskip. cbv zeta.
    unfold deque, PyObjectPtr in *. rewrite Hidx.
    assert (Hn : Z.of_nat (length (l1 ++ h :: l2))
                 = Z.of_nat (length l1) + 1 + Z.of_nat (length l2)).
    { rewrite length_app. simpl. lia. }
    destruct (Z.eqb_spec (Z.of_nat (length (l1 ++ h :: l2))) 0); [lia|].
    rewrite (read_at_mid l1) by reflexivity. cbn [bind].
    destruct h as [x|]; [|reflexivity].
    destruct (Z.eqb_spec (Z.of_nat (length l1))
                (Z.of_nat (length (l1 ++ Some x :: l2)) - 1)) as [Hlast|Hnl];
      cbn [negb bind].
    + assert (l2 = []) as ->.
      { destruct l2; [reflexivity|]. simpl in Hn. lia. }
      rewrite (read_at_mid l1) by lia.
      cbn [bind last removelast]. rewrite removelast_snoc, app_nil_r.
      reflexivity.
    + destruct (exists_last (l:=l2)) as (l2' & y & ->).
      { intros ->. simpl in Hn. lia. }
      assert (Hn1 : Z.of_nat (length (l1 ++ Some x :: l2' ++ [y])) - 1
                    = Z.of_nat (length l1) + 1 + Z.of_nat (length l2')).
      { rewrite !length_app. cbn [length]. rewrite length_app. simpl. lia. }
      rewrite Hn1.
      replace (l1 ++ Some x :: l2' ++ [y])
        with ((l1 ++ Some x :: l2') ++ [y])
        by (rewrite <- app_assoc; reflexivity).
      rewrite (read_at_mid (l1 ++ Some x :: l2')).
      2:{ rewrite length_app. cbn [length]. lia. }
      cbn [bind]. rewrite <- app_assoc. cbn [app].
      rewrite (write_at_mid l1) by reflexivity.
      cbn [bind].
      replace (l1 ++ y :: l2' ++ [y])
        with ((l1 ++ y :: l2') ++ [y])
        by (rewrite <- app_assoc; reflexivity).
      rewrite (write_at_mid (l1 ++ y :: l2')).
      2:{ rewrite length_app. cbn [length]. lia. }
      cbn [bind].
      rewrite (read_at_mid (l1 ++ y :: l2')).
      2:{ rewrite length_app. cbn [length]. lia. }
      cbn [bind]. rewrite removelast_snoc, last_last.
      change (y :: l2' ++ [y]) with ((y :: l2') ++ [y]).
      rewrite removelast_snoc. reflexivity.
Qed.

End DrawClosedForm.

Section InterruptedPass.

Context {Sample : Type}.
Variable cfg : Config Sample.
Hypothesis weights_positive : forall s : Sample, 0 < batchSizeOf cfg s.

(** X20: under the one-pass cache the pass that follows a reset replays
    what the first pass delivered, whether the first pass was complete or
    not: if the provider is reset after some samples have been delivered
    (weights positive and not overflowing), no thread is started, the
    generators handed to the reset are not used, and the cache replays
    exactly the samples delivered so far, in the order of delivery; the
    samples the first pass had not delivered yet are in no later pass. *)
Theorem interrupted_pass_is_replayed (uninit : Z)
  (generators generators' : list (list Sample))
  (sched1 : list (action Sample))
  (start st1 st2 : PyDataProvider2 Sample)
  (es1 : list (event Sample)) (e : event Sample) :
  totalWeight cfg (concat generators) < SIZE_MOD ->
  resetImpl true generators (PyDataProvider2_ctor CACHE_PASS_IN_MEM uninit)
  = Ok start ->
  noReset sched1 ->
  run cfg start sched1 = Some (st1, es1) ->
  sampleCount es1 <> 0%nat ->
  step cfg st1 (Reset generators') = Some (st2, e) ->
  exists delivered,
    concat (batches es1) = map Some delivered
    /\ e = Restarted false
    /\ st2 = {| loadThread_ := false;
                callingContexts_ := [];
                dataPool_ := [];
                poolActualSize_ := 0;
                cache_ := CacheOnePassInMemory (map Some delivered) [];
                loading := None |}
    /\ (length delivered <= length (concat generators))%nat.
Proof.
  intros Hg Hstart Hnr Hr Hcount Hreset.
  destruct (Inv_start cfg CACHE_PASS_IN_MEM uninit generators start Hg Hstart)
    as [HI ->].
  destruct (run_ledger cfg weights_positive sched1 _ st1 es1 []
              HI eq_refl eq_refl Hnr Hr)
    as (_ & l1 & delivered & _ & Hb & Hp & _ & Hc & _).
  specialize (Hc [] eq_refl). cbn [app] in Hc.
  exists delivered. split; [exact Hb|].
  assert (Hd : delivered <> []).
  { intros ->. apply Hcount. unfold sampleCount. now rewrite Hb. }
  assert (Hlen : (length delivered <= length (concat generators))%nat).
  { apply Permutation_length in Hp. unfold stream in Hp.
    rewrite length_app in Hp.
    cbn [loading callingContexts_ optList app] in Hp. lia. }
  apply step_Reset in Hreset. destruct Hreset as (reload & c & Hcr & -> & ->).
  rewrite Hc in Hcr. cbn [cache_reset] in Hcr.
  unfold CacheOnePassInMemory_reset in Hcr.
  destruct delivered as [|d delivered]; [congruence|].
  cbn in Hcr. injection Hcr as <- <-.
  split; [reflexivity|]. split; [reflexivity|exact Hlen].
Qed.

End InterruptedPass.

Section Progress.

Context {Sample : Type}.
Variable cfg : Config Sample.

Lemma LoadRead_enabled (st : PyDataProvider2 Sample) :
  loadThread_ st = true -> loading st = None -> callingContexts_ st <> [] ->
  exists st' e, step cfg st (LoadRead 0) = Some (st', e).
Proof.
  intros Ht Hl Hc. cbn [step]. rewrite Hl, Ht.
  destruct (callingContexts_ st) as [|ctx rest] eqn:E; [congruence|].
  cbn [length andb].
  destruct (Z.eqb_spec (Z.of_nat (S (length rest))) 0) as [H0|_]; [lia|].
  cbn [negb andb].
  replace (skipShuffle_ cfg || (0 <=? 0) && (0 <=? Z.of_nat (S (length rest)) - 1))
    with true.
  2:{ symmetry. apply orb_true_iff. right. apply andb_true_iff.
      split; [reflexivity|]. apply Z.leb_le. lia. }
  unfold loadThread_read, PositionRandom. rewrite E.
  destruct (negb (skipShuffle_ cfg)); destruct ctx; cbn; eauto.
Qed.

(** X21: the loading thread is held up only by a full pool, and a call
    that asks for no more than the pool is sure to hold then does not
    wait.  In a state reached with a thread and generators left (weights
    not overflowing), either the thread can act, or it holds a sample of
    weight w for which the pool has no room, and then for every call of
    [getNextBatchInternal] whose size is at most the pool size (when the
    batch size may be exceeded) or the pool size less w (when it may not)
    the predicate of [pullCV_.wait] (l.479-481) holds: such a call and
    the thread never wait for each other. *)
Theorem small_request_goes_ahead (st : PyDataProvider2 Sample) :
  Inv cfg st -> loadThread_ st = true -> callingContexts_ st <> [] ->
  (exists a st' e,
      step cfg st a = Some (st', e) /\ (a = LoadRead 0 \/ a = LoadPush))
  \/ exists data,
       loading st = Some data
       /\ pushReady cfg (poolActualSize_ st) (batchSizeOf cfg data) = false
       /\ forall size_,
            0 <= size_ ->
            to_size_t size_
            <= poolSize_ cfg
               - (if canOverBatchSize_ cfg then 0 else batchSizeOf cfg data) ->
            pullReady (to_size_t size_) st = true.
Proof.
  intros HI Ht Hctx.
  destruct (loading st) as [data|] eqn:Hl.
  2:{ left. destruct (LoadRead_enabled st Ht Hl Hctx) as (st' & e & Hs).
      exists (LoadRead 0), st', e. auto. }
  destruct (pushReady cfg (poolActualSize_ st) (batchSizeOf cfg data)) eqn:Hp.
  { left. exists LoadPush. do 2 eexists. split; [|now right].
    cbn [step]. rewrite Hl, Ht, Hp. reflexivity. }
  right. exists data. split; [reflexivity|]. split; [exact Hp|].
  intros size_ Hpos Hsize.
  pose proof HI as (l & lo & ld & Hd & Hc & Ha & Hw & _).
  unfold pullReady. apply orb_true_iff. left. apply Z.leb_le.
  unfold pushReady in Hp.
  unfold stream in Hw. rewrite Hl, !totalWeight_app in Hw.
  cbn [optList] in Hw. rewrite totalWeight_cons, totalWeight_nil in Hw.
  pose proof (totalWeight_nonneg cfg l).
  pose proof (totalWeight_nonneg cfg (concat (callingContexts_ st))).
  pose proof (totalWeight_nonneg cfg lo).
  pose proof (totalWeight_nonneg cfg ld).
  pose proof (batchSizeOf_range cfg data).
  destruct (canOverBatchSize_ cfg).
  - apply Z.ltb_ge in Hp. lia.
  - apply Z.ltb_ge in Hp. rewrite Ha, size_add_small in Hp by lia. lia.
Qed.

End Progress.

(** ** Filling the batch slot by slot *)

Section BatchProperties.

Context {double real : Type}.
Variable castInt_wide : Z -> Z.
Variable to_real : double -> real.
Variable int_to_double : Z -> double.
Variable junk_real : real.
Variable junk_int : Z.

Local Abbreviation PyObj := (PyObject double).
Local Abbreviation Arg := (Argument real).
Local Abbreviation SlotT := (@Slot real).
Local Abbreviation Body :=
  (nat -> IFieldScanner -> Counters -> Arg -> outcome (Counters * Arg)).

(** *** Computations that agree when they return *)

Lemma same_ok_refl {A} (m : outcome A) : same_ok m m.
Proof. intros a. reflexivity. Qed.

Lemma same_ok_sym {A} (m1 m2 : outcome A) : same_ok m1 m2 -> same_ok m2 m1.
Proof. intros H a. symmetry. apply H. Qed.

Lemma same_ok_trans {A} (m1 m2 m3 : outcome A) :
  same_ok m1 m2 -> same_ok m2 m3 -> same_ok m1 m3.
Proof. intros H1 H2 a. rewrite (H1 a). apply H2. Qed.

Lemma same_ok_eq {A} (m1 m2 : outcome A) : m1 = m2 -> same_ok m1 m2.
Proof. intros ->. apply same_ok_refl. Qed.

Lemma bind_Ok_iff {A B} (m : outcome A) (f : A -> outcome B) (b : B) :
  bind m f = Ok b <-> exists a, m = Ok a /\ f a = Ok b.
Proof.
  split; [apply bind_Ok_inv|]. intros (a & -> & H). exact H.
Qed.

Lemma same_ok_bind {A B} (m1 m2 : outcome A) (f1 f2 : A -> outcome B) :
  same_ok m1 m2 -> (forall a, same_ok (f1 a) (f2 a)) ->
  same_ok (bind m1 f1) (bind m2 f2).
Proof.
  intros Hm Hf b. rewrite !bind_Ok_iff. split; intros (a & Ha & Hb);
    exists a; (split; [now apply Hm|now apply Hf]).
Qed.

Lemma same_ok_bind_comm {A B C} (m1 : outcome A) (m2 : outcome B)
  (f : A -> B -> outcome C) :
  same_ok (x <- m1 ;; y <- m2 ;; f x y) (y <- m2 ;; x <- m1 ;; f x y).
Proof.
  intros c. destruct m1, m2; cbn [bind]; split; intros H;
    try discriminate H; exact H.
Qed.

Lemma bind_assoc {A B C} (m : outcome A) (f : A -> outcome B)
  (g : B -> outcome C) :
  bind (bind m f) g = bind m (fun a => bind (f a) g).
Proof. destruct m; reflexivity. Qed.

(** *** Loops over the slots *)

Lemma for_slots_ext (F G : Body) :
  (forall k sc c a, F k sc c a = G k sc c a) ->
  forall (slots : list SlotT) i, for_slots F i slots = for_slots G i slots.
Proof.
  intros H. induction slots as [|[[sc c] a] rest IH]; intros i; [reflexivity|].
  cbn [for_slots]. rewrite H. destruct (G i sc c a) as [[c' a']| | |];
    cbn [bind]; try reflexivity. now rewrite IH.
Qed.

Lemma for_slots_id (slots : list SlotT) :
  forall i, for_slots (fun _ _ c a => Ok (c, a)) i slots = Ok slots.
Proof.
  induction slots as [|[[sc c] a] rest IH]; intros i; [reflexivity|].
  cbn [for_slots bind]. now rewrite IH.
Qed.

(** Two loops over the slots, one after the other, do to each slot what
    one loop with both bodies does. *)
Lemma for_slots_bind (F G : Body) :
  forall (slots : list SlotT) i,
    same_ok
      (for_slots (fun k sc c a => '(c1, a1) <- F k sc c a ;; G k sc c1 a1)
         i slots)
      (mid <- for_slots F i slots ;; for_slots G i mid).
Proof.
  induction slots as [|[[sc c] a] rest IH]; intros i slots'.
  - reflexivity.
  - cbn [for_slots].
    destruct (F i sc c a) as [[c1 a1]| | |]; cbn [bind];
      try (split; discriminate).
    specialize (IH (S i)).
    destruct (G i sc c1 a1) as [[c2 a2]| | |] eqn:HG; cbn [bind].
    + destruct (for_slots F (S i) rest) as [mid| | |]; cbn [bind for_slots].
      * rewrite HG. cbn [bind].
        split; intros H; apply bind_Ok_inv in H;
          destruct H as (r & Hr & H); injection H as <-.
        -- apply IH in Hr. cbn [bind] in Hr. now rewrite Hr.
        -- assert (Hr' : for_slots
                           (fun k sc c a =>
                              '(c1, a1) <- F k sc c a ;; G k sc c1 a1)
                           (S i) rest = Ok r) by (apply IH; exact Hr).
           now rewrite Hr'.
      * split; [|discriminate]. intros H. apply bind_Ok_inv in H.
        destruct H as (r & Hr & _). apply IH in Hr. discriminate.
      * split; [|discriminate]. intros H. apply bind_Ok_inv in H.
        destruct H as (r & Hr & _). apply IH in Hr. discriminate.
      * split; [|discriminate]. intros H. apply bind_Ok_inv in H.
        destruct H as (r & Hr & _). apply IH in Hr. discriminate.
    + split; [discriminate|].
      destruct (for_slots F (S i) rest); cbn [bind for_slots]; try discriminate.
      rewrite HG. discriminate.
    + split; [discriminate|].
      destruct (for_slots F (S i) rest); cbn [bind for_slots]; try discriminate.
      rewrite HG. discriminate.
    + split; [discriminate|].
      destruct (for_slots F (S i) rest); cbn [bind for_slots]; try discriminate.
      rewrite HG. discriminate.
Qed.

(** The loop over the samples with the loop over the slots inside does to
    each slot what a loop over the samples for that slot alone does. *)
Lemma for_each_for_slots {D} (B : D -> Body) (data : list D) :
  forall (slots : list SlotT) i,
    same_ok
      (for_each data (fun slots d => for_slots (B d) i slots) slots)
      (for_slots
         (fun k sc c a =>
            for_each data (fun '(c, a) d => B d k sc c a) (c, a))
         i slots).
Proof.
  induction data as [|d data IH]; intros slots i.
  - cbn [for_each]. rewrite for_slots_id. apply same_ok_refl.
  - cbn [for_each].
    eapply same_ok_trans;
      [apply same_ok_bind; [apply same_ok_refl|intros mid; apply IH]|].
    eapply same_ok_trans; [apply same_ok_sym, for_slots_bind|].
    apply same_ok_eq, for_slots_ext. intros k sc c a.
    destruct (B d k sc c a) as [[c1 a1]| | |]; reflexivity.
Qed.

(** *** The samples seen by one slot *)

Lemma read_at_nth {A} (l : list A) (k : nat) (d : A) :
  (k < length l)%nat -> read_at l (Z.of_nat k) = Ok (nth k l d).
Proof.
  intros Hk. unfold read_at.
  destruct (Z.leb_spec 0 (Z.of_nat k)); [|lia].
  rewrite Nat2Z.id. rewrite (nth_error_nth' l d Hk). reflexivity.
Qed.

Lemma for_each_ext_Forall {D S} (body1 body2 : S -> D -> outcome S)
  (data : list D) :
  Forall (fun d => forall s, body1 s d = body2 s d) data ->
  forall s, for_each data body1 s = for_each data body2 s.
Proof.
  induction 1 as [|d data Hd _ IH]; intros s; [reflexivity|].
  cbn [for_each]. rewrite Hd. destruct (body2 s d); cbn [bind]; auto.
Qed.

Local Abbreviation perSample f d :=
  (fun (i : nat) (sc : IFieldScanner) (c : Counters) (a : Arg) =>
     obj <- read_at (itemsOf d) (Z.of_nat i) ;; f sc c a obj).

Local Abbreviation perSlot f data :=
  (fun (k : nat) (sc : IFieldScanner) (c : Counters) (a : Arg) =>
     for_each data
       (fun '(c, a) (d : PyObj) =>
          obj <- read_at (itemsOf d) (Z.of_nat k) ;; f sc c a obj)
       (c, a)).

Lemma for_data_slots
  (f : IFieldScanner -> Counters -> Arg -> PyObj -> outcome (Counters * Arg))
  (data : list PyObj) (slots : list SlotT) :
  Forall (fun d => exists fields, d = PySeq fields) data ->
  same_ok (for_data f data slots) (for_slots (perSlot f data) 0 slots).
Proof.
  intros Hseq. unfold for_data.
  rewrite (for_each_ext_Forall _
             (fun slots d => for_slots (perSample f d) 0 slots)).
  - apply (for_each_for_slots (fun d => perSample f d)).
  - eapply Forall_impl; [|exact Hseq]. intros d (fields & ->) s. reflexivity.
Qed.

Lemma for_each_field
  (f : IFieldScanner -> Counters -> Arg -> PyObj -> outcome (Counters * Arg))
  (sc : IFieldScanner) (k : nat) (data : list PyObj) :
  Forall (fun d => exists fields,
              d = PySeq fields /\ (k < length fields)%nat) data ->
  forall c a,
    perSlot f data k sc c a
    = for_each (fieldOf k data) (fun '(c, a) obj => f sc c a obj) (c, a).
Proof.
  induction 1 as [|d data (fields & -> & Hk) _ IH]; intros c a; [reflexivity|].
  cbn [for_each fieldOf map itemsOf].
  rewrite (read_at_nth fields k (PySeq [])) by assumption. cbn [bind].
  destruct (f sc c a (nth k fields (PySeq []))) as [[c1 a1]| | |];
    cbn [bind]; try reflexivity.
  apply IH.
Qed.

(** *** The phases *)

Local Abbreviation stage6 :=
  (fun (_ : nat) (sc : IFieldScanner) (c : Counters) (a : Arg) =>
     finishFill sc c a).
Local Abbreviation stage5 data :=
  (fun (k : nat) (sc : IFieldScanner) (c : Counters) (a : Arg) =>
     '(c1, a1) <- perSlot (fill castInt_wide to_real int_to_double) data k sc c a ;;
     stage6 k sc c1 a1).
Local Abbreviation stage4 data :=
  (fun (k : nat) (sc : IFieldScanner) (c : Counters) (a : Arg) =>
     '(c1, a1) <- startFill sc c a ;; stage5 data k sc c1 a1).
Local Abbreviation stage3 data :=
  (fun (k : nat) (sc : IFieldScanner) (c : Counters) (a : Arg) =>
     '(c1, a1) <- finishPrepare junk_real junk_int sc c a ;;
     stage4 data k sc c1 a1).
Local Abbreviation stage2 data :=
  (fun (k : nat) (sc : IFieldScanner) (c : Counters) (a : Arg) =>
     '(c1, a1) <- perSlot prepare data k sc c a ;; stage3 data k sc c1 a1).
Local Abbreviation stage1 data :=
  (fun (k : nat) (sc : IFieldScanner) (c : Counters) (a : Arg) =>
     '(c1, a1) <- startPrepare sc c a ;; stage2 data k sc c1 a1).

Lemma stage {X} (F G : Body) (M : list SlotT -> outcome (list SlotT))
  (K : list SlotT -> outcome X) (R : list SlotT -> outcome X) (i : nat) :
  (forall s, same_ok (M s) (for_slots F i s)) ->
  (forall s1, same_ok (R s1) (bind (for_slots G i s1) K)) ->
  forall s,
    same_ok (bind (M s) R)
      (bind (for_slots
               (fun k sc c a => '(c1, a1) <- F k sc c a ;; G k sc c1 a1) i s)
         K).
Proof.
  intros HM HR s.
  eapply same_ok_trans;
    [apply same_ok_bind; [apply HM|exact HR]|].
  rewrite <- bind_assoc.
  apply same_ok_bind; [apply same_ok_sym, for_slots_bind|].
  intros a. apply same_ok_refl.
Qed.

Lemma phases {X} (data : list PyObj) (K : list SlotT -> outcome X) :
  Forall (fun d => exists fields, d = PySeq fields) data ->
  forall inArgs : list SlotT,
    same_ok
      (slots <- for_slots (fun _ => startPrepare) 0 inArgs ;;
       slots <- for_data prepare data slots ;;
       slots <- for_slots (fun _ => finishPrepare junk_real junk_int) 0 slots ;;
       slots <- for_slots (fun _ => startFill) 0 slots ;;
       slots <- for_data (fill castInt_wide to_real int_to_double) data slots ;;
       slots <- for_slots (fun _ => finishFill) 0 slots ;;
       K slots)
      (slots <- for_slots (stage1 data) 0 inArgs ;; K slots).
Proof.
  intros Hseq.
  apply (stage (fun _ => startPrepare) (stage2 data));
    [intros s; apply same_ok_refl|].
  apply (stage (perSlot prepare data) (stage3 data)
           (for_data prepare data));
    [intros s; now apply for_data_slots|].
  apply (stage (fun _ => finishPrepare junk_real junk_int) (stage4 data));
    [intros s; apply same_ok_refl|].
  apply (stage (fun _ => startFill) (stage5 data));
    [intros s; apply same_ok_refl|].
  apply (stage (perSlot (fill castInt_wide to_real int_to_double) data) stage6
           (for_data (fill castInt_wide to_real int_to_double) data));
    [intros s; now apply for_data_slots|].
  intros s. apply same_ok_refl.
Qed.

(** What one slot goes through, in terms of [scanSlot]. *)
Lemma scanSlot_stages (header : SlotHeader) (k : nat) (data : list PyObj) :
  Forall (fun d => exists fields,
              d = PySeq fields /\ (k < length fields)%nat) data ->
  scanSlot castInt_wide to_real int_to_double junk_real junk_int header (fieldOf k data)
  = (sc <- IFieldScanner_create header ;;
     '(_, a) <- stage1 data k sc (Counters_new sc) Argument_new ;;
     Ok a).
Proof.
  intros Hk. unfold scanSlot.
  destruct (IFieldScanner_create header) as [sc| | |]; cbn [bind];
    try reflexivity.
  destruct (startPrepare sc (Counters_new sc) Argument_new)
    as [[c1 a1]| | |]; cbn [bind]; try reflexivity.
  rewrite (for_each_field prepare sc k data Hk).
  destruct (for_each (fieldOf k data) _ (c1, a1)) as [[c2 a2]| | |];
    cbn [bind]; try reflexivity.
  destruct (finishPrepare junk_real junk_int sc c2 a2) as [[c3 a3]| | |];
    cbn [bind]; try reflexivity.
  destruct (startFill sc c3 a3) as [[c4 a4]| | |]; cbn [bind];
    try reflexivity.
  rewrite (for_each_field (fill castInt_wide to_real int_to_double) sc k data Hk).
  destruct (for_each (fieldOf k data) _ (c4, a4)) as [[c5 a5]| | |];
    cbn [bind]; reflexivity.
Qed.

Lemma scanSlots_stages (data : list PyObj) (n : nat) :
  Forall (fun d => exists fields,
              d = PySeq fields /\ (n <= length fields)%nat) data ->
  forall (headers_ : list SlotHeader) (i : nat),
    (i + length headers_ <= n)%nat ->
    same_ok
      (scanners <- createScanners headers_ ;;
       slots <- for_slots (stage1 data) i
                  (map (fun sc => (sc, Counters_new sc, Argument_new))
                     scanners) ;;
       Ok (map (fun slot : SlotT => snd slot) slots))
      (scanSlots castInt_wide to_real int_to_double junk_real junk_int i headers_ data).
Proof.
  intros Hdata.
  induction headers_ as [|header rest IH]; intros i Hi; [apply same_ok_refl|].
  cbn [length] in Hi. specialize (IH (S i) ltac:(lia)).
  cbn [createScanners scanSlots].
  rewrite (scanSlot_stages header i data).
  2:{ eapply Forall_impl; [|exact Hdata]. intros d (fields & -> & Hn).
      exists fields. split; [reflexivity|lia]. }
  destruct (IFieldScanner_create header) as [sc| | |]; cbn [bind];
    try (intros x; split; discriminate).
  destruct (createScanners rest) as [scanners| | |]; cbn [bind map for_slots] in *.
  - destruct (stage1 data i sc (Counters_new sc) Argument_new)
      as [[c' a']| | |]; cbn [bind]; try (intros x; split; discriminate).
    destruct (for_slots _ (S i) _) as [rest'| | |]; cbn [bind map snd] in *.
    + intros x. specialize (IH (map (fun slot : SlotT => snd slot) rest')).
      destruct IH as [IH _]. rewrite (IH eq_refl). reflexivity.
    + intros x. split; [discriminate|]. intros H.
      apply bind_Ok_inv in H. destruct H as (args & Hargs & _).
      apply IH in Hargs. discriminate.
    + intros x. split; [discriminate|]. intros H.
      apply bind_Ok_inv in H. destruct H as (args & Hargs & _).
      apply IH in Hargs. discriminate.
    + intros x. split; [discriminate|]. intros H.
      apply bind_Ok_inv in H. destruct H as (args & Hargs & _).
      apply IH in Hargs. discriminate.
  - intros x. split; [discriminate|]. intros H.
    apply bind_Ok_inv in H. destruct H as (a & _ & H).
    apply bind_Ok_inv in H. destruct H as (args & Hargs & _).
    apply IH in Hargs. discriminate.
  - intros x. split; [discriminate|]. intros H.
    apply bind_Ok_inv in H. destruct H as (a & _ & H).
    apply bind_Ok_inv in H. destruct H as (args & Hargs & _).
    apply IH in Hargs. discriminate.
  - intros x. split; [discriminate|]. intros H.
    apply bind_Ok_inv in H. destruct H as (a & _ & H).
    apply bind_Ok_inv in H. destruct H as (args & Hargs & _).
    apply IH in Hargs. discriminate.
Qed.

Lemma scanSlots_nth (data : list PyObj) :
  forall (headers_ : list SlotHeader) (i : nat) (args : list Arg),
    scanSlots castInt_wide to_real int_to_double junk_real junk_int i headers_ data
    = Ok args ->
    length args = length headers_
    /\ forall k header,
         nth_error headers_ k = Some header ->
         exists a,
           nth_error args k = Some a
           /\ scanSlot castInt_wide to_real int_to_double junk_real junk_int header
                (fieldOf (i + k) data)
              = Ok a.
Proof.
  induction headers_ as [|header rest IH]; intros i args H; cbn [scanSlots] in H.
  - injection H as <-. split; [reflexivity|]. intros [|k] ? E; discriminate E.
  - apply bind_Ok_inv in H. destruct H as (a & Ha & H).
    apply bind_Ok_inv in H. destruct H as (args' & Hargs & H).
    injection H as <-. destruct (IH _ _ Hargs) as [Hlen Hnth].
    split; [cbn [length]; now rewrite Hlen|].
    intros [|k] h E; cbn [nth_error] in *.
    + injection E as <-. exists a. rewrite Nat.add_0_r. auto.
    + destruct (Hnth k h E) as (a' & Ha' & Hs). exists a'.
      split; [assumption|]. now rewrite Nat.add_succ_r.
Qed.

(** X18: the part of [getNextBatchInternal] that fills the batch goes
    through the slots in turn inside each phase and inside each sample;
    with samples that are sequences of at least as many fields as there
    are headers, it returns exactly when scanning the slots one after the
    other does, each over its own field of the samples, and returns the
    same arguments: argument [k] of the batch is the encoding of field
    [k] of the samples by the scanner of header [k], and no slot's
    encoding depends on another slot. *)
Theorem cpuBatch_slot_by_slot (headers_ : list SlotHeader)
  (data : list PyObj) (args : list Arg) :
  Forall (fun d => exists fields,
              d = PySeq fields /\ (length headers_ <= length fields)%nat)
    data ->
  (getNextBatchInternal_cpuBatch castInt_wide to_real int_to_double junk_real junk_int
     headers_ data = Ok args
   <-> scanSlots castInt_wide to_real int_to_double junk_real junk_int 0 headers_ data
       = Ok args)
  /\ (getNextBatchInternal_cpuBatch castInt_wide to_real int_to_double junk_real junk_int
        headers_ data = Ok args ->
      length args = length headers_
      /\ forall k header,
           nth_error headers_ k = Some header ->
           exists a,
             nth_error args k = Some a
             /\ scanSlot castInt_wide to_real int_to_double junk_real junk_int header
                  (fieldOf k data)
                = Ok a).
Proof.
  intros Hdata.
  assert (Hiff : same_ok
                   (getNextBatchInternal_cpuBatch castInt_wide to_real int_to_double
                      junk_real junk_int headers_ data)
                   (scanSlots castInt_wide to_real int_to_double junk_real junk_int 0
                      headers_ data)).
  { eapply same_ok_trans;
      [|apply (scanSlots_stages data (length headers_) Hdata headers_ 0);
        reflexivity].
    unfold getNextBatchInternal_cpuBatch.
    apply same_ok_bind; [apply same_ok_refl|]. intros scanners. cbv zeta.
    apply (phases data (fun slots => Ok (map (fun slot : SlotT => snd slot) slots))).
    eapply Forall_impl; [|exact Hdata]. intros d (fields & -> & _). eauto. }
  split; [apply Hiff|].
  intros H. apply Hiff in H. exact (scanSlots_nth data headers_ 0 args H).
Qed.

End BatchProperties.

(** ** The whole call *)

Section CallProperties.

Context {double real : Type}.
Variable castInt_wide : Z -> Z.
Variable to_real : double -> real.
Variable int_to_double : Z -> double.
Variable junk_real : real.
Variable junk_int : Z.
Variable cfg : Config (PyObject double).
Variable headers_ : list SlotHeader.
Variable useGpu_ : bool.

Local Abbreviation PyObj := (PyObject double).
Local Abbreviation call :=
  (getNextBatchInternal castInt_wide to_real int_to_double junk_real junk_int
     cfg headers_ useGpu_).
Local Abbreviation cpuBatch :=
  (getNextBatchInternal_cpuBatch castInt_wide to_real int_to_double junk_real
     junk_int headers_).

Lemma flat_map_optList (l : list PyObj) : flat_map optList (map Some l) = l.
Proof. induction l as [|x l IH]; [reflexivity|]. cbn. now rewrite IH. Qed.

(** On a pool of non-null handles a call, once it is through its wait, is
    the part that works on the pool followed, unless its result is 0, by
    the encoding of the samples drawn. *)
Lemma getNextBatchInternal_parts (rand : nat -> Z) (size_ : Z)
  (batch : DataBatch real) (st : PyDataProvider2 PyObj) (l : list PyObj) :
  0 <= size_ ->
  poolOf st = Some (map Some l) ->
  call rand size_ batch st
  = if loadThread_ st && negb (pullReady (to_size_t size_) st) then Waits
    else
      Done ('(result, data, st') <- getNextBatchInternal_pool cfg rand size_ st ;;
            if result =? 0 then Ok (0, batch, st')
            else
              inArgs <- cpuBatch (flat_map optList data) ;;
              Ok (result,
                  {| batchSize := if useGpu_ then to_int64 (to_size_t size_)
                                  else result;
                     streams := inArgs |},
                  st')).
Proof.
  intros Hpos Hpool.
  destruct (getNextBatchInternal_pool_spec cfg rand size_ st l Hpos Hpool)
    as (taken & rest & _ & _ & _ & _ & Hdraw & Heq).
  cbv zeta in Heq. rewrite Heq. unfold getNextBatchInternal.
  destruct (Z.ltb_spec size_ 0); [lia|].
  destruct (loadThread_ st && negb (pullReady (to_size_t size_) st));
    [reflexivity|].
  f_equal. rewrite Hpool. unfold deque, PyObjectPtr in *.
  rewrite Hdraw. cbn [bind drawn_bsize drawn_pool drawn_data]. cbv zeta.
  pose proof (accumulate_range cfg 0 taken ltac:(unfold SIZE_MOD; lia)) as Hr.
  destruct (Z.eqb_spec (accumulate cfg 0 taken) 0) as [E|E].
  - cbn [Z.eqb]. destruct (loadThread_ st); reflexivity.
  - destruct (Z.eqb_spec (to_int64 (accumulate cfg 0 taken)) 0) as [E'|_].
    { apply (proj1 (to_int64_zero_iff _ Hr)) in E'. contradiction. }
    destruct (getNextBatchInternal_cpuBatch _ _ _ _ _ _ _); cbn [bind];
      try reflexivity.
    destruct (loadThread_ st); destruct useGpu_; reflexivity.
Qed.

(** X3: a call of [getNextBatchInternal] made before the first [reset],
    on the object as the constructor leaves it, aborts on
    [CHECK(poolPtr != nullptr)] without a cache, and returns 0, leaving the
    caller's batch and the provider as they are, with the one-pass cache; a
    negative size aborts in either case. *)
Theorem getNextBatch_before_reset (rand : nat -> Z) (size_ uninit : Z)
  (batch : DataBatch real) :
  call rand size_ batch (PyDataProvider2_ctor NO_CACHE uninit) = Done Fatal
  /\ call rand size_ batch (PyDataProvider2_ctor CACHE_PASS_IN_MEM uninit)
     = Done (if size_ <? 0 then Fatal
             else Ok (0, batch, PyDataProvider2_ctor CACHE_PASS_IN_MEM uninit)).
Proof.
  unfold getNextBatchInternal, PyDataProvider2_ctor, poolOf.
  cbn [loadThread_ cache_ IPyDataProviderCache_create cache_load andb].
  destruct (size_ <? 0); [split; reflexivity|].
  split; [reflexivity|].
  cbn [length draw_loop]. rewrite andb_false_r. reflexivity.
Qed.

(** The pool of a state that satisfies the invariant holds samples whose
    weights do not overflow. *)
Lemma poolOf_samples (st : PyDataProvider2 PyObj) (pool : deque PyObj) :
  Inv cfg st -> poolOf st = Some pool ->
  exists l, pool = map Some l /\ totalWeight cfg l < SIZE_MOD
            /\ (loadThread_ st = true ->
                dataPool_ st = map Some l /\ poolActualSize_ st = totalWeight cfg l).
Proof.
  intros (l & lo & ld & Hd & Hc & Ha & Hw & _) Hpool.
  rewrite (poolOf_Inv st l lo ld Hd Hc) in Hpool.
  unfold stream in Hw. rewrite !totalWeight_app in Hw.
  pose proof (totalWeight_nonneg cfg l).
  pose proof (totalWeight_nonneg cfg lo).
  pose proof (totalWeight_nonneg cfg ld).
  pose proof (totalWeight_nonneg cfg (optList (loading st))).
  pose proof (totalWeight_nonneg cfg (concat (callingContexts_ st))).
  destruct (loadThread_ st).
  - injection Hpool as <-. exists l. repeat split; auto; lia.
  - destruct (cache_ st); [discriminate|]. injection Hpool as <-.
    exists lo. repeat split; try discriminate; lia.
Qed.

(** C4 (as amended): take a weigher that gives every sample a positive
    weight, a state the provider can be in (weights not overflowing) and a
    non-negative size.  While the predicate of [pullCV_.wait] is false the
    call waits.  Once through, it returns 0 exactly when the size is 0 or
    the pool is empty, and it then leaves the caller's batch as it is; with
    a thread, a size of at least 1 and an empty pool, no generator is left
    and no sample is on its way to the pool.  With a size of at least 1
    and a non-empty pool it draws at least one sample and hands the samples
    drawn to the field scanners: it returns their weight, which is not 0,
    with the batch they fill, exactly when they accept the samples, and
    ends as they end otherwise. *)
Theorem getNextBatchInternal_zero_iff (rand : nat -> Z) (size_ : Z)
  (batch : DataBatch real) (st : PyDataProvider2 PyObj) (pool : deque PyObj) :
  (forall s, 0 < batchSizeOf cfg s) ->
  Inv cfg st ->
  0 <= size_ < 2 ^ 63 ->
  poolOf st = Some pool ->
  (loadThread_ st = true -> pullReady (to_size_t size_) st = false ->
   call rand size_ batch st = Waits)
  /\ (loadThread_ st = false \/ pullReady (to_size_t size_) st = true ->
      ((exists batch' st', call rand size_ batch st = Done (Ok (0, batch', st')))
       <-> size_ = 0 \/ pool = [])
      /\ (size_ = 0 \/ pool = [] ->
          exists st', call rand size_ batch st = Done (Ok (0, batch, st')))
      /\ (1 <= size_ -> pool <> [] ->
          exists taken rest st',
            taken <> []
            /\ Permutation (map Some taken ++ map Some rest) pool
            /\ to_int64 (totalWeight cfg taken) <> 0
            /\ call rand size_ batch st
               = Done (inArgs <- cpuBatch taken ;;
                       Ok (to_int64 (totalWeight cfg taken),
                           {| batchSize :=
                                if useGpu_ then size_
                                else to_int64 (totalWeight cfg taken);
                              streams := inArgs |},
                           st')))
      /\ (loadThread_ st = true -> 1 <= size_ -> pool = [] ->
          callingContexts_ st = [] /\ loading st = None)).
Proof.
  intros Hw HI Hsize Hpool.
  destruct (poolOf_samples st pool HI Hpool) as (l & -> & Hlt & Hthread).
  assert (Hsz : to_size_t size_ = size_).
  { apply to_size_t_small. unfold SIZE_MOD. lia. }
  pose proof (getNextBatchInternal_parts rand size_ batch st l
                ltac:(lia) Hpool) as Hcall.
  split.
  { intros Ht Hr. rewrite Hcall, Ht, Hr. reflexivity. }
  intros Hready.
  assert (Hgo : loadThread_ st && negb (pullReady (to_size_t size_) st) = false).
  { destruct Hready as [-> | ->]; [reflexivity|apply andb_false_r]. }
  rewrite Hgo in Hcall. clear Hgo.
  destruct (getNextBatchInternal_pool_spec cfg rand size_ st l
              ltac:(lia) Hpool)
    as (taken & rest & Hp & _ & Hstop & Hpre & _ & Heq).
  cbv zeta in Heq. rewrite Heq in Hcall. cbn [bind] in Hcall.
  rewrite Hsz in *.
  assert (Hacc : accumulate cfg 0 taken = totalWeight cfg taken).
  { rewrite accumulate_totalWeight; [lia|lia|].
    rewrite <- (totalWeight_Permutation cfg _ _ Hp), totalWeight_app in Hlt.
    pose proof (totalWeight_nonneg cfg rest). lia. }
  rewrite Hacc in *.
  assert (Hrange : 0 <= totalWeight cfg taken < SIZE_MOD).
  { rewrite <- Hacc. apply accumulate_range. unfold SIZE_MOD. lia. }
  assert (Hzero : totalWeight cfg taken = 0 <-> taken = []).
  { split; [apply (totalWeight_zero cfg Hw)|intros ->; reflexivity]. }
  assert (Hiff : taken = [] <-> size_ = 0 \/ map Some l = []).
  { split.
    - intros ->. destruct Hstop as [Hs|Hs].
      + left. cbn in Hs. lia.
      + subst rest. cbn in Hp. apply Permutation_nil in Hp. subst l.
        now right.
    - intros [Hz|Hl].
      + destruct taken as [|x taken]; [reflexivity|]. exfalso.
        pose proof (Hpre [] (x :: taken) eq_refl ltac:(discriminate)) as H0.
        cbn in H0. lia.
      + destruct l; [|discriminate].
        apply Permutation_sym, Permutation_nil, app_eq_nil in Hp.
        now destruct Hp. }
  assert (Hnz : taken <> [] -> to_int64 (totalWeight cfg taken) <> 0).
  { intros Hne E. apply (to_int64_zero_iff _ Hrange) in E.
    apply Hzero in E. contradiction. }
  assert (Hempty : taken = [] ->
                   exists st', call rand size_ batch st = Done (Ok (0, batch, st'))).
  { intros ->. eexists. rewrite Hcall. reflexivity. }
  assert (Hfull : taken <> [] ->
                  exists st',
                    call rand size_ batch st
                    = Done (inArgs <- cpuBatch taken ;;
                            Ok (to_int64 (totalWeight cfg taken),
                                {| batchSize :=
                                     if useGpu_ then size_
                                     else to_int64 (totalWeight cfg taken);
                                   streams := inArgs |},
                                st'))).
  { intros Hne. eexists. rewrite Hcall.
    destruct (Z.eqb_spec (totalWeight cfg taken) 0) as [E|_];
      [apply Hzero in E; contradiction|].
    destruct (Z.eqb_spec (to_int64 (totalWeight cfg taken)) 0) as [E|_];
      [apply (Hnz Hne) in E; contradiction|].
    rewrite flat_map_optList, (to_int64_small size_) by lia. reflexivity. }
  split; [|split; [|split]].
  - split.
    + intros (batch' & st' & Hret). apply Hiff.
      destruct taken as [|x taken]; [reflexivity|]. exfalso.
      destruct (Hfull ltac:(discriminate)) as (st2 & Hc2).
      rewrite Hc2 in Hret. injection Hret as Hret.
      destruct (cpuBatch (x :: taken)); try discriminate.
      cbn [bind] in Hret. injection Hret as E _ _.
      exact (Hnz ltac:(discriminate) E).
    + intros H. apply Hiff in H. destruct (Hempty H) as (st' & Hc').
      exists batch, st'. exact Hc'.
  - intros H. apply Hiff in H. exact (Hempty H).
  - intros H1 Hne.
    assert (Ht : taken <> []).
    { intros E. apply Hiff in E. destruct E; [lia|contradiction]. }
    destruct (Hfull Ht) as (st' & Hc').
    exists taken, rest, st'. split; [exact Ht|].
    split; [rewrite <- map_app; now apply Permutation_map|].
    split; [exact (Hnz Ht)|exact Hc'].
  - intros Ht H1 Hnil.
    destruct l; [|discriminate].
    destruct (Hthread Ht) as [_ Ha].
    destruct Hready as [Hf|Hr]; [congruence|].
    unfold pullReady in Hr. rewrite Ha in Hr. cbn in Hr.
    destruct (Z.leb_spec size_ 0); [lia|]. cbn [orb] in Hr.
    destruct (callingContexts_ st) eqn:Hctx; [|discriminate].
    split; [reflexivity|].
    destruct HI as (? & ? & ? & _ & _ & _ & _ & Hl & _).
    destruct (loading st); [|reflexivity].
    destruct Hl as [Hc _]; [discriminate|]. now rewrite Hctx in Hc.
Qed.

(** X5: in a state the provider can be in, and with a weigher that gives
    an integer for every sample, a call of [getNextBatchInternal] aborts at
    once on a negative size; otherwise it waits while a thread loads and
    the predicate of [pullCV_.wait] is false; otherwise it aborts when no
    thread loads and there is no cache; otherwise it draws, no access to
    the pool being out of range and no handle drawn being null, returns 0
    and leaves the caller's batch as it is when the weight drawn is 0, and
    else ends as the encoding of the samples drawn ends, returning that
    weight and the batch when the encoding returns.  So it aborts on a
    CHECK exactly when the size is negative, when there is neither thread
    nor cache, or when the weight drawn is not 0 and the encoding aborts. *)
Theorem getNextBatchInternal_aborts_iff (rand : nat -> Z) (size_ : Z)
  (batch : DataBatch real) (st : PyDataProvider2 PyObj) :
  Inv cfg st ->
  (size_ < 0 -> call rand size_ batch st = Done Fatal)
  /\ (0 <= size_ -> loadThread_ st = true ->
      pullReady (to_size_t size_) st = false ->
      call rand size_ batch st = Waits)
  /\ (0 <= size_ ->
      loadThread_ st = false \/ pullReady (to_size_t size_) st = true ->
      (loadThread_ st = false /\ cache_ st = NoCacheStrategy
       /\ call rand size_ batch st = Done Fatal)
      \/ exists result data st',
           getNextBatchInternal_pool cfg rand size_ st = Ok (result, data, st')
           /\ Forall (fun h => h <> None) data
           /\ call rand size_ batch st
              = Done (if result =? 0 then Ok (0, batch, st')
                      else
                        inArgs <- cpuBatch (flat_map optList data) ;;
                        Ok (result,
                            {| batchSize :=
                                 if useGpu_ then to_int64 (to_size_t size_)
                                 else result;
                               streams := inArgs |},
                            st')))
  /\ (call rand size_ batch st = Done Fatal
      <-> size_ < 0
          \/ (0 <= size_ /\ loadThread_ st = false
              /\ cache_ st = NoCacheStrategy)
          \/ (0 <= size_
              /\ (loadThread_ st = false
                  \/ pullReady (to_size_t size_) st = true)
              /\ exists result data st',
                   getNextBatchInternal_pool cfg rand size_ st
                   = Ok (result, data, st')
                   /\ result <> 0
                   /\ cpuBatch (flat_map optList data) = Fatal)).
Proof.
  intros HI.
  assert (Hneg : size_ < 0 -> call rand size_ batch st = Done Fatal).
  { intros H. unfold getNextBatchInternal.
    destruct (Z.ltb_spec size_ 0); [reflexivity|lia]. }
  assert (Hwait : 0 <= size_ -> loadThread_ st = true ->
                  pullReady (to_size_t size_) st = false ->
                  call rand size_ batch st = Waits).
  { intros H Ht Hr. unfold getNextBatchInternal.
    destruct (Z.ltb_spec size_ 0); [lia|]. rewrite Ht, Hr. reflexivity. }
  assert (Hgo : 0 <= size_ ->
                loadThread_ st = false \/ pullReady (to_size_t size_) st = true ->
                (loadThread_ st = false /\ cache_ st = NoCacheStrategy
                 /\ call rand size_ batch st = Done Fatal)
                \/ exists result data st',
                     getNextBatchInternal_pool cfg rand size_ st
                     = Ok (result, data, st')
                     /\ Forall (fun h => h <> None) data
                     /\ call rand size_ batch st
                        = Done (if result =? 0 then Ok (0, batch, st')
                                else
                                  inArgs <- cpuBatch (flat_map optList data) ;;
                                  Ok (result,
                                      {| batchSize :=
                                           if useGpu_
                                           then to_int64 (to_size_t size_)
                                           else result;
                                         streams := inArgs |},
                                      st'))).
  { intros Hpos Hready.
    assert (Hnw : loadThread_ st && negb (pullReady (to_size_t size_) st) = false).
    { destruct Hready as [-> | ->]; [reflexivity|apply andb_false_r]. }
    destruct (getNextBatchInternal_pool_aborts cfg rand size_ st HI)
      as [Hab [Hf|(result & data & st' & Hok & Hnn)]].
    - left. apply Hab in Hf. destruct Hf as [?|[Ht Hc]]; [lia|].
      split; [exact Ht|]. split; [exact Hc|].
      unfold getNextBatchInternal, poolOf.
      destruct (Z.ltb_spec size_ 0); [lia|]. rewrite Ht, Hc. reflexivity.
    - right. exists result, data, st'. split; [exact Hok|].
      split; [exact Hnn|].
      pose proof HI as (l & lo & ld & Hd & Hc & _).
      pose proof (poolOf_Inv st l lo ld Hd Hc) as Hpool.
      assert (exists l0, poolOf st = Some (map Some l0)) as (l0 & Hp0).
      { rewrite Hpool. destruct (loadThread_ st) eqn:Ht; [eauto|].
        destruct (cache_ st) eqn:Hcache; [|eauto].
        exfalso. rewrite (proj2 Hab (or_intror (conj eq_refl eq_refl))) in Hok.
        discriminate. }
      rewrite (getNextBatchInternal_parts rand size_ batch st l0 Hpos Hp0).
      rewrite Hnw, Hok. reflexivity. }
  split; [exact Hneg|]. split; [exact Hwait|]. split; [exact Hgo|].
  split.
  - intros Hf.
    destruct (Z.ltb_spec size_ 0) as [H|Hpos]; [now left|right].
    destruct (loadThread_ st) eqn:Ht.
    + destruct (pullReady (to_size_t size_) st) eqn:Hr.
      * destruct (Hgo Hpos (or_intror eq_refl))
          as [(Hx & _)|(result & data & st' & Hok & _ & Hc)]; [discriminate|].
        right. split; [exact Hpos|]. split; [now right|].
        exists result, data, st'. split; [exact Hok|].
        rewrite Hc in Hf. injection Hf as Hf.
        destruct (result =? 0) eqn:E; [discriminate|].
        split; [intros ->; discriminate|].
        destruct (cpuBatch (flat_map optList data)); try discriminate.
        reflexivity.
      * rewrite (Hwait Hpos eq_refl eq_refl) in Hf. discriminate.
    + destruct (Hgo Hpos (or_introl eq_refl))
        as [(_ & Hc & _)|(result & data & st' & Hok & _ & Hc)].
      * left. auto.
      * right. split; [exact Hpos|]. split; [now left|].
        exists result, data, st'. split; [exact Hok|].
        rewrite Hc in Hf. injection Hf as Hf.
        destruct (result =? 0) eqn:E; [discriminate|].
        split; [intros ->; discriminate|].
        destruct (cpuBatch (flat_map optList data)); try discriminate.
        reflexivity.
  - intros [H|[(Hpos & Ht & Hc)|(Hpos & Hready & result & data & st' & Hok & Hnz & Hab)]].
    + exact (Hneg H).
    + destruct (Hgo Hpos (or_introl Ht))
        as [(_ & _ & Hx)|(result & data & st' & Hok & _)]; [exact Hx|].
      exfalso.
      destruct (getNextBatchInternal_pool_aborts cfg rand size_ st HI) as [Hiff _].
      rewrite (proj2 Hiff (or_intror (conj Ht Hc))) in Hok. discriminate.
    + destruct (Hgo Hpos Hready)
        as [(_ & _ & Hx)|(result' & data' & st'' & Hok' & _ & Hc)]; [exact Hx|].
      rewrite Hok in Hok'. injection Hok' as <- <- <-.
      rewrite Hc. destruct (Z.eqb_spec result 0); [contradiction|].
      rewrite Hab. reflexivity.
Qed.

End CallProperties.

(** * Instances *)

(** ** Drawing a batch *)

Lemma draw_loop_weight_witness :
  let cfg := {| skipShuffle_ := false; poolSize_ := 4;
                canOverBatchSize_ := false; calcBatchSize_ := None |} in
  let pool := [Some 10; Some 20; Some 30] in
  0 <= 2 < SIZE_MOD
  /\ Forall (fun h : option Z => h <> None) pool
  /\ exists taken rest,
       draw_loop cfg (fun k => Z.of_nat k + 1) (length pool) 0 2 [] pool 0
       = Ok {| drawn_data := map Some taken;
               drawn_pool := map Some rest;
               drawn_bsize := accumulate cfg 0 taken |}
       /\ totalWeight cfg taken <= 2.
Proof.
  intros cfg pool.
  assert (Hsize : 0 <= 2 < SIZE_MOD) by (unfold SIZE_MOD; lia).
  assert (Hnn : Forall (fun h : option Z => h <> None) pool)
    by (repeat constructor; discriminate).
  split; [exact Hsize|]. split; [exact Hnn|].
  destruct (draw_loop_weight cfg (fun k => Z.of_nat k + 1) 2 pool Hsize Hnn)
    as (taken & rest & Heq & _ & _ & _ & Hdef & _).
  exists taken, rest. split; [exact Heq|].
  apply (Hdef eq_refl).
Defined.

Lemma draw_loop_weight_counterexample :
  let cfg := {| skipShuffle_ := true; poolSize_ := 4;
                canOverBatchSize_ := false;
                calcBatchSize_ := Some (fun s : Z => s) |} in
  draw_loop cfg (fun _ => 0) 1 0 1 [] [Some 2] 0
  = Ok {| drawn_data := [Some 2]; drawn_pool := []; drawn_bsize := 2 |}
  /\ getNextBatchInternal_pool cfg (fun _ => 0) 1
       {| loadThread_ := true; callingContexts_ := [];
          dataPool_ := [Some 2]; poolActualSize_ := 2;
          cache_ := NoCacheStrategy; loading := None |}
     = Ok (2, [Some 2],
           {| loadThread_ := true; callingContexts_ := [];
              dataPool_ := []; poolActualSize_ := 0;
              cache_ := NoCacheStrategy; loading := None |})
  /\ totalWeight cfg [2] = 2
  /\ ~ totalWeight cfg [2] <= 1.
Proof.
  intros cfg. split; [reflexivity|]. split; [reflexivity|].
  split; [reflexivity|]. vm_compute. intros H. apply H. reflexivity.
Qed.

Lemma getNextBatchInternal_zero_iff_witness :
  let cfg := {| skipShuffle_ := true; poolSize_ := 4;
                canOverBatchSize_ := false;
                calcBatchSize_ := @None (PyObject Z -> Z) |} in
  let headers := [{| dim := 2; slotType := ST_DENSE; seqType := SQT_NONE |};
                  {| dim := 5; slotType := ST_INDEX; seqType := SQT_NONE |}] in
  let s1 : PyObject Z := PySeq [PySeq [PyInt 1; PyInt 2]; PyInt 3] in
  let s2 : PyObject Z := PySeq [PySeq [PyInt 4; PyInt 5]; PyInt 0] in
  let s3 : PyObject Z := PySeq [PySeq [PyInt 6; PyInt 7]; PyInt 1] in
  let sched := [LoadRead 0; LoadPush; LoadRead 0; LoadPush] in
  let batch := {| batchSize := 0; streams := @nil (Argument Z) |} in
  let call := getNextBatchInternal (fun _ : Z => -1) (fun d : Z => d)
                (fun z : Z => z) 0 0 cfg headers false (fun _ => 0) in
  exists st0 st es,
    resetImpl true [[s1; s2; s3]] (PyDataProvider2_ctor NO_CACHE 0) = Ok st0
    /\ run cfg st0 sched = Some (st, es)
    /\ (exists taken rest st',
          taken <> []
          /\ Permutation (map Some taken ++ map Some rest) (dataPool_ st)
          /\ call 2 batch st
             = Done (inArgs <- getNextBatchInternal_cpuBatch (fun _ : Z => -1)
                                 (fun d : Z => d) (fun z : Z => z) 0 0
                                 headers taken ;;
                     Ok (to_int64 (totalWeight cfg taken),
                         {| batchSize := to_int64 (totalWeight cfg taken);
                            streams := inArgs |},
                         st')))
    /\ call 2 batch st
       = Done (Ok (2,
                   {| batchSize := 2;
                      streams :=
                        [setValue Argument_new (CpuMatrix 2 2 [1; 2; 4; 5]);
                         setIds Argument_new [3; 0]] |},
                   {| loadThread_ := true; callingContexts_ := [[s3]];
                      dataPool_ := []; poolActualSize_ := 0;
                      cache_ := NoCacheStrategy; loading := None |})).
Proof.
  intros cfg headers s1 s2 s3 sched batch call.
  assert (H0 : resetImpl true [[s1; s2; s3]] (PyDataProvider2_ctor NO_CACHE 0)
               = Ok {| loadThread_ := true;
                       callingContexts_ := [[s1; s2; s3]];
                       dataPool_ := []; poolActualSize_ := 0;
                       cache_ := NoCacheStrategy; loading := None |})
    by reflexivity.
  destruct (Inv_start cfg NO_CACHE 0 [[s1; s2; s3]] _
              ltac:(vm_compute; reflexivity) H0) as [HI _].
  destruct (run cfg {| loadThread_ := true;
                       callingContexts_ := [[s1; s2; s3]];
                       dataPool_ := []; poolActualSize_ := 0;
                       cache_ := NoCacheStrategy; loading := None |} sched)
    as [[st es]|] eqn:Hr; [|vm_compute in Hr; discriminate].
  assert (HI1 : Inv cfg st).
  { apply (Inv_run cfg sched _ st es HI); [repeat constructor|exact Hr]. }
  assert (Hst : st = {| loadThread_ := true;
                        callingContexts_ := [[s3]];
                        dataPool_ := [Some s1; Some s2];
                        poolActualSize_ := 2;
                        cache_ := NoCacheStrategy; loading := None |})
    by (vm_compute in Hr; injection Hr as <- _; reflexivity).
  destruct (getNextBatchInternal_zero_iff (fun _ : Z => -1) (fun d : Z => d)
              (fun z : Z => z) 0 0 cfg headers false (fun _ => 0) 2 batch st
              [Some s1; Some s2]
              ltac:(intros s; reflexivity) HI1 ltac:(lia)
              ltac:(rewrite Hst; reflexivity))
    as [_ Hgo].
  destruct (Hgo ltac:(right; rewrite Hst; reflexivity))
    as (_ & _ & Hdraws & _).
  destruct (Hdraws ltac:(lia) ltac:(discriminate))
    as (taken & rest & st' & Hne & Hp & _ & Hcall).
  eexists. exists st, es.
  split; [exact H0|]. split; [exact Hr|]. split.
  - exists taken, rest, st'. split; [exact Hne|].
    split; [rewrite Hst; exact Hp|exact Hcall].
  - rewrite Hst. vm_compute. reflexivity.
Defined.

Lemma getNextBatchInternal_zero_iff_counterexample :
  let headers := [{| dim := 5; slotType := ST_INDEX; seqType := SQT_NONE |}] in
  let s1 : PyObject Z := PySeq [PyInt 1] in
  let s2 : PyObject Z := PySeq [PyInt 2] in
  let batch := {| batchSize := 0; streams := @nil (Argument Z) |} in
  let call cfg :=
    getNextBatchInternal (fun _ : Z => -1) (fun d : Z => d) (fun z : Z => z)
      0 0 cfg headers false (fun _ => 0) in
  let default := {| skipShuffle_ := true; poolSize_ := 4;
                    canOverBatchSize_ := false;
                    calcBatchSize_ := @None (PyObject Z -> Z) |} in
  (* a size of 0: samples in the pool, and 0 is returned *)
  (let st := {| loadThread_ := true; callingContexts_ := [];
                dataPool_ := [Some s1]; poolActualSize_ := 1;
                cache_ := NoCacheStrategy; loading := None |} in
   call default 0 batch st = Done (Ok (0, batch, st)))
  (* a full pool: samples in the pool, and the call never returns *)
  /\ (let st := {| loadThread_ := true; callingContexts_ := [[s2]];
                   dataPool_ := [Some s1; Some s1; Some s1];
                   poolActualSize_ := 3;
                   cache_ := NoCacheStrategy; loading := Some s2 |} in
      exists st0,
        resetImpl true [[s1; s1; s1; s2; s2]] (PyDataProvider2_ctor NO_CACHE 0)
        = Ok st0
        /\ run default st0 [LoadRead 0; LoadPush; LoadRead 0; LoadPush;
                            LoadRead 0; LoadPush; LoadRead 0]
           = Some (st, [Pulled s1; Pushed s1; Pulled s1; Pushed s1;
                        Pulled s1; Pushed s1; Pulled s2])
        /\ call default 4 batch st = Waits
        /\ step default st LoadPush = None
        /\ step default st (LoadRead 0) = None)
  (* a sample that the scanners refuse: the call aborts *)
  /\ (let st := {| loadThread_ := true; callingContexts_ := [];
                   dataPool_ := [Some (PyInt 7)]; poolActualSize_ := 1;
                   cache_ := NoCacheStrategy; loading := None |} in
      call default 1 batch st = Done Fatal)
  (* weights that are 0: the samples drawn are lost, and 0 is returned *)
  /\ (let cfg := {| skipShuffle_ := true; poolSize_ := 4;
                    canOverBatchSize_ := false;
                    calcBatchSize_ := Some (fun _ : PyObject Z => 0) |} in
      call cfg 1 batch
        {| loadThread_ := true; callingContexts_ := [];
           dataPool_ := [Some s1; Some s2]; poolActualSize_ := 0;
           cache_ := NoCacheStrategy; loading := None |}
      = Done (Ok (0, batch,
                  {| loadThread_ := true; callingContexts_ := [];
                     dataPool_ := []; poolActualSize_ := 0;
                     cache_ := NoCacheStrategy; loading := None |})))
  (* weights that sum to 2 ^ 64: the same *)
  /\ (let cfg := {| skipShuffle_ := true; poolSize_ := 4;
                    canOverBatchSize_ := false;
                    calcBatchSize_ :=
                      Some (fun s : PyObject Z =>
                              match s with
                              | PySeq [PyInt 1] => 1
                              | _ => 2 ^ 64 - 1
                              end) |} in
      call cfg 2 batch
        {| loadThread_ := true; callingContexts_ := [];
           dataPool_ := [Some s1; Some s2]; poolActualSize_ := 0;
           cache_ := NoCacheStrategy; loading := None |}
      = Done (Ok (0, batch,
                  {| loadThread_ := true; callingContexts_ := [];
                     dataPool_ := []; poolActualSize_ := 0;
                     cache_ := NoCacheStrategy; loading := None |}))).
Proof.
  intros headers s1 s2 batch call default.
  split; [vm_compute; reflexivity|].
  split.
  { intros st.
    exists {| loadThread_ := true;
              callingContexts_ := [[s1; s1; s1; s2; s2]];
              dataPool_ := []; poolActualSize_ := 0;
              cache_ := NoCacheStrategy; loading := None |}.
    split; [reflexivity|].
    split; [vm_compute; reflexivity|].
    split; [vm_compute; reflexivity|].
    split; vm_compute; reflexivity. }
  split; [vm_compute; reflexivity|].
  split; vm_compute; reflexivity.
Qed.

Lemma draw_loop_in_bounds_witness :
  let cfg := {| skipShuffle_ := false; poolSize_ := 4;
                canOverBatchSize_ := false; calcBatchSize_ := None |} in
  let pool := [Some 10; Some 20; Some 30] in
  Forall (fun h : option Z => h <> None) pool
  /\ 0 <= to_size_t 7 mod 3 < 3
  /\ exists d,
       draw_loop cfg (fun k => Z.of_nat k + 1) (length pool) 0 2 [] pool 0 = Ok d
       /\ Forall (fun h => h <> None) (drawn_data d).
Proof.
  intros cfg pool.
  assert (Hnn : Forall (fun h : option Z => h <> None) pool)
    by (repeat constructor; discriminate).
  split; [exact Hnn|].
  destruct (draw_loop_in_bounds cfg (fun k => Z.of_nat k + 1) 2 pool Hnn)
    as (Hidx & _ & _ & d & Hd & Hdata & _).
  split; [apply (Hidx 7); discriminate|].
  exists d. split; assumption.
Defined.

(** ** Pushing to the pool *)

Lemma loadThread_push_when_ready_witness :
  let cfg := {| skipShuffle_ := true; poolSize_ := 4;
                canOverBatchSize_ := false; calcBatchSize_ := None |} in
  step cfg
    {| loadThread_ := true; callingContexts_ := [[8]];
       dataPool_ := [Some 5; Some 6]; poolActualSize_ := 2;
       cache_ := NoCacheStrategy; loading := Some 7 |}
    LoadPush
  = Some ({| loadThread_ := true; callingContexts_ := [[8]];
             dataPool_ := [Some 5; Some 6; Some 7]; poolActualSize_ := 3;
             cache_ := NoCacheStrategy; loading := None |},
          Pushed 7).
Proof.
  intros cfg.
  apply (proj2 (loadThread_push_when_ready cfg _ _ _)).
  exists 7. repeat split.
Defined.

Lemma loadThread_push_when_ready_counterexample :
  let cfg := {| skipShuffle_ := true; poolSize_ := 4;
                canOverBatchSize_ := false; calcBatchSize_ := None |} in
  let st := {| loadThread_ := true; callingContexts_ := [[8]];
               dataPool_ := [Some 4; Some 5; Some 6]; poolActualSize_ := 3;
               cache_ := NoCacheStrategy; loading := Some 7 |} in
  poolActualSize_ st + batchSizeOf cfg 7 <= poolSize_ cfg
  /\ pushReady_spec cfg (poolActualSize_ st) (batchSizeOf cfg 7) = true
  /\ pushReady cfg (poolActualSize_ st) (batchSizeOf cfg 7) = false
  /\ step cfg st LoadPush = None.
Proof.
  intros cfg st. split; [vm_compute; discriminate|]. repeat split.
Qed.

(** ** Resetting the cache *)

Lemma CacheOnePassInMemory_reset_branches_witness :
  CacheOnePassInMemory_reset (@nil (option Z)) [] = Ok (true, CacheOnePassInMemory [] [])
  /\ CacheOnePassInMemory_reset [] [Some 1; Some 2]
     = Ok (false, CacheOnePassInMemory [Some 1; Some 2] [])
  /\ CacheOnePassInMemory_reset [Some 1] [Some 2] = Fatal.
Proof.
  split; [|split].
  - apply (proj1 (CacheOnePassInMemory_reset_branches [] [])); reflexivity.
  - apply (proj1 (proj2 (CacheOnePassInMemory_reset_branches [] [Some 1; Some 2])));
      [reflexivity|discriminate].
  - apply (proj2 (proj2 (CacheOnePassInMemory_reset_branches [Some 1] [Some 2]))).
    discriminate.
Defined.

Lemma CacheOnePassInMemory_reset_branches_counterexample :
  CacheOnePassInMemory_reset [Some 1] (@nil (option Z)) = Fatal
  /\ ~ ([Some 1] <> [] /\ @nil (option Z) <> []).
Proof. split; [reflexivity|]. intros [_ H]. apply H. reflexivity. Qed.

(** ** A pass of the loading thread and the consumer *)

Lemma poolActualSize_bounded_witness :
  let cfg := {| skipShuffle_ := true; poolSize_ := 4;
                canOverBatchSize_ := false; calcBatchSize_ := None |} in
  let sched := [LoadRead 0; LoadPush; LoadRead 0; LoadPush; LoadRead 0;
                LoadPush; GetNextBatch 2 (fun _ => 0); LoadRead 0; LoadPush] in
  exists st0 st es,
    resetImpl true [[1; 2; 3; 4; 5]] (PyDataProvider2_ctor NO_CACHE 77) = Ok st0
    /\ run cfg st0 sched = Some (st, es)
    /\ poolActualSize_ st <= 4.
Proof.
  intros cfg sched.
  assert (H0 : resetImpl true [[1; 2; 3; 4; 5]] (PyDataProvider2_ctor NO_CACHE 77)
               = Ok {| loadThread_ := true;
                       callingContexts_ := [[1; 2; 3; 4; 5]];
                       dataPool_ := []; poolActualSize_ := 0;
                       cache_ := NoCacheStrategy; loading := None |})
    by reflexivity.
  destruct (run cfg {| loadThread_ := true;
                       callingContexts_ := [[1; 2; 3; 4; 5]];
                       dataPool_ := []; poolActualSize_ := 0;
                       cache_ := NoCacheStrategy; loading := None |} sched)
    as [[st es]|] eqn:Hr; [|vm_compute in Hr; discriminate].
  eexists. exists st, es. split; [exact H0|]. split; [exact Hr|].
  apply (proj1 (poolActualSize_bounded cfg NO_CACHE 77 [[1; 2; 3; 4; 5]] sched
                  _ st es ltac:(vm_compute; discriminate)
                  ltac:(vm_compute; reflexivity)
                  ltac:(repeat constructor) H0 Hr)).
  reflexivity.
Defined.

Lemma poolActualSize_bounded_counterexample :
  let cfg := {| skipShuffle_ := true; poolSize_ := 4;
                canOverBatchSize_ := false;
                calcBatchSize_ := Some (fun s : Z => s) |} in
  let sched := [LoadRead 0; LoadPush; LoadRead 0; LoadPush; LoadRead 0;
                GetNextBatch 1 (fun _ => 0)] in
  exists st0 st,
    resetImpl true [[1; 2 ^ 64 - 1]] (PyDataProvider2_ctor NO_CACHE 0) = Ok st0
    /\ run cfg st0 sched
       = Some (st, [Pulled 1; Pushed 1; Pulled (2 ^ 64 - 1);
                    Pushed (2 ^ 64 - 1); Exhausted; Batch 1 1 [Some 1]])
    /\ dataPool_ st = [Some (2 ^ 64 - 1)]
    /\ poolActualSize_ st = 2 ^ 64 - 1
    /\ poolSize_ cfg < poolActualSize_ st.
Proof.
  intros cfg sched. do 2 eexists.
  split; [reflexivity|]. split; [vm_compute; reflexivity|].
  split; [reflexivity|]. split; reflexivity.
Qed.

Lemma unshuffled_batches_deterministic_witness :
  let cfg := {| skipShuffle_ := true; poolSize_ := 4;
                canOverBatchSize_ := false; calcBatchSize_ := None |} in
  let sched1 := [LoadRead 0; LoadPush; LoadRead 0; LoadPush;
                 GetNextBatch 2 (fun _ => 0)] in
  let sched2 := [LoadRead 5; LoadPush; LoadRead 6; LoadPush; LoadRead 7;
                 LoadRead 8; LoadPush; GetNextBatch 2 (fun k => Z.of_nat k)] in
  exists start1 start2 st1 st2 es1 es2,
    resetImpl true [[1; 2]; [3]] (PyDataProvider2_ctor NO_CACHE 0) = Ok start1
    /\ resetImpl true [[1; 2]; [3]] (PyDataProvider2_ctor CACHE_PASS_IN_MEM 9)
       = Ok start2
    /\ run cfg start1 sched1 = Some (st1, es1)
    /\ run cfg start2 sched2 = Some (st2, es2)
    /\ batches es1 = batches es2.
Proof.
  intros cfg sched1 sched2.
  assert (H1 : resetImpl true [[1; 2]; [3]] (PyDataProvider2_ctor NO_CACHE 0)
               = Ok {| loadThread_ := true; callingContexts_ := [[1; 2]; [3]];
                       dataPool_ := []; poolActualSize_ := 0;
                       cache_ := NoCacheStrategy; loading := None |})
    by reflexivity.
  assert (H2 : resetImpl true [[1; 2]; [3]]
                 (PyDataProvider2_ctor CACHE_PASS_IN_MEM 9)
               = Ok {| loadThread_ := true; callingContexts_ := [[1; 2]; [3]];
                       dataPool_ := []; poolActualSize_ := 0;
                       cache_ := CacheOnePassInMemory [] []; loading := None |})
    by reflexivity.
  destruct (run cfg {| loadThread_ := true; callingContexts_ := [[1; 2]; [3]];
                       dataPool_ := []; poolActualSize_ := 0;
                       cache_ := NoCacheStrategy; loading := None |} sched1)
    as [[st1 es1]|] eqn:Hr1; [|vm_compute in Hr1; discriminate].
  destruct (run cfg {| loadThread_ := true; callingContexts_ := [[1; 2]; [3]];
                       dataPool_ := []; poolActualSize_ := 0;
                       cache_ := CacheOnePassInMemory [] []; loading := None |}
              sched2)
    as [[st2 es2]|] eqn:Hr2; [|vm_compute in Hr2; discriminate].
  do 2 eexists. exists st1, st2, es1, es2.
  split; [exact H1|]. split; [exact H2|]. split; [exact Hr1|].
  split; [exact Hr2|].
  apply (proj1 (proj2 unshuffled_batches_deterministic)
           cfg NO_CACHE CACHE_PASS_IN_MEM 0 9 [[1; 2]; [3]] sched1 sched2
           _ _ st1 st2 es1 es2 eq_refl
           ltac:(vm_compute; reflexivity) H1 H2
           ltac:(repeat constructor) ltac:(repeat constructor) Hr1 Hr2).
  vm_compute in Hr1, Hr2.
  injection Hr1 as _ <-. injection Hr2 as _ <-. reflexivity.
Defined.

Lemma cache_pass_replayed_witness :
  let cfg := {| skipShuffle_ := true; poolSize_ := 4;
                canOverBatchSize_ := false; calcBatchSize_ := None |} in
  let sched1 := [LoadRead 0; LoadPush; LoadRead 0; LoadPush; LoadRead 0;
                 GetNextBatch 2 (fun _ => 0)] in
  exists start st1 es1 st2,
    resetImpl true [[1; 2]] (PyDataProvider2_ctor CACHE_PASS_IN_MEM 0) = Ok start
    /\ run cfg start sched1 = Some (st1, es1)
    /\ sampleCount es1 = 2%nat
    /\ step cfg st1 (Reset [[8; 9]]) = Some (st2, Restarted false)
    /\ loadThread_ st2 = false.
Proof.
  intros cfg sched1.
  assert (Hw : forall s : Z, 0 < batchSizeOf cfg s) by (intros s; reflexivity).
  assert (H0 : resetImpl true [[1; 2]] (PyDataProvider2_ctor CACHE_PASS_IN_MEM 0)
               = Ok {| loadThread_ := true; callingContexts_ := [[1; 2]];
                       dataPool_ := []; poolActualSize_ := 0;
                       cache_ := CacheOnePassInMemory [] []; loading := None |})
    by reflexivity.
  destruct (run cfg {| loadThread_ := true; callingContexts_ := [[1; 2]];
                       dataPool_ := []; poolActualSize_ := 0;
                       cache_ := CacheOnePassInMemory [] []; loading := None |}
              sched1)
    as [[st1 es1]|] eqn:Hr; [|vm_compute in Hr; discriminate].
  assert (Hctx : callingContexts_ st1 = [])
    by (vm_compute in Hr; injection Hr as <- _; reflexivity).
  assert (Hpool : dataPool_ st1 = [])
    by (vm_compute in Hr; injection Hr as <- _; reflexivity).
  destruct (cache_pass_replayed cfg Hw 0 [[1; 2]] sched1 _ st1 es1
              ltac:(vm_compute; reflexivity) ltac:(discriminate) H0
              ltac:(repeat constructor) Hr Hctx Hpool)
    as (Hcount & Hreset).
  destruct (Hreset [[8; 9]]) as (st2 & Hstep & Hth & _).
  eexists. exists st1, es1, st2.
  split; [exact H0|]. split; [exact Hr|]. split; [exact Hcount|].
  split; [exact Hstep|exact Hth].
Defined.

Lemma cache_pass_replayed_counterexample :
  (let cfg := {| skipShuffle_ := true; poolSize_ := 4;
                 canOverBatchSize_ := false;
                 calcBatchSize_ := @None (Z -> Z) |} in
   exists start st1 st2,
     resetImpl true [[]] (PyDataProvider2_ctor CACHE_PASS_IN_MEM 0) = Ok start
     /\ run cfg start [LoadRead 0; GetNextBatch 1 (fun _ => 0)]
        = Some (st1, [Exhausted; Batch 1 0 []])
     /\ callingContexts_ st1 = [] /\ dataPool_ st1 = []
     /\ step cfg st1 (Reset [[]]) = Some (st2, Restarted true)
     /\ loadThread_ st2 = true)
  /\ (let cfg := {| skipShuffle_ := true; poolSize_ := 2 ^ 64 - 1;
                    canOverBatchSize_ := true;
                    calcBatchSize_ := Some (fun s : Z => s) |} in
      let sched1 := [LoadRead 0; LoadPush; GetNextBatch 1 (fun _ => 0);
                     LoadRead 0; LoadPush; LoadRead 0;
                     GetNextBatch 1 (fun _ => 0)] in
      let sched2 := [GetNextBatch 2 (fun _ => 0); GetNextBatch 2 (fun _ => 0);
                     GetNextBatch 1 (fun _ => 0)] in
      exists start st1 es1 st2 st3,
        resetImpl true [[1; 2 ^ 64 - 1]] (PyDataProvider2_ctor CACHE_PASS_IN_MEM 0)
        = Ok start
        /\ (forall s : Z, In s [1; 2 ^ 64 - 1] -> 0 < batchSizeOf cfg s)
        /\ run cfg start sched1 = Some (st1, es1)
        /\ sampleCount es1 = 2%nat
        /\ callingContexts_ st1 = [] /\ dataPool_ st1 = []
        /\ step cfg st1 (Reset []) = Some (st2, Restarted false)
        /\ run cfg st2 sched2
           = Some (st3, [Batch 2 0 []; Batch 2 0 []; Batch 1 0 []])).
Proof.
  split.
  - intros cfg. do 3 eexists.
    split; [reflexivity|]. split; [reflexivity|].
    repeat split.
  - intros cfg sched1 sched2. do 5 eexists.
    split; [reflexivity|].
    split; [intros s [<- | [<- | []]]; vm_compute; reflexivity|].
    split; [vm_compute; reflexivity|].
    split; [reflexivity|]. split; [reflexivity|]. split; [reflexivity|].
    split; [vm_compute; reflexivity|].
    vm_compute. reflexivity.
Qed.

(** ** Encoding slots *)



(** ** More states of the provider *)

Lemma reachable_states_witness :
  let cfg := {| skipShuffle_ := false; poolSize_ := 4;
                canOverBatchSize_ := true;
                calcBatchSize_ := Some (fun s : Z => s) |} in
  let sched := [LoadRead 1; LoadPush; LoadRead 0; LoadPush;
                GetNextBatch 3 (fun _ => 1); Reset [[7; 8]];
                LoadRead 0; LoadPush] in
  exists st0 st es pool,
    resetImpl true [[1; 2]; [3]] (PyDataProvider2_ctor NO_CACHE 5) = Ok st0
    /\ run cfg st0 sched = Some (st, es)
    /\ dataPool_ st = map Some pool
    /\ poolActualSize_ st = totalWeight cfg pool
    /\ loadThread_ st = true.
Proof.
  intros cfg sched.
  assert (H0 : resetImpl true [[1; 2]; [3]] (PyDataProvider2_ctor NO_CACHE 5)
               = Ok {| loadThread_ := true;
                       callingContexts_ := [[1; 2]; [3]];
                       dataPool_ := []; poolActualSize_ := 0;
                       cache_ := NoCacheStrategy; loading := None |})
    by reflexivity.
  destruct (run cfg {| loadThread_ := true;
                       callingContexts_ := [[1; 2]; [3]];
                       dataPool_ := []; poolActualSize_ := 0;
                       cache_ := NoCacheStrategy; loading := None |} sched)
    as [[st es]|] eqn:Hr; [|vm_compute in Hr; discriminate].
  assert (Hb : boundedSchedule cfg sched).
  { repeat (constructor; try exact I). }
  destruct (reachable_states cfg NO_CACHE 5 [[1; 2]; [3]] sched _ st es
              ltac:(vm_compute; reflexivity) Hb H0 Hr)
    as ((pool & Hpool & Hsize & _) & Hno).
  eexists. exists st, es, pool.
  split; [exact H0|]. split; [exact Hr|]. split; [exact Hpool|].
  split; [exact Hsize|]. exact (proj1 (Hno eq_refl)).
Defined.

Lemma getNextBatchInternal_aborts_iff_witness :
  let cfg := {| skipShuffle_ := true; poolSize_ := 4;
                canOverBatchSize_ := true;
                calcBatchSize_ := @None (PyObject Z -> Z) |} in
  let headers := [{| dim := 5; slotType := ST_INDEX; seqType := SQT_NONE |}] in
  let s1 : PyObject Z := PySeq [PyInt 1] in
  let bad : PyObject Z := PySeq [PyFloat 1] in
  let batch := {| batchSize := 0; streams := @nil (Argument Z) |} in
  let call := getNextBatchInternal (fun _ : Z => -1) (fun d : Z => d)
                (fun z : Z => z) 0 0 cfg headers false (fun _ => 0) in
  exists st0 st es,
    resetImpl true [[s1; bad]; [s1]] (PyDataProvider2_ctor NO_CACHE 5) = Ok st0
    /\ call (-1) batch st0 = Done Fatal
    /\ call 2 batch st0 = Waits
    /\ run cfg st0 [LoadRead 0; LoadPush; LoadRead 0; LoadPush] = Some (st, es)
    /\ dataPool_ st = [Some s1; Some bad]
    /\ call 2 batch st = Done Fatal
    /\ call 1 batch st
       = Done (Ok (1, {| batchSize := 1;
                         streams := [setIds Argument_new [1]] |},
                   {| loadThread_ := true; callingContexts_ := [[]; [s1]];
                      dataPool_ := [Some bad]; poolActualSize_ := 1;
                      cache_ := NoCacheStrategy; loading := None |})).
Proof.
  intros cfg headers s1 bad batch call.
  assert (H0 : resetImpl true [[s1; bad]; [s1]] (PyDataProvider2_ctor NO_CACHE 5)
               = Ok {| loadThread_ := true;
                       callingContexts_ := [[s1; bad]; [s1]];
                       dataPool_ := []; poolActualSize_ := 0;
                       cache_ := NoCacheStrategy; loading := None |})
    by reflexivity.
  destruct (Inv_start cfg NO_CACHE 5 [[s1; bad]; [s1]] _
              ltac:(vm_compute; reflexivity) H0) as [HI _].
  destruct (run cfg {| loadThread_ := true;
                       callingContexts_ := [[s1; bad]; [s1]];
                       dataPool_ := []; poolActualSize_ := 0;
                       cache_ := NoCacheStrategy; loading := None |}
              [LoadRead 0; LoadPush; LoadRead 0; LoadPush])
    as [[st es]|] eqn:Hr; [|vm_compute in Hr; discriminate].
  assert (HI1 : Inv cfg st).
  { apply (Inv_run cfg [LoadRead 0; LoadPush; LoadRead 0; LoadPush] _ st es
             HI); [repeat constructor|exact Hr]. }
  assert (Hst : st = {| loadThread_ := true;
                        callingContexts_ := [[]; [s1]];
                        dataPool_ := [Some s1; Some bad];
                        poolActualSize_ := 2;
                        cache_ := NoCacheStrategy; loading := None |})
    by (vm_compute in Hr; injection Hr as <- _; reflexivity).
  destruct (getNextBatchInternal_aborts_iff (fun _ : Z => -1) (fun d : Z => d)
              (fun z : Z => z) 0 0 cfg headers false (fun _ => 0) (-1) batch
              _ HI) as (Hneg & _).
  destruct (getNextBatchInternal_aborts_iff (fun _ : Z => -1) (fun d : Z => d)
              (fun z : Z => z) 0 0 cfg headers false (fun _ => 0) 2 batch
              _ HI) as (_ & Hwait & _).
  destruct (getNextBatchInternal_aborts_iff (fun _ : Z => -1) (fun d : Z => d)
              (fun z : Z => z) 0 0 cfg headers false (fun _ => 0) 2 batch
              st HI1) as (_ & _ & _ & Hab).
  eexists. exists st, es.
  split; [exact H0|].
  split; [apply Hneg; lia|].
  split; [apply Hwait; [lia|reflexivity|reflexivity]|].
  split; [exact Hr|].
  split; [rewrite Hst; reflexivity|].
  split.
  - apply Hab. right. right. split; [lia|].
    split; [right; rewrite Hst; reflexivity|].
    rewrite Hst.
    exists 2, [Some s1; Some bad],
      {| loadThread_ := true; callingContexts_ := [[]; [s1]];
         dataPool_ := []; poolActualSize_ := 0;
         cache_ := NoCacheStrategy; loading := None |}.
    split; [vm_compute; reflexivity|].
    split; [discriminate|vm_compute; reflexivity].
  - rewrite Hst. vm_compute. reflexivity.
Defined.

Lemma heavy_sample_blocks_witness :
  let cfg := {| skipShuffle_ := true; poolSize_ := 1;
                canOverBatchSize_ := false; calcBatchSize_ := None |} in
  exists st0 st es,
    resetImpl true [[1; 2]] (PyDataProvider2_ctor NO_CACHE 0) = Ok st0
    /\ run cfg st0 [LoadRead 0] = Some (st, es)
    /\ loading st = Some 1
    /\ step cfg st LoadPush = None
    /\ step cfg st (Reset [[3]]) = None
    /\ step cfg st (GetNextBatch 1 (fun _ => 0)) = None.
Proof.
  intros cfg.
  assert (H0 : resetImpl true [[1; 2]] (PyDataProvider2_ctor NO_CACHE 0)
               = Ok {| loadThread_ := true; callingContexts_ := [[1; 2]];
                       dataPool_ := []; poolActualSize_ := 0;
                       cache_ := NoCacheStrategy; loading := None |})
    by reflexivity.
  destruct (Inv_start cfg NO_CACHE 0 [[1; 2]] _
              ltac:(vm_compute; reflexivity) H0) as [HI _].
  destruct (run cfg {| loadThread_ := true; callingContexts_ := [[1; 2]];
                       dataPool_ := []; poolActualSize_ := 0;
                       cache_ := NoCacheStrategy; loading := None |}
              [LoadRead 0])
    as [[st es]|] eqn:Hr; [|vm_compute in Hr; discriminate].
  assert (HI1 : Inv cfg st).
  { apply (Inv_run cfg [LoadRead 0] _ st es HI); [repeat constructor|exact Hr]. }
  assert (Hload : loading st = Some 1)
    by (vm_compute in Hr; injection Hr as <- _; reflexivity).
  assert (Hpool : dataPool_ st = [])
    by (vm_compute in Hr; injection Hr as <- _; reflexivity).
  destruct (heavy_sample_blocks cfg eq_refl st st 1 [] [] HI1 Hload
              ltac:(vm_compute; discriminate) eq_refl)
    as (_ & _ & _ & _ & Hpush & _ & Hreset & Hcall).
  eexists. exists st, es.
  split; [exact H0|]. split; [exact Hr|]. split; [exact Hload|].
  split; [exact Hpush|]. split; [apply Hreset|].
  apply (Hcall Hpool). vm_compute. discriminate.
Defined.

(** ** More passes *)

Lemma samples_conserved_witness :
  let cfg := {| skipShuffle_ := false; poolSize_ := 4;
                canOverBatchSize_ := true;
                calcBatchSize_ := Some (fun s : bool => if s then 2 else 1) |} in
  let sched := [LoadRead 1; LoadPush; LoadRead 0; LoadPush; LoadRead 0;
                LoadPush; GetNextBatch 2 (fun _ => 1); LoadRead 0] in
  exists st0 st es pool delivered,
    resetImpl true [[true; false]; [false; true]]
      (PyDataProvider2_ctor CACHE_PASS_IN_MEM 5)
    = Ok st0
    /\ run cfg st0 sched = Some (st, es)
    /\ concat (batches es) = map Some delivered
    /\ Permutation
         (delivered ++ pool ++ optList (loading st)
            ++ concat (callingContexts_ st))
         [true; false; false; true]
    /\ cache_ st = CacheOnePassInMemory [] (map Some delivered).
Proof.
  intros cfg sched.
  assert (Hw : forall s : bool, 0 < batchSizeOf cfg s)
    by (intros [|]; reflexivity).
  assert (H0 : resetImpl true [[true; false]; [false; true]]
                 (PyDataProvider2_ctor CACHE_PASS_IN_MEM 5)
               = Ok {| loadThread_ := true;
                       callingContexts_ := [[true; false]; [false; true]];
                       dataPool_ := []; poolActualSize_ := 0;
                       cache_ := CacheOnePassInMemory [] [];
                       loading := None |})
    by reflexivity.
  destruct (run cfg {| loadThread_ := true;
                       callingContexts_ := [[true; false]; [false; true]];
                       dataPool_ := []; poolActualSize_ := 0;
                       cache_ := CacheOnePassInMemory [] [];
                       loading := None |} sched)
    as [[st es]|] eqn:Hr; [|vm_compute in Hr; discriminate].
  destruct (samples_conserved cfg Hw CACHE_PASS_IN_MEM 5
              [[true; false]; [false; true]] sched _ st es
              ltac:(vm_compute; reflexivity) H0 ltac:(repeat constructor) Hr)
    as (pool & delivered & _ & Hb & Hp & Hc).
  eexists. exists st, es, pool, delivered.
  split; [exact H0|]. split; [exact Hr|]. split; [exact Hb|].
  split; [exact Hp|exact (Hc eq_refl)].
Defined.

Lemma unshuffled_delivery_order_witness :
  let cfg := {| skipShuffle_ := true; poolSize_ := 4;
                canOverBatchSize_ := false; calcBatchSize_ := None |} in
  let sched := [LoadRead 0; LoadPush; LoadRead 0; LoadPush; LoadRead 0;
                LoadRead 0; LoadPush; GetNextBatch 2 (fun _ => 0);
                LoadRead 0; LoadPush; GetNextBatch 1 (fun _ => 0)] in
  exists st0 st es delivered,
    resetImpl true [[10; 20]; [30; 40]] (PyDataProvider2_ctor NO_CACHE 5)
    = Ok st0
    /\ run cfg st0 sched = Some (st, es)
    /\ concat (batches es) = map Some delivered
    /\ delivered = firstn (sampleCount es) [10; 20; 30; 40].
Proof.
  intros cfg sched.
  assert (Hw : forall s : Z, 0 < batchSizeOf cfg s)
    by (intros s; reflexivity).
  assert (H0 : resetImpl true [[10; 20]; [30; 40]]
                 (PyDataProvider2_ctor NO_CACHE 5)
               = Ok {| loadThread_ := true;
                       callingContexts_ := [[10; 20]; [30; 40]];
                       dataPool_ := []; poolActualSize_ := 0;
                       cache_ := NoCacheStrategy; loading := None |})
    by reflexivity.
  destruct (run cfg {| loadThread_ := true;
                       callingContexts_ := [[10; 20]; [30; 40]];
                       dataPool_ := []; poolActualSize_ := 0;
                       cache_ := NoCacheStrategy; loading := None |} sched)
    as [[st es]|] eqn:Hr; [|vm_compute in Hr; discriminate].
  destruct (unshuffled_delivery_order cfg Hw NO_CACHE 5
              [[10; 20]; [30; 40]] sched _ st es eq_refl
              ltac:(vm_compute; reflexivity) H0 ltac:(repeat constructor) Hr)
    as (pool & delivered & _ & Hb & _ & Hd).
  eexists. exists st, es, delivered.
  split; [exact H0|]. split; [exact Hr|]. split; [exact Hb|exact Hd].
Defined.

Lemma replay_hands_out_first_pass_witness :
  let cfg := {| skipShuffle_ := true; poolSize_ := 4;
                canOverBatchSize_ := false; calcBatchSize_ := None |} in
  let sched1 := [LoadRead 0; LoadPush; LoadRead 0; LoadPush; LoadRead 0;
                 GetNextBatch 2 (fun _ => 0)] in
  let sched2 := [GetNextBatch 1 (fun _ => 0)] in
  exists start st1 st2 st3 es1 es2 second rest,
    resetImpl true [[10; 20]] (PyDataProvider2_ctor CACHE_PASS_IN_MEM 0)
    = Ok start
    /\ run cfg start sched1 = Some (st1, es1)
    /\ step cfg st1 (Reset [[30]]) = Some (st2, Restarted false)
    /\ run cfg st2 sched2 = Some (st3, es2)
    /\ concat (batches es2) = map Some second
    /\ second ++ rest = [10; 20].
Proof.
  intros cfg sched1 sched2.
  assert (Hw : forall s : Z, 0 < batchSizeOf cfg s)
    by (intros s; reflexivity).
  assert (H0 : resetImpl true [[10; 20]]
                 (PyDataProvider2_ctor CACHE_PASS_IN_MEM 0)
               = Ok {| loadThread_ := true; callingContexts_ := [[10; 20]];
                       dataPool_ := []; poolActualSize_ := 0;
                       cache_ := CacheOnePassInMemory [] []; loading := None |})
    by reflexivity.
  destruct (run cfg {| loadThread_ := true; callingContexts_ := [[10; 20]];
                       dataPool_ := []; poolActualSize_ := 0;
                       cache_ := CacheOnePassInMemory [] []; loading := None |}
              sched1)
    as [[st1 es1]|] eqn:Hr1; [|vm_compute in Hr1; discriminate].
  assert (Hctx : callingContexts_ st1 = [])
    by (vm_compute in Hr1; injection Hr1 as <- _; reflexivity).
  assert (Hpool : dataPool_ st1 = [])
    by (vm_compute in Hr1; injection Hr1 as <- _; reflexivity).
  destruct (step cfg st1 (Reset [[30]])) as [[st2 e]|] eqn:Hs;
    [|vm_compute in Hr1; injection Hr1 as <- _; vm_compute in Hs; discriminate].
  destruct (run cfg st2 sched2) as [[st3 es2]|] eqn:Hr2.
  2:{ vm_compute in Hr1; injection Hr1 as <- _.
      vm_compute in Hs; injection Hs as <- _.
      vm_compute in Hr2; discriminate. }
  destruct (replay_hands_out_first_pass cfg Hw 0 [[10; 20]] [[30]]
              sched1 sched2 _ st1 st2 st3 es1 es2 e
              ltac:(vm_compute; reflexivity) ltac:(discriminate) H0
              ltac:(repeat constructor) Hr1 Hctx Hpool Hs
              ltac:(repeat constructor) Hr2)
    as (first & second & rest & _ & _ & He & Hb2 & _ & _ & Hskip).
  destruct (Hskip eq_refl) as [Hfirst Hsecond].
  eexists. exists st1, st2, st3, es1, es2, second, rest.
  split; [exact H0|]. split; [exact Hr1|].
  split; [rewrite <- He; exact Hs|]. split; [exact Hr2|].
  split; [exact Hb2|]. rewrite Hsecond. exact Hfirst.
Defined.

Lemma replay_pass_repeats_witness :
  let cfg := {| skipShuffle_ := false; poolSize_ := 4;
                canOverBatchSize_ := false; calcBatchSize_ := None |} in
  let st := {| loadThread_ := false; callingContexts_ := [];
               dataPool_ := []; poolActualSize_ := 0;
               cache_ := CacheOnePassInMemory [Some 10; Some 20; Some 30] [];
               loading := None |} in
  exists st1 es1 st2 es2,
    run cfg st [GetNextBatch 2 (fun _ => 0)] = Some (st1, es1)
    /\ step cfg st1 (Reset [[40]]) = None
    /\ run cfg st [GetNextBatch 2 (fun _ => 0); GetNextBatch 2 (fun _ => 0)]
       = Some (st2, es2)
    /\ exists st3,
         step cfg st2 (Reset [[40]]) = Some (st3, Restarted false)
         /\ loadThread_ st3 = false.
Proof.
  intros cfg st.
  assert (Hw : forall s : Z, 0 < batchSizeOf cfg s)
    by (intros s; reflexivity).
  assert (HI : Inv cfg st).
  { exists [], [10; 20; 30], [].
    repeat split; try discriminate; exfalso; apply H; reflexivity. }
  destruct (run cfg st [GetNextBatch 2 (fun _ => 0)])
    as [[st1 es1]|] eqn:Hr1; [|vm_compute in Hr1; discriminate].
  destruct (run cfg st [GetNextBatch 2 (fun _ => 0); GetNextBatch 2 (fun _ => 0)])
    as [[st2 es2]|] eqn:Hr2; [|vm_compute in Hr2; discriminate].
  exists st1, es1, st2, es2.
  split; [reflexivity|].
  destruct (replay_pass_repeats cfg Hw st st1 [10; 20; 30]
              [GetNextBatch 2 (fun _ => 0)] es1 HI eq_refl
              eq_refl ltac:(repeat constructor) Hr1)
    as (d1 & r1 & _ & _ & Hc1 & Hmid & _).
  destruct (replay_pass_repeats cfg Hw st st2 [10; 20; 30]
              [GetNextBatch 2 (fun _ => 0); GetNextBatch 2 (fun _ => 0)]
              es2 HI eq_refl
              eq_refl ltac:(repeat constructor) Hr2)
    as (d2 & r2 & _ & _ & Hc2 & _ & Hend).
  split.
  { apply (Hmid ltac:(vm_compute in Hr1; injection Hr1 as <- _;
                      vm_compute in Hc1; injection Hc1 as Hr _;
                      destruct r1; [discriminate Hr|discriminate])).  }
  split; [reflexivity|].
  assert (Hr2' : r2 = []).
  { vm_compute in Hr2. injection Hr2 as <- _.
    vm_compute in Hc2. injection Hc2 as Hr _.
    destruct r2; [reflexivity|discriminate Hr]. }
  destruct (Hend Hr2' ltac:(discriminate) [[40]])
    as (st3 & Hs3 & _ & Ht3 & _).
  exists st3. split; assumption.
Defined.

Lemma draw_takes_witness :
  let cfg := {| skipShuffle_ := false; poolSize_ := 4;
                canOverBatchSize_ := false;
                calcBatchSize_ := @None (Z -> Z) |} in
  draw cfg 9 [Some 10; Some 20; Some 30; Some 40]
  = Ok (Some 20, [Some 10; Some 40; Some 30])
  /\ draw cfg 9 [Some 10; None; Some 30; Some 40] = Fatal.
Proof.
  intros cfg. split.
  - apply (proj2 (draw_takes cfg 9 [Some 10] [Some 30; Some 40] (Some 20))
             eq_refl eq_refl).
  - apply (proj2 (draw_takes cfg 9 [Some 10] [Some 30; Some 40] None)
             eq_refl eq_refl).
Defined.

(** ** More slots *)

Lemma dense_slot_encoded_witness :
  let header := {| dim := 2; slotType := ST_DENSE; seqType := SQT_NONE |} in
  let objs := [PySeq [PyFloat 15; PyInt 2; PyInt 9]; PySeq [PyInt 3; PyFloat 45]] in
  scanSlot (fun _ : Z => -1) (fun d : Z => d)
      (fun z : Z => 10 * z) 0 0 header objs
  = Ok (setValue Argument_new (CpuMatrix 2 2 [15; 20; 30; 45])).
Proof.
  intros header objs.
  destruct (dense_slot_encoded (fun _ : Z => -1) (fun d : Z => d)
      (fun z : Z => 10 * z) 0 0
              header objs eq_refl eq_refl
              ltac:(vm_compute; discriminate)
              ltac:(vm_compute; reflexivity)
              ltac:(repeat constructor))
    as (data & Hscan & Hdata & _).
  rewrite Hscan, Hdata. reflexivity.
Defined.

Lemma index_slot_encoded_witness :
  let header := {| dim := 100; slotType := ST_INDEX; seqType := SQT_NONE |} in
  scanSlot (fun _ : Z => -1) (fun d : Z => d) (fun z : Z => z) 0 0 header
    (map PyInt [7; 2 ^ 31 - 1; -1; - 2 ^ 31])
  = Ok (setIds Argument_new [7; 2 ^ 31 - 1; -1; - 2 ^ 31]).
Proof.
  intros header.
  apply (index_slot_encoded (fun _ : Z => -1) (fun d : Z => d)
           (fun z : Z => z) 0 0 header [7; 2 ^ 31 - 1; -1; - 2 ^ 31]
           eq_refl eq_refl ltac:(vm_compute; reflexivity)).
  repeat constructor; vm_compute; discriminate.
Defined.

Lemma sparse_values_encoded_witness :
  let header := {| dim := 10; slotType := ST_SPARSE_VALUE; seqType := SQT_NONE |} in
  let objs := [PySeq [PySeq [PyInt 5; PyFloat 50]];
               PySeq [];
               PySeq [PySeq [PyInt 2; PyInt 20]; PySeq [PyInt 7; PyFloat 70]]] in
  exists rows,
    scanSlot (fun _ : Z => -1) (fun d : Z => d)
      (fun z : Z => z) 0 0 header objs
    = Ok (setValue Argument_new
            (CpuSparseMatrix 3 10 rows [5; 2; 7] (Some [50; 20; 70]))).
Proof.
  intros header objs.
  destruct (sparse_values_encoded (fun _ : Z => -1) (fun d : Z => d)
      (fun z : Z => z) 0 0
              true header objs eq_refl eq_refl
              ltac:(repeat constructor)
              ltac:(vm_compute; reflexivity)
              ltac:(vm_compute; reflexivity))
    as (rows & cols & vals & Hscan & Hvals & Hcols & _).
  exists rows. rewrite Hscan, Hvals, Hcols. reflexivity.
Defined.



Lemma scanSlot_accepts_witness :
  let header := {| dim := 2; slotType := ST_DENSE; seqType := SQT_NONE |} in
  (exists a : Argument Z,
      scanSlot (fun _ : Z => -1) (fun d : Z => d)
      (fun z : Z => z) 0 0 header
        [PySeq [PyInt 1; PyInt 2]] = Ok a)
  /\ ~ (exists a : Argument Z,
           scanSlot (fun _ : Z => -1) (fun d : Z => d)
      (fun z : Z => z) 0 0 header
             [PySeq [PyInt 1; PyInt 2]; PySeq [PyInt 3]] = Ok a).
Proof.
  intros header. split.
  - apply (proj2 (scanSlot_accepts (fun _ : Z => -1) (fun d : Z => d)
      (fun z : Z => z) 0 0
                    header [PySeq [PyInt 1; PyInt 2]])
             (DenseScanner header) eq_refl).
    + vm_compute. split; [discriminate|reflexivity].
    + repeat constructor.
  - intros (a & Ha).
    destruct (proj1 (scanSlot_accepts (fun _ : Z => -1) (fun d : Z => d)
      (fun z : Z => z) 0 0
                       header [PySeq [PyInt 1; PyInt 2]; PySeq [PyInt 3]])
                a Ha) as (sc & Hc & Hwf).
    injection Hc as <-.
    inversion Hwf as [|? ? _ Hrest]; subst.
    inversion Hrest as [|? ? Hbad _]; subst.
    discriminate Hbad.
Defined.

Lemma cpuBatch_slot_by_slot_witness :
  let headers := [{| dim := 2; slotType := ST_DENSE; seqType := SQT_NONE |};
                  {| dim := 5; slotType := ST_INDEX; seqType := SQT_NONE |}] in
  let data := [PySeq [PySeq [PyInt 1; PyInt 2]; PyInt 3];
               PySeq [PySeq [PyInt 4; PyInt 5]; PyInt 0]] in
  getNextBatchInternal_cpuBatch (fun _ : Z => -1) (fun d : Z => d)
      (fun z : Z => z) 0 0
    headers data
  = Ok [setValue Argument_new (CpuMatrix 2 2 [1; 2; 4; 5]);
        setIds Argument_new [3; 0]].
Proof.
  intros headers data.
  apply (proj1 (cpuBatch_slot_by_slot (fun _ : Z => -1) (fun d : Z => d)
      (fun z : Z => z) 0 0
                  headers data _
                  ltac:(repeat (constructor;
                                [eexists; split; [reflexivity|];
                                 repeat constructor|]); constructor))).
  reflexivity.
Defined.

Lemma interrupted_pass_is_replayed_witness :
  let cfg := {| skipShuffle_ := true; poolSize_ := 4;
                canOverBatchSize_ := false; calcBatchSize_ := None |} in
  let sched1 := [LoadRead 0; LoadPush; LoadRead 0; LoadPush;
                 GetNextBatch 1 (fun _ => 0)] in
  exists start st1 es1 st2,
    resetImpl true [[10; 20; 30]] (PyDataProvider2_ctor CACHE_PASS_IN_MEM 0)
    = Ok start
    /\ run cfg start sched1 = Some (st1, es1)
    /\ step cfg st1 (Reset [[40]]) = Some (st2, Restarted false)
    /\ cache_ st2 = CacheOnePassInMemory [Some 10] [].
Proof.
  intros cfg sched1.
  assert (Hw : forall s : Z, 0 < batchSizeOf cfg s)
    by (intros s; reflexivity).
  assert (H0 : resetImpl true [[10; 20; 30]]
                 (PyDataProvider2_ctor CACHE_PASS_IN_MEM 0)
               = Ok {| loadThread_ := true;
                       callingContexts_ := [[10; 20; 30]];
                       dataPool_ := []; poolActualSize_ := 0;
                       cache_ := CacheOnePassInMemory [] []; loading := None |})
    by reflexivity.
  destruct (run cfg {| loadThread_ := true;
                       callingContexts_ := [[10; 20; 30]];
                       dataPool_ := []; poolActualSize_ := 0;
                       cache_ := CacheOnePassInMemory [] []; loading := None |}
              sched1)
    as [[st1 es1]|] eqn:Hr1; [|vm_compute in Hr1; discriminate].
  destruct (step cfg st1 (Reset [[40]])) as [[st2 e]|] eqn:Hs;
    [|vm_compute in Hr1; injection Hr1 as <- _; vm_compute in Hs; discriminate].
  destruct (interrupted_pass_is_replayed cfg Hw 0 [[10; 20; 30]] [[40]]
              sched1 _ st1 st2 es1 e
              ltac:(vm_compute; reflexivity) H0 ltac:(repeat constructor) Hr1
              ltac:(vm_compute in Hr1; injection Hr1 as _ <-; discriminate)
              Hs)
    as (delivered & Hb & He & Hst & _).
  eexists. exists st1, es1, st2.
  split; [exact H0|]. split; [exact Hr1|].
  split; [rewrite <- He; exact Hs|].
  rewrite Hst. cbn [cache_]. f_equal.
  rewrite <- Hb. vm_compute in Hr1. injection Hr1 as _ <-. reflexivity.
Defined.

Lemma small_request_goes_ahead_witness :
  let cfg := {| skipShuffle_ := true; poolSize_ := 3;
                canOverBatchSize_ := false; calcBatchSize_ := None |} in
  let sched := [LoadRead 0; LoadPush; LoadRead 0; LoadPush; LoadRead 0] in
  exists st0 st es,
    resetImpl true [[10; 20; 30; 40]] (PyDataProvider2_ctor NO_CACHE 0) = Ok st0
    /\ run cfg st0 sched = Some (st, es)
    /\ step cfg st LoadPush = None
    /\ pullReady (to_size_t 2) st = true.
Proof.
  intros cfg sched.
  assert (H0 : resetImpl true [[10; 20; 30; 40]]
                 (PyDataProvider2_ctor NO_CACHE 0)
               = Ok {| loadThread_ := true;
                       callingContexts_ := [[10; 20; 30; 40]];
                       dataPool_ := []; poolActualSize_ := 0;
                       cache_ := NoCacheStrategy; loading := None |})
    by reflexivity.
  destruct (Inv_start cfg NO_CACHE 0 [[10; 20; 30; 40]] _
              ltac:(vm_compute; reflexivity) H0) as [HI _].
  destruct (run cfg {| loadThread_ := true;
                       callingContexts_ := [[10; 20; 30; 40]];
                       dataPool_ := []; poolActualSize_ := 0;
                       cache_ := NoCacheStrategy; loading := None |} sched)
    as [[st es]|] eqn:Hr; [|vm_compute in Hr; discriminate].
  assert (HI1 : Inv cfg st).
  { apply (Inv_run cfg sched _ st es HI); [repeat constructor|exact Hr]. }
  assert (Hst : st = {| loadThread_ := true;
                        callingContexts_ := [[40]];
                        dataPool_ := [Some 10; Some 20];
                        poolActualSize_ := 2;
                        cache_ := NoCacheStrategy; loading := Some 30 |})
    by (vm_compute in Hr; injection Hr as <- _; reflexivity).
  assert (Hpush : step cfg st LoadPush = None) by (rewrite Hst; reflexivity).
  destruct (small_request_goes_ahead cfg st HI1
              ltac:(rewrite Hst; reflexivity)
              ltac:(rewrite Hst; discriminate))
    as [(a & st' & e & Hs & [-> | ->])|(data & Hl & _ & Hcall)].
  - exfalso. rewrite Hst in Hs. discriminate Hs.
  - exfalso. rewrite Hpush in Hs. discriminate Hs.
  - assert (data = 30) as -> by (rewrite Hst in Hl; injection Hl as <-; reflexivity).
    eexists. exists st, es.
    split; [exact H0|]. split; [exact Hr|]. split; [exact Hpush|].
    apply (Hcall 2); [lia|vm_compute; discriminate].
Defined.
